(** * Anime-Clipper: the analyzer and renderer workers and the job API

    A shallow embedding of

    - [backend/app/workers/analyzer.py] (scene detection, hook scoring,
      candidate enumeration and the [analyze_video_task] Celery task),
    - [backend/app/workers/renderer.py] ([render_clips_task]),
    - [backend/app/api/jobs.py] ([start_analysis], [cancel_job], [retry_job]),
    - [backend/app/api/renderer.py] ([create_render], [batch_render],
      [delete_render], [download_render]),
    - [backend/app/api/vidoes.py] ([initialize_upload], [create_video]),
    - [backend/app/services/s3_service.py] (the URLs of the store),
    - [backend/app/models.py] (the rows these read and write).

    Conventions.  Python floats are modelled by exact rationals [Q]: every
    comparison, [min] and [max] of the source is exact on floats, and the
    rounding of [+], [-] and [/] is idealised.  The bounds on candidates and
    scene boundaries are stated on the sums, quotients and comparisons the
    code itself makes, so that they do not depend on that idealisation; where
    rounding changes an outcome, it is shown on binary64 ([Binary64]).
    NumPy's [nan] (the mean of an empty window) is kept as a separate value.
    Python dictionaries are [gmap]s, JSON columns are values of type [json].
    An exception is represented by its message, the string [str(e)] that the
    handlers store.
    Calls that leave the process (S3, ffmpeg, ffprobe, Whisper, OpenCV
    decoding) are read from a [World] record of outcomes; so are the results
    of [get_video_info], [transcribe_audio], [compute_motion_scores] and
    [compute_audio_peaks], which only reshape what those calls return.  The
    bodies of [compute_motion_scores] and [compute_audio_peaks] and the
    command [TemplateRenderer] builds are also modelled on their own
    ([Motion], [Audio], [Template]). *)

From Stdlib Require Import QArith Qabs Lqa ZArith List String Ascii Bool Lia Sorted
  Permutation.
From Stdlib Require Floats Uint63.
From stdpp Require Import gmap strings pretty.

Set Warnings "-register-all".
Local Open Scope string_scope.
Local Open Scope list_scope.
Local Open Scope Q_scope.

(** ** Python built-ins used by the sources *)

Module Py.

(** An exception, by its message. *)
Definition exn : Type := string.

(** [x < y] on floats. *)
Definition Qltb (x y : Q) : bool := negb (Qle_bool y x).

(** [min(x, y)] and [max(x, y)]: the first argument is kept unless the second
    is strictly smaller (resp. greater). *)
Definition min2 (x y : Q) : Q := if Qltb y x then y else x.
Definition max2 (x y : Q) : Q := if Qltb x y then y else x.
Definition min3 (x y z : Q) : Q := min2 (min2 x y) z.

(** [int(x)] on a float truncates toward zero. *)
Definition int_of (x : Q) : Z := Z.quot (Qnum x) (Z.pos (Qden x)).

(** A slice bound [i] on a sequence of length [n]: negative bounds count from
    the end, and both ends are clamped. *)
Definition slice_bound (n i : Z) : Z :=
  if (i <? 0)%Z then Z.max 0 (i + n) else Z.min i n.

(** [l[i:j]]; the upper bound may be [None]. *)
Definition slice {A} (l : list A) (i : Z) (j : option Z) : list A :=
  let n := Z.of_nat (length l) in
  let lo := slice_bound n i in
  let hi := match j with Some j => slice_bound n j | None => n end in
  firstn (Z.to_nat (hi - lo)) (skipn (Z.to_nat lo) l).

(** A NumPy float: a number or [nan]. *)
Inductive npfloat : Type :=
| NaN
| Fin (q : Q).

Definition np_add (a b : npfloat) : npfloat :=
  match a, b with
  | Fin x, Fin y => Fin (x + y)
  | _, _ => NaN
  end.

Definition np_mul (a b : npfloat) : npfloat :=
  match a, b with
  | Fin x, Fin y => Fin (x * y)
  | _, _ => NaN
  end.

(** Every comparison with [nan] is false. *)
Definition np_ltb (a b : npfloat) : bool :=
  match a, b with
  | Fin x, Fin y => Qltb x y
  | _, _ => false
  end.

Definition Qsum (l : list Q) : Q := fold_left Qplus l 0.

(** [np.mean]: [nan] on an empty array. *)
Definition np_mean (l : list Q) : npfloat :=
  match l with
  | [] => NaN
  | _ => Fin (Qsum l / inject_Z (Z.of_nat (length l)))
  end.

(** [str.lower], on ASCII letters. *)
Definition lower_ascii (c : ascii) : ascii :=
  let n := nat_of_ascii c in
  if (65 <=? n)%nat && (n <=? 90)%nat then ascii_of_nat (n + 32) else c.

Fixpoint lower (s : string) : string :=
  match s with
  | EmptyString => EmptyString
  | String c s' => String (lower_ascii c) (lower s')
  end.

Definition char_in (chars : list ascii) (c : ascii) : bool :=
  existsb (Ascii.eqb c) chars.

Fixpoint lstrip (chars : list ascii) (s : string) : string :=
  match s with
  | EmptyString => EmptyString
  | String c s' => if char_in chars c then lstrip chars s' else s
  end.

Fixpoint rstrip (chars : list ascii) (s : string) : string :=
  match s with
  | EmptyString => EmptyString
  | String c s' =>
      match rstrip chars s' with
      | EmptyString => if char_in chars c then EmptyString else String c EmptyString
      | r => String c r
      end
  end.

(** [s.strip(chars)]. *)
Definition strip (chars : string) (s : string) : string :=
  let cs := list_ascii_of_string chars in
  rstrip cs (lstrip cs s).

(** [s.endswith(suffix)]. *)
Fixpoint endswith (suffix s : string) : bool :=
  String.eqb suffix s ||
  match s with
  | EmptyString => false
  | String _ s' => endswith suffix s'
  end.

(** [needle in hay] on strings. *)
Fixpoint contains (needle hay : string) : bool :=
  String.prefix needle hay ||
  match hay with
  | EmptyString => false
  | String _ hay' => contains needle hay'
  end.

(** A [for] loop whose body may raise: the state reached, and the exception
    that stopped the loop, if any. *)
Fixpoint for_each {S X} (body : S -> X -> S * option exn) (xs : list X) (s : S)
  : S * option exn :=
  match xs with
  | [] => (s, None)
  | x :: xs' =>
      match body s x with
      | (s', None) => for_each body xs' s'
      | stopped => stopped
      end
  end.

(** [enumerate(l)]. *)
Definition enumerate {A} (l : list A) : list (nat * A) :=
  combine (seq 0 (length l)) l.

End Py.

(** ** JSON values (the JSONB columns and the Celery task payloads) *)

Inductive json : Type :=
| JNull
| JBool (b : bool)
| JInt (z : Z)
| JFloat (q : Q)
| JStr (s : string)
| JList (l : list json)
| JObj (m : gmap string json).

(** A number read from a JSON value; [bool] is a subclass of [int]. *)
Definition json_number (v : json) : option Q :=
  match v with
  | JInt z => Some (inject_Z z)
  | JFloat q => Some q
  | JBool b => Some (if b then 1 else 0)
  | _ => None
  end.

Definition json_integer (v : json) : option Z :=
  match v with
  | JInt z => Some z
  | JBool b => Some (if b then 1 else 0)%Z
  | _ => None
  end.

Definition json_string (v : json) : option string :=
  match v with
  | JStr s => Some s
  | _ => None
  end.

(** A value iterated as a sequence of strings; iterating a string yields
    its characters. *)
Definition json_strings (v : json) : option (list string) :=
  match v with
  | JList l => mapM json_string l
  | JStr s => Some ((fun c => String c EmptyString) <$> list_ascii_of_string s)
  | _ => None
  end.

(** A value used as the upper bound of a slice. *)
Definition json_slice_bound (v : json) : option (option Z) :=
  match v with
  | JNull => Some None
  | _ => Some <$> json_integer v
  end.

Definition json_object (v : json) : option (gmap string json) :=
  match v with
  | JObj m => Some m
  | _ => None
  end.

(** ** The rows of [models.py] *)

Module Models.

(** [Job.status] and [Render.status]. *)
Inductive Status : Type :=
| Pending
| Processing
| Completed
| Failed
| Cancelled.

#[global] Instance Status_eq_dec : EqDecision Status.
Proof. solve_decision. Defined.

(** The spec's terminal states. *)
Definition terminal (s : Status) : bool :=
  match s with
  | Completed | Failed | Cancelled => true
  | Pending | Processing => false
  end.

(** The string stored in the [status] column. *)
Definition status_name (s : Status) : string :=
  match s with
  | Pending => "pending"
  | Processing => "processing"
  | Completed => "completed"
  | Failed => "failed"
  | Cancelled => "cancelled"
  end.

(** [Job.type]. *)
Inductive JobType : Type :=
| Analyze
| RenderJob.

#[global] Instance JobType_eq_dec : EqDecision JobType.
Proof. solve_decision. Defined.

Record Video : Type := {
  video_user_id : string;
  video_src_url : string;
  video_duration : option Q;
  video_resolution : option string
}.

Record Job : Type := {
  job_video_id : string;
  job_type : JobType;
  job_status : Status;
  job_progress : Z;
  job_logs : gmap string json
}.

(** One element of [Transcript.words]. *)
Record Word : Type := {
  word : string;
  start : Q;
  end_ : Q;
  confidence : Q
}.

Record Transcript : Type := {
  transcript_video_id : string;
  lang : string;
  words : list Word
}.

(** [Candidate.features]: the five axes of the scorer. *)
Record Features : Type := {
  speech_hook : Q;
  motion : Py.npfloat;
  audio_peak : Py.npfloat;
  keyword_match : Q;
  scene_freshness : Q
}.

Record Candidate : Type := {
  candidate_id : string;
  candidate_video_id : string;
  start_s : Q;
  end_s : Q;
  score : Py.npfloat;
  features : Features;
  thumb_url : string
}.

(** A value of [Render.files]: the per-aspect URLs of one candidate, or the
    message stored under the key ["error"]. *)
Inductive FilesEntry : Type :=
| FOutputs (urls : gmap string string)
| FError (msg : string).

(** [Render.params], as [create_render] writes them; a key the task reads
    with [params.get] is optional. *)
Record RenderParams : Type := {
  candidate_ids : option (list string);
  template : option string;
  outputs : option (list string);
  watermark : option string;
  loudness : option string;
  captions : option string
}.

Record Render : Type := {
  render_user_id : string;
  render_params : RenderParams;
  render_status : Status;
  render_files : gmap string FilesEntry
}.

(** The database.  Jobs, videos and renders are looked up by primary key;
    transcripts and candidates are kept in insertion order, and
    [query.filter(...).first()] is the first matching row. *)
Record DB : Type := {
  jobs : gmap string Job;
  videos : gmap string Video;
  renders : gmap string Render;
  transcripts : list Transcript;
  candidates : list Candidate
}.

Definition set_jobs (f : gmap string Job -> gmap string Job) (db : DB) : DB :=
  {| jobs := f (jobs db); videos := videos db; renders := renders db;
     transcripts := transcripts db; candidates := candidates db |}.

Definition set_videos (f : gmap string Video -> gmap string Video) (db : DB) : DB :=
  {| jobs := jobs db; videos := f (videos db); renders := renders db;
     transcripts := transcripts db; candidates := candidates db |}.

Definition set_renders (f : gmap string Render -> gmap string Render) (db : DB) : DB :=
  {| jobs := jobs db; videos := videos db; renders := f (renders db);
     transcripts := transcripts db; candidates := candidates db |}.

Definition add_transcript (t : Transcript) (db : DB) : DB :=
  {| jobs := jobs db; videos := videos db; renders := renders db;
     transcripts := transcripts db ++ [t]; candidates := candidates db |}.

Definition add_candidates (cs : list Candidate) (db : DB) : DB :=
  {| jobs := jobs db; videos := videos db; renders := renders db;
     transcripts := transcripts db; candidates := candidates db ++ cs |}.

Definition with_status (s : Status) (j : Job) : Job :=
  {| job_video_id := job_video_id j; job_type := job_type j; job_status := s;
     job_progress := job_progress j; job_logs := job_logs j |}.

Definition with_progress (p : Z) (j : Job) : Job :=
  {| job_video_id := job_video_id j; job_type := job_type j;
     job_status := job_status j; job_progress := p; job_logs := job_logs j |}.

Definition with_logs (l : gmap string json) (j : Job) : Job :=
  {| job_video_id := job_video_id j; job_type := job_type j;
     job_status := job_status j; job_progress := job_progress j; job_logs := l |}.

End Models.

(** ** What the workers reach outside the process *)

Module Env.

(** A sampled frame, by the normalised hue-saturation histogram that
    [detect_scenes] computes from it. *)
Definition hist : Type := list Q.

(** [VideoAnalyzer.get_video_info]'s reading of ffprobe's output. *)
Record VideoInfo : Type := {
  info_duration : Q;
  info_resolution : string;
  info_fps : Q
}.

(** [VideoAnalyzer.transcribe_audio]'s result. *)
Record TranscriptData : Type := {
  td_language : string;
  td_words : list Models.Word
}.

(** What [TemplateRenderer.render] hands to ffmpeg. *)
Record RenderCall : Type := {
  call_video_path : string;
  call_output_path : string;
  call_start_s : Q;
  call_end_s : Q;
  call_captions : list Models.Word;
  call_template : string;
  call_aspect : string;
  call_watermark : string;
  call_loudness : string
}.

(** The outcome of every call that leaves the process: [None] (or [inr])
    when the call returns, the exception otherwise. *)
Record World : Type := {
  s3_bucket : string;
  s3_download_file : string -> string -> option Py.exn;
  s3_upload_file : string -> string -> option Py.exn;
  ffprobe : string -> Py.exn + VideoInfo;
  ffmpeg_extract_audio : string -> string -> option Py.exn;
  whisper_transcribe : string -> Py.exn + TranscriptData;
  cv2_frames : string -> list hist;
  motion_signal : string -> Py.exn + list Q;
  audio_signal : string -> Py.exn + list Q;
  ffmpeg_thumbnail : Q -> string -> string -> option Py.exn;
  (** [Some stderr] when ffmpeg ends with a non-zero return code *)
  ffmpeg_render : RenderCall -> option string;
  os_remove : string -> option Py.exn;
  (** the files under [/tmp/videos] when a task starts *)
  local_files : gset string;
  (** the primary key drawn for the [n]-th row a task adds *)
  uuid4 : nat -> string
}.

(** [upload_to_s3(local_path, s3_key)]: the URL of the uploaded object. *)
Definition upload_to_s3 (w : World) (local_path s3_key : string)
  : Py.exn + string :=
  match s3_upload_file w local_path s3_key with
  | Some e => inl e
  | None => inr ("s3://" +:+ s3_bucket w +:+ "/" +:+ s3_key)
  end.

(** [download_from_s3(s3_url, local_path)]. *)
Definition download_from_s3 (w : World) (s3_url local_path : string)
  : option Py.exn :=
  s3_download_file w s3_url local_path.

End Env.

(** ** [workers/analyzer.py] *)

Module Analyzer.
Import Models Env.

(** *** [VideoAnalyzer.detect_scenes] *)

(** [np.sum(np.abs(hist - prev_hist))]. *)
Definition l1_distance (h p : hist) : Q :=
  Py.Qsum (map (fun xy => Qabs (fst xy - snd xy)) (combine h p)).

Record SceneLoop : Type := {
  scene_boundaries : list Q;
  prev_hist : option hist;
  frame_count : nat
}.

Definition sample_rate : nat := 3.

(** One turn of the [while] loop, on a frame that was read. *)
Definition scene_frame (fps threshold : Q) (s : SceneLoop) (frame : hist)
  : SceneLoop * option Py.exn :=
  if (frame_count s mod sample_rate =? 0)%nat then
    let next b :=
      ({| scene_boundaries := b; prev_hist := Some frame;
          frame_count := S (frame_count s) |}, None) in
    match prev_hist s with
    | Some p =>
        if Py.Qltb threshold (l1_distance frame p) then
          if Qeq_bool fps 0 then (s, Some "float division by zero")
          else
            let timestamp := inject_Z (Z.of_nat (frame_count s)) / fps in
            next (scene_boundaries s ++ [timestamp])
        else next (scene_boundaries s)
    | None => next (scene_boundaries s)
    end
  else
    ({| scene_boundaries := scene_boundaries s; prev_hist := prev_hist s;
        frame_count := S (frame_count s) |}, None).

Definition detect_scenes (fps duration : Q) (frames : list hist) (threshold : Q)
  : Py.exn + list Q :=
  let init := {| scene_boundaries := [0]; prev_hist := None; frame_count := 0 |} in
  match Py.for_each (scene_frame fps threshold) frames init with
  | (_, Some e) => inl e
  | (s, None) => inr (scene_boundaries s ++ [duration])
  end.

(** *** [detect_hook_phrases] *)

Definition hook_words : gset string :=
  {[ "wait"; "hey"; "no"; "stop"; "what"; "now"; "look"; "watch" ]}.

Definition question_words : gset string :=
  {[ "who"; "what"; "where"; "when"; "why"; "how" ]}.

(** The body of the loop over [words], on the running [score]. *)
Definition hook_word (start_s end_s : Q) (score : Q) (w : Word) : Q :=
  let early_window := start_s + 2.5 in
  if Py.Qltb (start w) start_s || Py.Qltb end_s (start w) then score
  else
    let word_lower := Py.strip ".,!?" (Py.lower (word w)) in
    if Qle_bool (start w) early_window then
      let score := if bool_decide (word_lower ∈ hook_words) then score + 0.5 else score in
      let score := if bool_decide (word_lower ∈ question_words) then score + 0.3 else score in
      if Py.endswith "!" (word w) then score + 0.2 else score
    else score.

Definition detect_hook_phrases (words : list Word) (start_s end_s : Q) : Q :=
  Py.min2 (fold_left (hook_word start_s end_s) words 0) 1.

(** *** [score_candidate] *)

(** [float(np.mean(scores[start_idx:end_idx])) if start_idx < len(scores) else 0]. *)
Definition window_mean (scores : list Q) (start_idx end_idx : Z) : Py.npfloat :=
  if (start_idx <? Z.of_nat (length scores))%Z
  then Py.np_mean (Py.slice scores start_idx (Some end_idx))
  else Py.Fin 0.

Definition keyword_score (start_s end_s : Q) (transcript_words : list Word)
    (keywords : list string) : Q :=
  let segment_words :=
    map (fun w => Py.lower (word w))
      (List.filter (fun w => Qle_bool start_s (start w) && Qle_bool (start w) end_s)
         transcript_words) in
  let text := String.concat " " segment_words in
  let hits := length (List.filter (fun kw => Py.contains (Py.lower kw) text) keywords) in
  Py.min2 (inject_Z (Z.of_nat hits)
           / inject_Z (Z.max (Z.of_nat (length keywords)) 1)) 1.

(** The body of the loop over [existing_candidates], on [overlap_penalty]. *)
Definition overlap_step (start_s end_s : Q) (overlap_penalty : Q) (ex : Q * Q) : Q :=
  let overlap := Py.min2 end_s (snd ex) - Py.max2 start_s (fst ex) in
  if Py.Qltb 0 overlap
  then overlap_penalty + overlap / (end_s - start_s)
  else overlap_penalty.

Definition freshness (start_s end_s : Q) (existing_candidates : list (Q * Q)) : Q :=
  let overlap_penalty := fold_left (overlap_step start_s end_s) existing_candidates 0 in
  Py.max2 0 (1 - overlap_penalty).

(** [weights.get(key, default)]. *)
Definition weight (weights : gmap string Q) (key : string) (dflt : Q) : Py.npfloat :=
  Py.Fin (default dflt (weights !! key)).

Definition score_candidate (start_s end_s : Q) (transcript_words : list Word)
    (motion_scores audio_scores : list Q) (keywords : list string)
    (existing_candidates : list (Q * Q)) (weights : gmap string Q)
  : Py.npfloat * Features :=
  let speech_hook := detect_hook_phrases transcript_words start_s end_s in
  let start_idx := Py.int_of start_s in
  let end_idx := Py.int_of end_s in
  let motion_score := window_mean motion_scores start_idx end_idx in
  let audio_score := window_mean audio_scores start_idx end_idx in
  let keyword_score := keyword_score start_s end_s transcript_words keywords in
  let freshness := freshness start_s end_s existing_candidates in
  let total_score :=
    Py.np_add (Py.np_add (Py.np_add (Py.np_add
      (Py.np_mul (weight weights "speech_hook" 0.30) (Py.Fin speech_hook))
      (Py.np_mul (weight weights "motion" 0.25) motion_score))
      (Py.np_mul (weight weights "audio_peak" 0.20) audio_score))
      (Py.np_mul (weight weights "keyword_match" 0.15) (Py.Fin keyword_score)))
      (Py.np_mul (weight weights "scene_freshness" 0.10) (Py.Fin freshness)) in
  (total_score,
   {| speech_hook := speech_hook; motion := motion_score;
      audio_peak := audio_score; keyword_match := keyword_score;
      scene_freshness := freshness |}).

(** *** Candidate generation in [analyze_video_task] *)

(** The values the task reads from [config] while generating candidates.
    A value of the wrong type makes the task raise [TypeError] at its first
    use; the model raises when the value is read. *)
Record Targets : Type := {
  min_duration : Q;
  max_duration : Q;
  target_duration : Q;
  keywords : list string;
  weights : gmap string Q;
  max_candidates : option Z
}.

(** [config.get(key, default)], read at type [A]. *)
Definition config_get {A} (read : json -> option A) (config : gmap string json)
    (key : string) (dflt : A) : Py.exn + A :=
  match config !! key with
  | None => inr dflt
  | Some v =>
      match read v with
      | Some a => inr a
      | None => inl ("TypeError: " +:+ key)
      end
  end.

Definition weight_keys : list string :=
  ["speech_hook"; "motion"; "audio_peak"; "keyword_match"; "scene_freshness"].

(** The entries of [weights] that [score_candidate] reads. *)
Definition read_weights (v : json) : option (gmap string Q) :=
  m ← json_object v;
  foldr (fun key acc =>
           acc ← acc;
           match m !! key with
           | None => Some acc
           | Some x => q ← json_number x; Some (<[key := q]> acc)
           end) (Some ∅) weight_keys.

Definition read_targets (config : json) : Py.exn + Targets :=
  match config with
  | JObj c =>
      match config_get json_number c "clip_min_s" 7,
            config_get json_number c "clip_max_s" 15,
            config_get json_number c "target_s" 10,
            config_get json_strings c "keywords" [],
            config_get read_weights c "weights" ∅,
            config_get json_slice_bound c "max_candidates" (Some 20%Z) with
      | inr mn, inr mx, inr tg, inr kw, inr ws, inr mc =>
          inr {| min_duration := mn; max_duration := mx; target_duration := tg;
                 keywords := kw; weights := ws; max_candidates := mc |}
      | inl e, _, _, _, _, _ | _, inl e, _, _, _, _ | _, _, inl e, _, _, _
      | _, _, _, inl e, _, _ | _, _, _, _, inl e, _ | _, _, _, _, _, inl e => inl e
      end
  | _ => inl "AttributeError: get"
  end.

(** An element of the task's [candidates] list. *)
Record Cand : Type := {
  c_start_s : Q;
  c_end_s : Q;
  c_score : Py.npfloat;
  c_features : Features
}.

(** The two lists the generation loop appends to. *)
Record GenState : Type := {
  gen_candidates : list Cand;
  existing_segments : list (Q * Q)
}.

Section Generation.
Variable t : Targets.
Variable duration : Q.
Variable transcript_words : list Word.
Variables motion_scores audio_scores : list Q.

(** The body of [for duration in [target_duration, min_duration, max_duration]]. *)
Definition try_duration (scene_start scene_end : Q) (st : GenState) (trial : Q)
  : GenState :=
  if Py.Qltb (scene_end - scene_start) trial then st
  else
    let start_s := scene_start in
    let end_s := Py.min3 (start_s + trial) scene_end duration in
    if Qle_bool (min_duration t) (end_s - start_s) then
      let '(score, features) :=
        score_candidate start_s end_s transcript_words motion_scores
          audio_scores (keywords t) (existing_segments st) (weights t) in
      {| gen_candidates :=
           gen_candidates st ++
             [{| c_start_s := start_s; c_end_s := end_s; c_score := score;
                 c_features := features |}];
         existing_segments := existing_segments st ++ [(start_s, end_s)] |}
    else st.

Definition trial_durations : list Q :=
  [target_duration t; min_duration t; max_duration t].

(** The body of [for i in range(len(scene_boundaries) - 1)]. *)
Definition scene_step (st : GenState) (scene : Q * Q) : GenState :=
  fold_left (try_duration (fst scene) (snd scene)) trial_durations st.

(** [(scene_boundaries[i], scene_boundaries[i + 1])] for [i] in
    [range(len(scene_boundaries) - 1)]. *)
Fixpoint adjacent_pairs (scene_boundaries : list Q) : list (Q * Q) :=
  match scene_boundaries with
  | a :: (b :: _) as rest => (a, b) :: adjacent_pairs rest
  | _ => []
  end.

Definition generate (scene_boundaries : list Q) : list Cand :=
  gen_candidates
    (fold_left scene_step (adjacent_pairs scene_boundaries)
       {| gen_candidates := []; existing_segments := [] |}).

(** [candidates.sort(key=lambda x: x['score'], reverse=True)]: a stable
    sort, highest score first. *)
Fixpoint insert_by_score (c : Cand) (sorted : list Cand) : list Cand :=
  match sorted with
  | [] => [c]
  | d :: rest =>
      if Py.np_ltb (c_score c) (c_score d) then d :: insert_by_score c rest
      else c :: d :: rest
  end.

Definition sort_by_score (cs : list Cand) : list Cand :=
  foldr insert_by_score [] cs.

(** [top_candidates]. *)
Definition select (scene_boundaries : list Q) : list Cand :=
  Py.slice (sort_by_score (generate scene_boundaries)) 0 (max_candidates t).

End Generation.

(** The [(start_s, end_s)] pairs of a list of candidates, in order. *)
Definition intervals (cs : list Cand) : list (Q * Q) :=
  map (fun c => (c_start_s c, c_end_s c)) cs.

(** *** [analyze_video_task] *)

(** The task's arguments. *)
Record TaskArgs : Type := {
  arg_job_id : string;
  arg_video_id : string;
  arg_config : json
}.

(** Where the task stands: at one of its [update_state] milestones, or done.
    [Dequeued] is the delivered message, before the task's first statement;
    [Completing] is the point after the candidates are committed.  The
    [update_state] calls themselves write the step and its progress to
    Celery's result backend and leave the job row alone; the stage stands
    for them. *)
Inductive Stage : Type :=
| Dequeued
| Downloading
| AnalyzingMetadata
| Transcribing
| DetectingScenes
| AnalyzingMotion
| AnalyzingAudio
| GeneratingCandidates
| CreatingThumbnails
| Completing
| Returned (n_candidates : nat)
| Raised (e : Py.exn).

(** The task's local variables. *)
Record Locals : Type := {
  duration : Q;
  fps : Q;
  transcript_words : list Word;
  boundaries : list Q;
  motion_scores : list Q;
  audio_scores : list Q;
  top_candidates : list Cand
}.

Definition no_locals : Locals :=
  {| duration := 0; fps := 0; transcript_words := []; boundaries := [];
     motion_scores := []; audio_scores := []; top_candidates := [] |}.

Record Worker : Type := {
  stage : Stage;
  locals : Locals
}.

Definition video_path (video_id : string) : string :=
  "/tmp/videos/" +:+ video_id +:+ ".mp4".

Definition audio_path (video_id : string) : string :=
  "/tmp/videos/" +:+ video_id +:+ ".wav".

Definition thumb_path (video_id : string) (idx : nat) : string :=
  "/tmp/videos/" +:+ video_id +:+ "_thumb_" +:+ pretty idx +:+ ".jpg".

Definition thumb_key (video_id : string) (idx : nat) : string :=
  "thumbnails/" +:+ video_id +:+ "_" +:+ pretty idx +:+ ".jpg".

(** The [except Exception] handler: the job row is marked failed, and the
    commit also flushes the rows [pending] in the session. *)
Definition on_exception (a : TaskArgs) (pending : list Candidate) (e : Py.exn)
    (db : DB) : Worker * DB :=
  ({| stage := Raised e; locals := no_locals |},
   add_candidates pending
     (set_jobs (alter (fun j => with_logs {[ "error" := JStr e ]} (with_status Failed j))
                  (arg_job_id a)) db)).

(** The body of [for idx, cand in enumerate(top_candidates)], on the rows
    added to the session so far. *)
Definition thumbnail_step (w : World) (a : TaskArgs) (pending : list Candidate)
    (ic : nat * Cand) : list Candidate * option Py.exn :=
  let '(idx, cand) := ic in
  let thumb_time := (c_start_s cand + c_end_s cand) / 2 in
  match ffmpeg_thumbnail w thumb_time (video_path (arg_video_id a))
          (thumb_path (arg_video_id a) idx) with
  | Some e => (pending, Some e)
  | None =>
      match upload_to_s3 w (thumb_path (arg_video_id a) idx)
              (thumb_key (arg_video_id a) idx) with
      | inl e => (pending, Some e)
      | inr url =>
          (pending ++
             [{| candidate_id := uuid4 w idx;
                 candidate_video_id := arg_video_id a;
                 start_s := c_start_s cand; end_s := c_end_s cand;
                 score := c_score cand; features := c_features cand;
                 thumb_url := url |}], None)
      end
  end.

(** The task, from one milestone to the next. *)
Definition worker_step (w : World) (a : TaskArgs) (wk : Worker) (db : DB)
  : Worker * DB :=
  let l := locals wk in
  let goto st l' db' := ({| stage := st; locals := l' |}, db') in
  let vpath := video_path (arg_video_id a) in
  match stage wk with
  | Dequeued =>
      match jobs db !! arg_job_id a with
      | None =>
          (* the handler's own [job.status = 'failed'] raises on [None] *)
          goto (Raised "AttributeError: status") no_locals db
      | Some _ =>
          match videos db !! arg_video_id a with
          | None => on_exception a [] "Job or Video not found" db
          | Some _ =>
              goto Downloading l
                (set_jobs (alter (fun j => with_progress 0 (with_status Processing j))
                             (arg_job_id a)) db)
          end
      end
  | Downloading =>
      match videos db !! arg_video_id a with
      | None => on_exception a [] "ObjectDeletedError" db
      | Some v =>
          match download_from_s3 w (video_src_url v) vpath with
          | Some e => on_exception a [] e db
          | None => goto AnalyzingMetadata l db
          end
      end
  | AnalyzingMetadata =>
      match ffprobe w vpath with
      | inl e => on_exception a [] e db
      | inr info =>
          goto Transcribing
            {| duration := info_duration info; fps := info_fps info;
               transcript_words := transcript_words l; boundaries := boundaries l;
               motion_scores := motion_scores l; audio_scores := audio_scores l;
               top_candidates := top_candidates l |}
            (set_videos
               (alter (fun v =>
                         {| video_user_id := video_user_id v;
                            video_src_url := video_src_url v;
                            video_duration := Some (info_duration info);
                            video_resolution := Some (info_resolution info) |})
                  (arg_video_id a)) db)
      end
  | Transcribing =>
      match ffmpeg_extract_audio w vpath (audio_path (arg_video_id a)) with
      | Some e => on_exception a [] e db
      | None =>
          match json_object (arg_config a) with
          | None => on_exception a [] "AttributeError: get" db
          | Some _ =>
              match whisper_transcribe w (audio_path (arg_video_id a)) with
              | inl e => on_exception a [] e db
              | inr td =>
                  goto DetectingScenes
                    {| duration := duration l; fps := fps l;
                       transcript_words := td_words td; boundaries := boundaries l;
                       motion_scores := motion_scores l; audio_scores := audio_scores l;
                       top_candidates := top_candidates l |}
                    (add_transcript
                       {| transcript_video_id := arg_video_id a;
                          lang := td_language td;
                          words := td_words td |} db)
              end
          end
      end
  | DetectingScenes =>
      match detect_scenes (fps l) (duration l) (cv2_frames w vpath) 0.3 with
      | inl e => on_exception a [] e db
      | inr b =>
          goto AnalyzingMotion
            {| duration := duration l; fps := fps l;
               transcript_words := transcript_words l; boundaries := b;
               motion_scores := motion_scores l; audio_scores := audio_scores l;
               top_candidates := top_candidates l |} db
      end
  | AnalyzingMotion =>
      match motion_signal w vpath with
      | inl e => on_exception a [] e db
      | inr m =>
          goto AnalyzingAudio
            {| duration := duration l; fps := fps l;
               transcript_words := transcript_words l; boundaries := boundaries l;
               motion_scores := m; audio_scores := audio_scores l;
               top_candidates := top_candidates l |} db
      end
  | AnalyzingAudio =>
      match audio_signal w (audio_path (arg_video_id a)) with
      | inl e => on_exception a [] e db
      | inr au =>
          goto GeneratingCandidates
            {| duration := duration l; fps := fps l;
               transcript_words := transcript_words l; boundaries := boundaries l;
               motion_scores := motion_scores l; audio_scores := au;
               top_candidates := top_candidates l |} db
      end
  | GeneratingCandidates =>
      match read_targets (arg_config a) with
      | inl e => on_exception a [] e db
      | inr t =>
          goto CreatingThumbnails
            {| duration := duration l; fps := fps l;
               transcript_words := transcript_words l; boundaries := boundaries l;
               motion_scores := motion_scores l; audio_scores := audio_scores l;
               top_candidates :=
                 select t (duration l) (transcript_words l) (motion_scores l)
                   (audio_scores l) (boundaries l) |} db
      end
  | CreatingThumbnails =>
      match Py.for_each (thumbnail_step w a) (Py.enumerate (top_candidates l)) [] with
      | (pending, Some e) => on_exception a pending e db
      | (pending, None) => goto Completing l (add_candidates pending db)
      end
  | Completing =>
      let n := length (top_candidates l) in
      let db' :=
        set_jobs
          (alter (fun j =>
                    with_logs {[ "candidates_generated" := JInt (Z.of_nat n) ]}
                      (with_progress 100 (with_status Completed j)))
             (arg_job_id a)) db in
      match os_remove w vpath with
      | Some e => on_exception a [] e db'
      | None =>
          match os_remove w (audio_path (arg_video_id a)) with
          | Some e => on_exception a [] e db'
          | None => goto (Returned n) l db'
          end
      end
  | Returned _ | Raised _ => (wk, db)
  end.

(** A run of the task with nothing else touching the database. *)
Fixpoint run_worker (n : nat) (w : World) (a : TaskArgs) (wk : Worker) (db : DB)
  : Worker * DB :=
  match n with
  | O => (wk, db)
  | S n' =>
      let '(wk', db') := worker_step w a wk db in
      run_worker n' w a wk' db'
  end.

(** The task has ten steps from the message to its return. *)
Definition analyze_video_task (w : World) (a : TaskArgs) (db : DB) : Worker * DB :=
  run_worker 10 w a {| stage := Dequeued; locals := no_locals |} db.

End Analyzer.

(** ** [workers/renderer.py] *)

Module Renderer.
Import Models Env.

(** [aspect.replace(':', 'x')]. *)
Fixpoint replace_colon (s : string) : string :=
  match s with
  | EmptyString => EmptyString
  | String c s' =>
      String (if Ascii.eqb c ":" then "x"%char else c) (replace_colon s')
  end.

Definition output_filename (cand_id aspect : string) : string :=
  cand_id +:+ "_" +:+ replace_colon aspect +:+ ".mp4".

Definition output_path (cand_id aspect : string) : string :=
  "/tmp/videos/" +:+ output_filename cand_id aspect.

Definition s3_key (render_id cand_id aspect : string) : string :=
  "renders/" +:+ render_id +:+ "/" +:+ output_filename cand_id aspect.

(** The aspects for which [build_ffmpeg_command] has a scaling filter; on
    any other, [filters[-1]] raises [IndexError]. *)
Definition known_aspects : list string := ["9:16"; "1:1"; "4:5"].

(** The task's settings, read from [params] with their defaults. *)
Record Settings : Type := {
  set_template : string;
  set_outputs : list string;
  set_watermark : string;
  set_loudness : string;
  set_captions : string
}.

Definition settings_of (params : RenderParams) : Settings :=
  {| set_template := default "clean" (template params);
     set_outputs := default ["9:16"] (outputs params);
     set_watermark := default "@myanime" (watermark params);
     set_loudness := default "-14" (loudness params);
     set_captions := default "on" (captions params) |}.

(** The variables the two loops update, and the keys uploaded so far.
    ([current] only feeds the progress reported through [update_state].) *)
Record RenderLoop : Type := {
  rendered_files : gmap string (gmap string string);
  current : nat;
  files_on_disk : gset string;
  uploaded : list string
}.

(** [TemplateRenderer.render]. *)
Definition render (w : World) (call : RenderCall) : option Py.exn :=
  if bool_decide (call_aspect call ∈ known_aspects) then
    match ffmpeg_render w call with
    | Some stderr => Some ("FFmpeg failed: " +:+ stderr)
    | None => None
    end
  else Some "list index out of range".

(** The body of [for aspect in outputs]. *)
Definition render_aspect (w : World) (render_id : string) (cfg : Settings)
    (cand_id : string) (candidate : Candidate) (video_path : string)
    (caps : list Word) (st : RenderLoop) (aspect : string)
  : RenderLoop * option Py.exn :=
  let st1 :=
    {| rendered_files := rendered_files st; current := S (current st);
       files_on_disk := files_on_disk st; uploaded := uploaded st |} in
  let call :=
    {| call_video_path := video_path;
       call_output_path := output_path cand_id aspect;
       call_start_s := start_s candidate; call_end_s := end_s candidate;
       call_captions := caps; call_template := set_template cfg;
       call_aspect := aspect; call_watermark := set_watermark cfg;
       call_loudness := set_loudness cfg |} in
  match render w call with
  | Some e => (st1, Some e)
  | None =>
      match upload_to_s3 w (output_path cand_id aspect)
              (s3_key render_id cand_id aspect) with
      | inl e => (st1, Some e)
      | inr file_url =>
          let st2 :=
            {| rendered_files :=
                 <[cand_id := <[aspect := file_url]>
                                (default ∅ (rendered_files st !! cand_id))]>
                   (rendered_files st);
               current := S (current st);
               files_on_disk := files_on_disk st;
               uploaded := uploaded st ++ [s3_key render_id cand_id aspect] |} in
          (st2, os_remove w (output_path cand_id aspect))
      end
  end.

(** The captions of a candidate's segment. *)
Definition captions_of (cfg : Settings) (transcript : option Transcript)
    (candidate : Candidate) : list Word :=
  match transcript with
  | Some t =>
      if String.eqb (set_captions cfg) "on" then
        List.filter (fun wd => Qle_bool (start_s candidate) (start wd)
                          && Qle_bool (start wd) (end_s candidate)) (words t)
      else []
  | None => []
  end.

(** [db.query(Candidate).filter(Candidate.id == cand_id).first()]. *)
Definition lookup_candidate (db : DB) (cand_id : string) : option Candidate :=
  find (fun c => String.eqb (candidate_id c) cand_id) (candidates db).

(** The body of [for cand_id in candidate_ids]. *)
Definition render_candidate (w : World) (db : DB) (render_id : string)
    (cfg : Settings) (st : RenderLoop) (cand_id : string)
  : RenderLoop * option Py.exn :=
  match lookup_candidate db cand_id with
  | None => (st, None)
  | Some candidate =>
      match videos db !! candidate_video_id candidate with
      | None => (st, Some "AttributeError: id")
      | Some video =>
          let transcript :=
            find (fun t => String.eqb (transcript_video_id t)
                             (candidate_video_id candidate)) (transcripts db) in
          let video_path :=
            "/tmp/videos/" +:+ candidate_video_id candidate +:+ ".mp4" in
          let downloaded :=
            if bool_decide (video_path ∈ files_on_disk st) then None
            else download_from_s3 w (video_src_url video) video_path in
          match downloaded with
          | Some e => (st, Some e)
          | None =>
              let st0 :=
                {| rendered_files := rendered_files st; current := current st;
                   files_on_disk := {[ video_path ]} ∪ files_on_disk st;
                   uploaded := uploaded st |} in
              Py.for_each
                (render_aspect w render_id cfg cand_id candidate video_path
                   (captions_of cfg transcript candidate))
                (set_outputs cfg) st0
          end
      end
  end.

(** The [try] block after the render row is found and marked processing. *)
Definition render_body (w : World) (db : DB) (render_id : string)
    (params : RenderParams) : RenderLoop * option Py.exn :=
  let init :=
    {| rendered_files := ∅; current := 0%nat; files_on_disk := local_files w;
       uploaded := [] |} in
  match candidate_ids params with
  | None => (init, Some "KeyError: candidate_ids")
  | Some ids =>
      Py.for_each (render_candidate w db render_id (settings_of params)) ids init
  end.

Definition with_render (s : Status) (files : gmap string FilesEntry) (r : Render)
  : Render :=
  {| render_user_id := render_user_id r; render_params := render_params r;
     render_status := s; render_files := files |}.

(** What a run of the task leaves: the database, the keys it uploaded to the
    object store, and its return value or the exception it re-raised. *)
Record RenderRun : Type := {
  run_db : DB;
  run_uploaded : list string;
  run_result : Py.exn + gmap string (gmap string string)
}.

(** [render.status = 'processing'] and its commit. *)
Definition mark_processing (render_id : string) (db : DB) : DB :=
  set_renders (alter (fun r => with_render Processing (render_files r) r) render_id) db.

Definition render_clips_task (w : World) (render_id : string)
    (params : RenderParams) (db : DB) : RenderRun :=
  match renders db !! render_id with
  | None =>
      (* the handler's own [render.status = 'failed'] raises on [None] *)
      {| run_db := db; run_uploaded := []; run_result := inl "AttributeError: status" |}
  | Some _ =>
      let db1 := mark_processing render_id db in
      match render_body w db1 render_id params with
      | (st, None) =>
          {| run_db :=
               set_renders
                 (alter (with_render Completed (FOutputs <$> rendered_files st))
                    render_id) db1;
             run_uploaded := uploaded st;
             run_result := inr (rendered_files st) |}
      | (st, Some e) =>
          {| run_db :=
               set_renders
                 (alter (with_render Failed {[ "error" := FError e ]}) render_id) db1;
             run_uploaded := uploaded st;
             run_result := inl e |}
      end
  end.


(** [rendered_files[c][a]] is set. *)
Definition has_entry (files : gmap string (gmap string string)) (c a : string) : Prop :=
  exists m url, files !! c = Some m /\ m !! a = Some url.

End Renderer.

(** ** [api/jobs.py] *)

Module Jobs.
Import Models.

(** [raise HTTPException(status_code, detail)]; an exception the endpoint
    does not catch is answered with status 500. *)
Record HTTPException : Type := {
  status_code : Z;
  detail : string
}.

Definition internal_error : HTTPException :=
  {| status_code := 500; detail := "Internal Server Error" |}.

Record AnalyzeRequest : Type := {
  req_video_id : string;
  req_keywords : option (list string);
  req_targets : option (gmap string json)
}.

Record AnalyzeResponse : Type := {
  resp_job_id : string;
  resp_video_id : string;
  resp_status : Status;
  resp_message : string
}.

(** The database and the messages [analyze_video_task.delay] has enqueued. *)
Record Sys : Type := {
  db : DB;
  queue : list Analyzer.TaskArgs
}.

(** The configuration [load_config] returns when there is no [config.yaml]. *)
Definition default_config : json :=
  JObj {[
    "analysis" := JObj {[
      "clip_min_s" := JInt 7;
      "clip_max_s" := JInt 15;
      "target_s" := JInt 10;
      "candidates_per_minute" := JInt 4;
      "max_candidates" := JInt 20 ]};
    "scoring" := JObj {[
      "weights" := JObj {[
        "speech_hook" := JFloat 0.30;
        "motion" := JFloat 0.25;
        "audio_peak" := JFloat 0.20;
        "keyword_match" := JFloat 0.15;
        "scene_freshness" := JFloat 0.10 ]} ]};
    "whisper" := JObj {[
      "model" := JStr "base";
      "language" := JStr "auto" ]} ]}.

(** [load_config()], on the parsed content of [config.yaml] if the file
    exists. *)
Definition load_config (config_yaml : option json) : json :=
  default default_config config_yaml.

(** [v[key]] on a dictionary. *)
Definition json_item (v : json) (key : string) : option json :=
  m ← json_object v; m !! key.

Definition keywords_json (kws : option (list string)) : json :=
  match kws with
  | Some l => JList (JStr <$> l)
  | None => JNull
  end.

(** The [analysis_config] that [start_analysis] builds for the task. *)
Definition analysis_config (config : json) (request : AnalyzeRequest)
  : option (gmap string json) :=
  analysis ← json_item config "analysis" ≫= json_object;
  let merged :=
    match req_targets request with
    | Some targets => if bool_decide (targets = ∅) then analysis else targets ∪ analysis
    | None => analysis
    end in
  ws ← json_item config "scoring" ≫= (fun sc => json_item sc "weights");
  whisper ← json_item config "whisper";
  model ← json_item whisper "model";
  wm ← json_object whisper;
  Some (<["language" := default (JStr "auto") (wm !! "language")]>
        (<["whisper_model" := model]>
         (<["weights" := ws]>
          (<["keywords" := keywords_json (req_keywords request)]> merged)))).

Definition active (j : Job) : bool :=
  bool_decide (job_status j = Pending) || bool_decide (job_status j = Processing).

(** [POST /jobs/analyze]; [new_id] is the primary key drawn for the job. *)
Definition start_analysis (config_yaml : option json) (new_id : string)
    (request : AnalyzeRequest) (current_user : string) (s : Sys)
  : (HTTPException + AnalyzeResponse) * Sys :=
  match videos (db s) !! req_video_id request with
  | Some video =>
      if negb (String.eqb (video_user_id video) current_user) then
        (inl {| status_code := 404; detail := "Video not found" |}, s)
      else if existsb (fun kj => String.eqb (job_video_id (snd kj)) (req_video_id request)
                                 && bool_decide (job_type (snd kj) = Analyze)
                                 && active (snd kj))
                (map_to_list (jobs (db s))) then
        (inl {| status_code := 409;
                detail := "Analysis already in progress for this video" |}, s)
      else
        match analysis_config (load_config config_yaml) request with
        | None => (inl internal_error, s)
        | Some cfg =>
            let job :=
              {| job_video_id := req_video_id request; job_type := Analyze;
                 job_status := Pending; job_progress := 0; job_logs := ∅ |} in
            (inr {| resp_job_id := new_id; resp_video_id := req_video_id request;
                    resp_status := Pending;
                    resp_message :=
                      "Analysis job started. This typically takes 2-5 minutes." |},
             {| db := set_jobs (insert new_id job) (db s);
                queue := queue s ++
                  [{| Analyzer.arg_job_id := new_id;
                      Analyzer.arg_video_id := req_video_id request;
                      Analyzer.arg_config := JObj cfg |}] |})
        end
  | None => (inl {| status_code := 404; detail := "Video not found" |}, s)
  end.

(** The ownership check shared by the endpoints below. *)
Definition owns (d : DB) (current_user : string) (j : Job) : bool :=
  match videos d !! job_video_id j with
  | Some video => String.eqb (video_user_id video) current_user
  | None => false
  end.

(** [DELETE /jobs/{job_id}]. *)
Definition cancel_job (job_id current_user : string) (d : DB)
  : (HTTPException + unit) * DB :=
  match jobs d !! job_id with
  | None => (inl {| status_code := 404; detail := "Job not found" |}, d)
  | Some job =>
      if negb (owns d current_user job) then
        (inl {| status_code := 403; detail := "Access denied" |}, d)
      else if negb (active job) then
        (inl {| status_code := 400;
                detail := "Cannot cancel job with status: "
                          +:+ status_name (job_status job) |}, d)
      else
        let logs :=
          <["message" := JStr "Job cancelled by user"]>
            (<["cancelled_by" := JStr "user"]> (job_logs job)) in
        (inr tt, set_jobs (insert job_id (with_logs logs (with_status Cancelled job))) d)
  end.

(** [POST /jobs/{job_id}/retry]. *)
Definition retry_job (config_yaml : option json) (new_id : string)
    (job_id current_user : string) (s : Sys)
  : (HTTPException + AnalyzeResponse) * Sys :=
  match jobs (db s) !! job_id with
  | None => (inl {| status_code := 404; detail := "Job not found" |}, s)
  | Some original_job =>
      if negb (owns (db s) current_user original_job) then
        (inl {| status_code := 403; detail := "Access denied" |}, s)
      else if negb (bool_decide (job_status original_job = Failed)) then
        (inl {| status_code := 400;
                detail := "Cannot retry job with status: "
                          +:+ status_name (job_status original_job) |}, s)
      else
        let new_job :=
          {| job_video_id := job_video_id original_job;
             job_type := job_type original_job;
             job_status := Pending; job_progress := 0;
             job_logs := {[ "retried_from" := JStr job_id ]} |} in
        let config :=
          default (load_config config_yaml) (job_logs original_job !! "config") in
        (inr {| resp_job_id := new_id; resp_video_id := job_video_id original_job;
                resp_status := Pending; resp_message := "Job retried" |},
         {| db := set_jobs (insert new_id new_job) (db s);
            queue :=
              if bool_decide (job_type original_job = Analyze) then
                queue s ++
                  [{| Analyzer.arg_job_id := new_id;
                      Analyzer.arg_video_id := job_video_id original_job;
                      Analyzer.arg_config := config |}]
              else queue s |})
  end.

End Jobs.

(** ** The worker and the API on one database *)

Module Schedule.
Import Models Analyzer.

(** What can happen next to a delivered [analyze] message: the worker runs
    the task up to its next milestone, or a user calls the cancellation
    endpoint for the job. *)
Inductive Event : Type :=
| WorkerStep
| CancelRequest (current_user : string).

Definition is_worker_step (ev : Event) : bool :=
  match ev with
  | WorkerStep => true
  | CancelRequest _ => false
  end.

Definition event_step (w : Env.World) (a : TaskArgs) (st : Worker * DB)
    (ev : Event) : Worker * DB :=
  match ev with
  | WorkerStep => worker_step w a (fst st) (snd st)
  | CancelRequest current_user =>
      (fst st, snd (Jobs.cancel_job (arg_job_id a) current_user (snd st)))
  end.

Definition run_events (w : Env.World) (a : TaskArgs) (evs : list Event)
    (st : Worker * DB) : Worker * DB :=
  fold_left (event_step w a) evs st.

Definition dequeued : Worker := {| stage := Dequeued; locals := no_locals |}.

End Schedule.

(** ** The enumeration as the specification words it *)

Module Spec.
Import Analyzer.

(** "propose the interval [s_i, min(s_i + trial, s_{i+1}, duration)]" *)
Definition proposal (duration : Q) (scene : Q * Q) (trial : Q) : Q * Q :=
  (fst scene, Py.min3 (fst scene + trial) (snd scene) duration).

(** "Accept the proposal iff its length is >= clip_min_s." *)
Definition accepts (t : Targets) (i : Q * Q) : bool :=
  Qle_bool (min_duration t) (snd i - fst i).

(** "For each adjacent scene-boundary pair and for each trial duration in the
    ordered list [target_s, clip_min_s, clip_max_s]". *)
Definition spec_enumeration (t : Targets) (duration : Q) (scene_boundaries : list Q)
  : list (Q * Q) :=
  flat_map
    (fun scene =>
       List.filter (accepts t) (map (proposal duration scene) (trial_durations t)))
    (adjacent_pairs scene_boundaries).

(** The enumeration with the source's guard: a trial longer than the scene
    is skipped before anything is proposed. *)
Definition guarded_trial (t : Targets) (duration : Q) (scene : Q * Q) (trial : Q)
  : list (Q * Q) :=
  if Py.Qltb (snd scene - fst scene) trial then []
  else List.filter (accepts t) [proposal duration scene trial].

Definition guarded_enumeration (t : Targets) (duration : Q) (scene_boundaries : list Q)
  : list (Q * Q) :=
  flat_map (fun scene => flat_map (guarded_trial t duration scene) (trial_durations t))
    (adjacent_pairs scene_boundaries).

End Spec.

(** ** Concrete runs *)

Module Scenario.
Import Models Env.

(** A thirty-second video at 24 frames per second with no scene cut, and a
    world in which every external call succeeds. *)
Definition still_frames : list hist := repeat [1; 0] 720.

Definition calm : World :=
  {| s3_bucket := "anime-clips";
     s3_download_file := fun _ _ => None;
     s3_upload_file := fun _ _ => None;
     ffprobe := fun _ =>
       inr {| info_duration := 30; info_resolution := "1920x1080"; info_fps := 24 |};
     ffmpeg_extract_audio := fun _ _ => None;
     whisper_transcribe := fun _ => inr {| td_language := "en"; td_words := [] |};
     cv2_frames := fun _ => still_frames;
     motion_signal := fun _ => inr (repeat 0 30);
     audio_signal := fun _ => inr (repeat 0 30);
     ffmpeg_thumbnail := fun _ _ _ => None;
     ffmpeg_render := fun _ => None;
     os_remove := fun _ => None;
     local_files := ∅;
     uuid4 := fun n => "c" +:+ pretty n |}.

(** The same world with an object store that refuses downloads. *)
Definition offline : World :=
  {| s3_bucket := s3_bucket calm;
     s3_download_file := fun _ _ => Some "ClientError: download";
     s3_upload_file := s3_upload_file calm;
     ffprobe := ffprobe calm;
     ffmpeg_extract_audio := ffmpeg_extract_audio calm;
     whisper_transcribe := whisper_transcribe calm;
     cv2_frames := cv2_frames calm;
     motion_signal := motion_signal calm;
     audio_signal := audio_signal calm;
     ffmpeg_thumbnail := ffmpeg_thumbnail calm;
     ffmpeg_render := ffmpeg_render calm;
     os_remove := os_remove calm;
     local_files := local_files calm;
     uuid4 := uuid4 calm |}.

(** The same world with an ffmpeg that fails on the square output. *)
Definition square_fails : World :=
  {| s3_bucket := s3_bucket calm;
     s3_download_file := s3_download_file calm;
     s3_upload_file := s3_upload_file calm;
     ffprobe := ffprobe calm;
     ffmpeg_extract_audio := ffmpeg_extract_audio calm;
     whisper_transcribe := whisper_transcribe calm;
     cv2_frames := cv2_frames calm;
     motion_signal := motion_signal calm;
     audio_signal := audio_signal calm;
     ffmpeg_thumbnail := ffmpeg_thumbnail calm;
     ffmpeg_render := fun call =>
       if String.eqb (call_aspect call) "1:1" then Some "Conversion failed!" else None;
     os_remove := os_remove calm;
     local_files := local_files calm;
     uuid4 := uuid4 calm |}.

(** One uploaded video of user [alice], nothing else. *)
Definition uploaded : DB :=
  {| jobs := ∅;
     videos := {[ "v1" := {| video_user_id := "alice";
                             video_src_url := "uploads/alice/u1.mp4";
                             video_duration := None;
                             video_resolution := None |} ]};
     renders := ∅; transcripts := []; candidates := [] |}.

Definition request (kws : list string) (targets : gmap string json)
  : Jobs.AnalyzeRequest :=
  {| Jobs.req_video_id := "v1"; Jobs.req_keywords := Some kws;
     Jobs.req_targets := Some targets |}.

(** [alice] submits [v1] for analysis; the job gets the key [j1]. *)
Definition submitted (kws : list string) (targets : gmap string json) : Jobs.Sys :=
  snd (Jobs.start_analysis None "j1" (request kws targets) "alice"
         {| Jobs.db := uploaded; Jobs.queue := [] |}).

(** The message [start_analysis] enqueued. *)
Definition message (kws : list string) (targets : gmap string json)
  : Analyzer.TaskArgs :=
  List.last (Jobs.queue (submitted kws targets))
    {| Analyzer.arg_job_id := ""; Analyzer.arg_video_id := ""; Analyzer.arg_config := JNull |}.

(** An analysed video with one candidate, and a pending render of it in two
    aspects. *)
Definition two_aspects : RenderParams :=
  {| candidate_ids := Some ["c1"]; template := Some "clean";
     outputs := Some ["9:16"; "1:1"]; watermark := Some "@myanime";
     loudness := Some "-14"; captions := Some "on" |}.

Definition analysed : DB :=
  {| jobs := ∅;
     videos := {[ "v1" := {| video_user_id := "alice";
                             video_src_url := "uploads/alice/u1.mp4";
                             video_duration := Some 30;
                             video_resolution := Some "1920x1080" |} ]};
     renders := {[ "r1" := {| render_user_id := "alice";
                              render_params := two_aspects;
                              render_status := Pending;
                              render_files := ∅ |} ]};
     transcripts := [];
     candidates :=
       [{| candidate_id := "c1"; candidate_video_id := "v1";
           start_s := 0; end_s := 10; score := Py.Fin 0.1;
           features := {| speech_hook := 0; motion := Py.Fin 0;
                          audio_peak := Py.Fin 0; keyword_match := 0;
                          scene_freshness := 1 |};
           thumb_url := "s3://anime-clips/thumbnails/v1_0.jpg" |}] |}.


(** The spec's hook-detection scenario. *)
Definition hook_transcript : list Word :=
  [ {| word := "wait"; start := 0.2; end_ := 0.5; confidence := 1 |};
    {| word := "what"; start := 0.6; end_ := 1.0; confidence := 1 |};
    {| word := "is"; start := 1.1; end_ := 1.3; confidence := 1 |} ].

(** The targets the task reads when the configuration sets none. *)
Definition default_targets : Analyzer.Targets :=
  {| Analyzer.min_duration := 7; Analyzer.max_duration := 15;
     Analyzer.target_duration := 10; Analyzer.keywords := [];
     Analyzer.weights := ∅; Analyzer.max_candidates := Some 20%Z |}.

(** The targets the task reads from an [analysis_config] built from the
    default configuration and no overrides. *)
Definition submitted_targets : Analyzer.Targets :=
  {| Analyzer.min_duration := inject_Z 7; Analyzer.max_duration := inject_Z 15;
     Analyzer.target_duration := inject_Z 10; Analyzer.keywords := [];
     Analyzer.weights :=
       {[ "speech_hook" := 0.30; "motion" := 0.25; "audio_peak" := 0.20;
          "keyword_match" := 0.15; "scene_freshness" := 0.10 ]};
     Analyzer.max_candidates := Some 20%Z |}.

(** Four frames at one frame per second, with a cut at the last one. *)
Definition cut_at_last_frame : list hist := [[1; 0]; [1; 0]; [1; 0]; [0; 1]].

Definition short_clips : gmap string json := {[ "clip_min_s" := JInt 5 ]}.

(** A job is cancelled right after the worker has started it. *)
Definition cancelled_at_start : list Schedule.Event :=
  [Schedule.WorkerStep; Schedule.CancelRequest "alice"].

(** The job row of the default submission once it is cancelled. *)
Definition cancelled_job : Job :=
  {| job_video_id := "v1"; job_type := Analyze; job_status := Cancelled;
     job_progress := 0;
     job_logs := {[ "cancelled_by" := JStr "user";
                    "message" := JStr "Job cancelled by user" ]} |}.

Definition cancelled_pending : DB :=
  snd (Jobs.cancel_job "j1" "alice" (Jobs.db (submitted [] ∅))).

(** A submission with keywords and a shorter minimum, whose run fails at the
    download, and the retry of the failed job. *)
Definition failed_run : DB :=
  snd (Analyzer.analyze_video_task offline (message ["fight"] short_clips)
         (Jobs.db (submitted ["fight"] short_clips))).

Definition retried : Jobs.Sys :=
  snd (Jobs.retry_job None "j2" "j1" "alice"
         {| Jobs.db := failed_run; Jobs.queue := [] |}).

End Scenario.

(** ** Invariants of the loops and of the task *)

Module Invariants.
Import Models Env Analyzer.



(** The number of steps the task has left at a stage. *)
Definition steps_left (s : Stage) : nat :=
  match s with
  | Dequeued => 10
  | Downloading => 9
  | AnalyzingMetadata => 8
  | Transcribing => 7
  | DetectingScenes => 6
  | AnalyzingMotion => 5
  | AnalyzingAudio => 4
  | GeneratingCandidates => 3
  | CreatingThumbnails => 2
  | Completing => 1
  | Returned _ | Raised _ => 0
  end.

(** Two databases that differ at most in the content of their job rows. *)
Definition same_but_jobs (d1 d2 : DB) : Prop :=
  videos d1 = videos d2 /\ renders d1 = renders d2
  /\ transcripts d1 = transcripts d2 /\ candidates d1 = candidates d2
  /\ forall k, is_Some (jobs d1 !! k) <-> is_Some (jobs d2 !! k).

(** An update of a job row that leaves a terminal status behind. *)
Definition settles (f : Job -> Job) : Prop :=
  forall j, terminal (job_status (f j)) = true.

(** From its first milestone on the task holds a job row; it returns only
    after marking it completed, and it raises only after marking it failed. *)
Definition job_held (a : TaskArgs) (st : Worker * DB) : Prop :=
  match stage (fst st) with
  | Dequeued => True
  | Returned _ =>
      exists j, jobs (snd st) !! arg_job_id a = Some j /\ job_status j = Completed
  | Raised _ =>
      forall j, jobs (snd st) !! arg_job_id a = Some j -> job_status j = Failed
  | _ => is_Some (jobs (snd st) !! arg_job_id a)
  end.

(** [render_clips_task]: every recorded URL is the URL of an object this run
    uploaded. *)
Definition recorded_uploaded (w : World) (render_id : string)
    (st : Renderer.RenderLoop) : Prop :=
  forall c a m url,
    Renderer.rendered_files st !! c = Some m -> m !! a = Some url ->
    In (Renderer.s3_key render_id c a) (Renderer.uploaded st)
    /\ url = "s3://" +:+ s3_bucket w +:+ "/" +:+ Renderer.s3_key render_id c a.


End Invariants.

(** ** The cuts [detect_scenes] finds *)

Module Cuts.
Import Env Analyzer.

(** The frame counts at which the loop of [detect_scenes] appends a
    boundary, from the count and the previous histogram it is at: a sampled
    frame whose histogram differs from the previous sampled one by more than
    the threshold. *)
Fixpoint cut_frames_from (threshold : Q) (prev : option hist) (count : nat)
    (frames : list hist) : list nat :=
  match frames with
  | [] => []
  | frame :: rest =>
      if (count mod sample_rate =? 0)%nat then
        match prev with
        | Some p =>
            if Py.Qltb threshold (l1_distance frame p)
            then count :: cut_frames_from threshold (Some frame) (S count) rest
            else cut_frames_from threshold (Some frame) (S count) rest
        | None => cut_frames_from threshold (Some frame) (S count) rest
        end
      else cut_frames_from threshold prev (S count) rest
  end.

Definition cut_frames (frames : list hist) (threshold : Q) : list nat :=
  cut_frames_from threshold None 0 frames.

(** [timestamp = frame_count / self.fps] *)
Definition timestamp (fps : Q) (count : nat) : Q := inject_Z (Z.of_nat count) / fps.

(** The frame rate is positive and the timestamp of the cut is less than
    the duration. *)
Definition cut_before (fps duration : Q) (count : nat) : Prop :=
  0 < fps /\ timestamp fps count < duration.

End Cuts.

(** ** One trial of the enumeration in binary64 *)

Module Binary64.
Import PrimFloat Uint63.
Local Open Scope float_scope.

(** [frame_count / self.fps], with the frame count converted to a float. *)
Definition timestamp (frame_count : PrimInt63.int) (fps : float) : float :=
  of_uint63 frame_count / fps.

(** [min(a, b, c)]: the first of the smallest arguments. *)
Definition min3 (a b c : float) : float :=
  let m := if b <? a then b else a in
  if c <? m then c else m.




End Binary64.

(** ** [VideoAnalyzer.compute_motion_scores] *)

Module Motion.

(** [np.mean] of a non-empty list of floats. *)
Definition mean (l : list Q) : Q := Py.Qsum l / inject_Z (Z.of_nat (length l)).

(** [np.array(l).max()]; an empty array has no maximum. *)
Definition array_max (l : list Q) : option Q :=
  match l with
  | [] => None
  | x :: rest => Some (fold_left Py.max2 rest x)
  end.

(** The default of the parameter [sample_rate], which the task uses. *)
Definition sample_rate : nat := 5.

Section Frames.
(** A sampled frame, by its 320x180 grayscale image, and
    [np.mean(cv2.absdiff(gray, prev_gray))] of two of them. *)
Variable gray : Type.
Variable mean_absdiff : gray -> gray -> Q.

Record MotionLoop : Type := {
  motion_scores : list Q;
  prev_gray : option gray;
  frame_count : nat;
  current_second : Z;
  second_diffs : list Q
}.

(** One turn of the [while] loop, on a frame that was read. *)
Definition motion_frame (fps : Q) (s : MotionLoop) (frame : gray)
  : MotionLoop * option Py.exn :=
  if (frame_count s mod sample_rate =? 0)%nat then
    match prev_gray s with
    | Some p =>
        let motion := mean_absdiff frame p in
        if Qeq_bool fps 0 then (s, Some "float division by zero")
        else
          let second := Py.int_of (inject_Z (Z.of_nat (frame_count s)) / fps) in
          if (current_second s <? second)%Z then
            ({| motion_scores :=
                  motion_scores s
                    ++ [match second_diffs s with [] => 0 | l => mean l end];
                prev_gray := Some frame;
                frame_count := S (frame_count s);
                current_second := second;
                second_diffs := [motion] |}, None)
          else
            ({| motion_scores := motion_scores s;
                prev_gray := Some frame;
                frame_count := S (frame_count s);
                current_second := current_second s;
                second_diffs := second_diffs s ++ [motion] |}, None)
    | None =>
        ({| motion_scores := motion_scores s;
            prev_gray := Some frame;
            frame_count := S (frame_count s);
            current_second := current_second s;
            second_diffs := second_diffs s |}, None)
    end
  else
    ({| motion_scores := motion_scores s;
        prev_gray := prev_gray s;
        frame_count := S (frame_count s);
        current_second := current_second s;
        second_diffs := second_diffs s |}, None).

Definition motion_init : MotionLoop :=
  {| motion_scores := []; prev_gray := None; frame_count := 0;
     current_second := 0; second_diffs := [] |}.

(** The scores when the loop is left: the last second is added. *)
Definition final_scores (s : MotionLoop) : list Q :=
  match second_diffs s with
  | [] => motion_scores s
  | l => motion_scores s ++ [mean l]
  end.

(** "Normalize to 0-1". *)
Definition normalize (scores : list Q) : Py.exn + list Q :=
  match array_max scores with
  | None =>
      inl "zero-size array to reduction operation maximum which has no identity"
  | Some m =>
      if Py.Qltb 0 m then inr (map (fun x => x / m) scores) else inr scores
  end.

Definition compute_motion_scores (fps : Q) (frames : list gray) : Py.exn + list Q :=
  match Py.for_each (motion_frame fps) frames motion_init with
  | (_, Some e) => inl e
  | (s, None) => normalize (final_scores s)
  end.

End Frames.

Arguments motion_scores {gray} _.
Arguments prev_gray {gray} _.
Arguments frame_count {gray} _.
Arguments current_second {gray} _.
Arguments second_diffs {gray} _.
Arguments motion_init {gray}.
Arguments final_scores {gray} _.

End Motion.

(** ** [VideoAnalyzer.compute_audio_peaks] *)

Module Subprocess.

(** The special values of the [stdout] and [stderr] arguments. *)
Inductive stream : Type :=
| PIPE
| STDOUT
| DEVNULL.

(** The keyword arguments of [subprocess.run] that decide what is captured;
    [None] is Python's [None], the default. *)
Record RunArgs : Type := {
  capture_output : bool;
  stdout : option stream;
  stderr : option stream
}.

(** [x is not None]. *)
Definition given (x : option stream) : bool :=
  match x with
  | Some _ => true
  | None => false
  end.

Definition piped (x : option stream) : bool :=
  match x with
  | Some PIPE => true
  | _ => false
  end.

(** [subprocess.run(cmd, ...).stdout]: the arguments are checked before the
    process is started; [popen cmd] is the text the process writes to its
    standard output, which the result holds when it was piped. *)
Definition run (popen : list string -> string) (cmd : list string) (args : RunArgs)
  : Py.exn + option string :=
  if capture_output args && (given (stdout args) || given (stderr args))
  then inl "stdout and stderr arguments may not be used with capture_output."
  else if capture_output args || piped (stdout args)
  then inr (Some (popen cmd))
  else inr None.

End Subprocess.

Module Audio.

(** [s.split(sep)] for a one-character [sep]. *)
Fixpoint split (sep : ascii) (s : string) : list string :=
  match s with
  | EmptyString => [EmptyString]
  | String c s' =>
      if Ascii.eqb c sep then EmptyString :: split sep s'
      else
        match split sep s' with
        | part :: parts => String c part :: parts
        | [] => [String c EmptyString]
        end
  end.

Definition rms_key : string := "lavfi.astats.Overall.RMS_level".

Definition astats_cmd (audio_path : string) : list string :=
  ["ffmpeg"; "-i"; audio_path; "-af";
   "astats=metadata=1:reset=1,ametadata=print:key=lavfi.astats.Overall.RMS_level:file=-";
   "-f"; "null"; "-"].

Section Peaks.
(** The text ffmpeg writes, and [float(s)] where it is a number ([None]
    where it raises). *)
Variable popen : list string -> string.
Variable float_of : string -> option Q.

(** One turn of the loop over the lines of the output. *)
Definition rms_line (rms_values : list Q) (line : string) : list Q :=
  if Py.contains rms_key line then
    match float_of (List.last (split "=" line) EmptyString) with
    | Some value => rms_values ++ [Qabs value]
    | None => rms_values
    end
  else rms_values.

(** The score of the [i]-th second. *)
Definition audio_second (rms_values : list Q) (fps : Q) (i : nat) : Q :=
  let start_idx := Py.int_of (inject_Z (Z.of_nat i) * fps) in
  let end_idx := Py.int_of ((inject_Z (Z.of_nat i) + 1) * fps) in
  match Py.slice rms_values start_idx (Some end_idx) with
  | [] => 0
  | second_values => Motion.mean second_values
  end.

Definition compute_audio_peaks (duration : Q) (audio_path : string)
  : Py.exn + list Q :=
  match Subprocess.run popen (astats_cmd audio_path)
          {| Subprocess.capture_output := true;
             Subprocess.stdout := None;
             Subprocess.stderr := Some Subprocess.STDOUT |} with
  | inl e => inl e
  | inr None => inl "AttributeError: split"
  | inr (Some out) =>
      let rms_values := fold_left rms_line (split (ascii_of_nat 10) out) [] in
      let fps :=
        if Py.Qltb 0 duration
        then inject_Z (Z.of_nat (length rms_values)) / duration
        else 1 in
      Motion.normalize
        (map (audio_second rms_values fps) (seq 0 (Z.to_nat (Py.int_of duration))))
  end.

End Peaks.

End Audio.

(** ** [TemplateRenderer] of [workers/renderer.py] *)

Module Template.
Import Models.

(** [s.replace(c, by)] for a one-character [c]. *)
Fixpoint replace_char (c : ascii) (by_ : string) (s : string) : string :=
  match s with
  | EmptyString => EmptyString
  | String x s' =>
      if Ascii.eqb x c then by_ +:+ replace_char c by_ s'
      else String x (replace_char c by_ s')
  end.

(** [cap['word'].replace("'", "\\'").replace(":", "\\:")]. *)
Definition escape (text : string) : string :=
  replace_char ":" "\:" (replace_char "'" "\'" text).

(** [c.isupper()], on ASCII letters. *)
Definition isupper (c : ascii) : bool :=
  let n := nat_of_ascii c in (65 <=? n)%nat && (n <=? 90)%nat.

Definition fontfile : string :=
  "fontfile=/usr/share/fonts/truetype/dejavu/DejaVuSans-Bold.ttf:".

Section Renderer.
(** [str(x)] of a float. *)
Variable str_float : Q -> string.
(** [self.watermark] and [self.loudness]. *)
Variables watermark loudness : string.
Variables video_path output_path : string.

(** [enable='between(t,{enable_start},{enable_end})'], with the timing
    relative to the clip's start. *)
Definition enable (start : Q) (cap : Word) : string :=
  "enable='between(t," +:+ str_float (Models.start cap - start) +:+ ","
  +:+ str_float (end_ cap - start) +:+ ")'".

Definition clean_part (y : Z) (start : Q) (cap : Word) : string :=
  "drawtext=text='" +:+ escape (word cap) +:+ "':" +:+ fontfile
  +:+ "fontsize=48:fontcolor=white:" +:+ "borderw=3:bordercolor=black:"
  +:+ "x=(w-text_w)/2:y=" +:+ pretty y +:+ ":"
  +:+ "shadowcolor=black@0.5:shadowx=2:shadowy=2:" +:+ enable start cap.

Definition manga_part (y : Z) (start : Q) (cap : Word) : string :=
  "drawtext=text='" +:+ escape (word cap) +:+ "':" +:+ fontfile
  +:+ "fontsize=56:fontcolor=yellow:" +:+ "borderw=4:bordercolor=black:"
  +:+ "x=(w-text_w)/2:y=" +:+ pretty y +:+ ":"
  +:+ "shadowcolor=black@0.8:shadowx=3:shadowy=3:" +:+ enable start cap.

Definition impact_part (y : Z) (start : Q) (ic : nat * Word) : string :=
  let '(i, cap) := ic in
  let is_emphasized :=
    match word cap with
    | String c _ => isupper c
    | EmptyString => false
    end in
  let fontsize := if is_emphasized then 60%Z else 50%Z in
  let fontcolor := if is_emphasized then "red" else "white" in
  "drawtext=text='" +:+ escape (word cap) +:+ "':" +:+ fontfile
  +:+ "fontsize=" +:+ pretty fontsize +:+ ":fontcolor=" +:+ fontcolor +:+ ":"
  +:+ "borderw=4:bordercolor=black:"
  +:+ "x=(w-text_w)/2:y=" +:+ pretty (y - Z.of_nat i * 10)%Z +:+ ":"
  +:+ "shadowcolor=black@0.7:shadowx=3:shadowy=3:" +:+ enable start cap.

Definition karaoke_base (y : Z) (captions : list Word) : string :=
  "drawtext=text='" +:+ escape (String.concat " " (map word captions)) +:+ "':"
  +:+ fontfile +:+ "fontsize=48:fontcolor=gray:" +:+ "borderw=3:bordercolor=black:"
  +:+ "x=(w-text_w)/2:y=" +:+ pretty y +:+ ":"
  +:+ "shadowcolor=black@0.5:shadowx=2:shadowy=2".

Definition karaoke_part (y : Z) (start : Q) (cap : Word) : string :=
  "drawtext=text='" +:+ escape (word cap) +:+ "':" +:+ fontfile
  +:+ "fontsize=48:fontcolor=yellow:" +:+ "borderw=3:bordercolor=black:"
  +:+ "x=(w-text_w)/2:y=" +:+ pretty y +:+ ":"
  +:+ "shadowcolor=black@0.5:shadowx=2:shadowy=2:" +:+ enable start cap.

(** The list [filters] of each [_build_*_captions], before it is joined. *)
Definition caption_parts (captions : list Word) (template : string) (y : Z)
    (start : Q) : option (list string) :=
  if String.eqb template "clean" then Some (map (clean_part y start) captions)
  else if String.eqb template "manga" then Some (map (manga_part y start) captions)
  else if String.eqb template "impact" then
    Some (map (impact_part y start) (Py.enumerate captions))
  else if String.eqb template "karaoke" then
    Some (karaoke_base y captions :: map (karaoke_part y start) captions)
  else None.

(** The safe zone of an aspect; every aspect but the first two is taken for
    4:5. *)
Definition safe_y (aspect : string) : Z :=
  if String.eqb aspect "9:16" then (1920 - 300)%Z
  else if String.eqb aspect "1:1" then (1080 - 200)%Z
  else (1350 - 250)%Z.

Definition build_caption_filter (captions : list Word) (template aspect : string)
    (video_start : Q) : string :=
  match captions with
  | [] => EmptyString
  | _ =>
      match caption_parts captions template (safe_y aspect) video_start with
      | Some filters => String.concat "," filters
      | None => EmptyString
      end
  end.

(** The scaling and cropping filter of an aspect. *)
Definition scale_filter (aspect : string) : option string :=
  if String.eqb aspect "9:16" then
    Some "[0:v]scale=1080:1920:force_original_aspect_ratio=increase,crop=1080:1920"
  else if String.eqb aspect "1:1" then
    Some "[0:v]scale=1080:1080:force_original_aspect_ratio=increase,crop=1080:1080"
  else if String.eqb aspect "4:5" then
    Some "[0:v]scale=1080:1350:force_original_aspect_ratio=increase,crop=1080:1350"
  else None.

Definition zoompan : string :=
  ",zoompan=z='min(zoom+0.0005,1.05)':d=1:x='iw/2-(iw/zoom/2)':y='ih/2-(ih/zoom/2)':s=1080x1920".

Definition watermark_filter : string :=
  "drawtext=text='" +:+ watermark +:+ "':" +:+ "fontsize=24:fontcolor=white@0.6:"
  +:+ "x=20:y=20:shadowcolor=black@0.5:shadowx=2:shadowy=2".

Definition audio_filter : string :=
  "[0:a]loudnorm=I=" +:+ loudness +:+ ":TP=-1:LRA=11,"
  +:+ "aformat=sample_rates=48000[a]".

(** The video chain of the filter graph. *)
Definition video_filter (scaled : string) (captions : list Word)
    (template aspect : string) (start_s : Q) : string :=
  let zoomed := if String.eqb template "manga" then scaled +:+ zoompan else scaled in
  let marked := zoomed +:+ "," +:+ watermark_filter in
  let caption_filter := build_caption_filter captions template aspect start_s in
  let captioned :=
    match caption_filter with
    | EmptyString => marked
    | _ => marked +:+ "," +:+ caption_filter
    end in
  captioned +:+ "[v]".

(** [build_ffmpeg_command]; with no scaling filter in the list,
    [filters[-1]] raises [IndexError]. *)
Definition build_ffmpeg_command (start_s end_s : Q) (captions : list Word)
    (template aspect : string) : Py.exn + list string :=
  match scale_filter aspect with
  | None => inl "list index out of range"
  | Some scaled =>
      inr (["ffmpeg"; "-ss"; str_float start_s; "-i"; video_path;
            "-t"; str_float (end_s - start_s)]
           ++ ["-filter_complex";
               String.concat ";"
                 [video_filter scaled captions template aspect start_s; audio_filter]]
           ++ ["-map"; "[v]"; "-map"; "[a]"]
           ++ ["-c:v"; "libx264"; "-preset"; "fast"; "-crf"; "23";
               "-profile:v"; "high"; "-pix_fmt"; "yuv420p";
               "-movflags"; "+faststart"; "-c:a"; "aac"; "-b:a"; "128k";
               "-y"; output_path])
  end.

End Renderer.

End Template.

(** ** [api/renderer.py] *)

Module Renders.
Import Models.
Import Jobs (HTTPException, status_code, detail).

(** The body of [POST /renders].  [watermark], [loudness] and [captions] are
    strings; a request that sends [null] for one of them is outside the
    model. *)
Record RenderRequest : Type := {
  req_candidate_ids : list string;
  req_template : string;
  req_outputs : list string;
  req_watermark : string;
  req_loudness : string;
  req_captions : string
}.

Record RenderResponse : Type := {
  resp_render_id : string;
  resp_status : Status;
  resp_message : string
}.

(** The database and the messages [render_clips_task.delay] has enqueued. *)
Record Sys : Type := {
  db : DB;
  queue : list (string * RenderParams)
}.

(** [config['render']['templates']] of the configuration [load_config]
    returns when there is no [config.yaml]. *)
Definition default_templates : list string := ["clean"; "manga"; "impact"; "karaoke"].

(** [load_config()['render']['templates']], on the list of template names of
    [config.yaml] if the file exists. *)
Definition load_templates (config_yaml : option (list string)) : list string :=
  default default_templates config_yaml.

Definition valid_outputs : list string := ["9:16"; "1:1"; "4:5"].

Definition MAX_CONCURRENT : nat := 3.

(** [Render.user_id == current_user.id] and
    [Render.status.in_(['pending', 'processing'])]. *)
Definition active_render (current_user : string) (kr : string * Render) : Prop :=
  render_user_id (snd kr) = current_user
  /\ (render_status (snd kr) = Pending \/ render_status (snd kr) = Processing).

#[global] Instance active_render_dec u kr : Decision (active_render u kr).
Proof. unfold active_render. apply _. Defined.

(** The [count()] of the user's pending and processing renders. *)
Definition active_renders (current_user : string) (d : DB) : nat :=
  size (filter (active_render current_user) (renders d)).

(** [Candidate.id.in_(request.candidate_ids)]. *)
Definition requested (ids : list string) (c : Candidate) : bool :=
  bool_decide (candidate_id c ∈ ids).

(** The video of the candidate exists and belongs to the user. *)
Definition owned (d : DB) (current_user : string) (c : Candidate) : bool :=
  match videos d !! candidate_video_id c with
  | Some video => String.eqb (video_user_id video) current_user
  | None => false
  end.

Definition params_of (request : RenderRequest) : RenderParams :=
  {| candidate_ids := Some (req_candidate_ids request);
     template := Some (req_template request);
     outputs := Some (req_outputs request);
     watermark := Some (req_watermark request);
     loudness := Some (req_loudness request);
     captions := Some (req_captions request) |}.

(** [POST /renders]; [new_id] is the primary key drawn for the render. *)
Definition create_render (config_yaml : option (list string)) (new_id : string)
    (request : RenderRequest) (current_user : string) (s : Sys)
  : (HTTPException + RenderResponse) * Sys :=
  let templates := load_templates config_yaml in
  match req_candidate_ids request with
  | [] =>
      (inl {| status_code := 400;
              detail := "At least one candidate must be selected" |}, s)
  | _ =>
      if negb (bool_decide (req_template request ∈ templates)) then
        (inl {| status_code := 400;
                detail := "Invalid template. Must be one of: "
                          +:+ String.concat ", " templates |}, s)
      else if negb (forallb (fun output => bool_decide (output ∈ valid_outputs))
                      (req_outputs request)) then
        (inl {| status_code := 400;
                detail := "Invalid output format. Must be one of: "
                          +:+ String.concat ", " valid_outputs |}, s)
      else
        let found :=
          List.filter (requested (req_candidate_ids request)) (candidates (db s)) in
        if negb (length found =? length (req_candidate_ids request))%nat then
          (inl {| status_code := 404;
                  detail := "One or more candidates not found" |}, s)
        else
          match find (fun c => negb (owned (db s) current_user c)) found with
          | Some candidate =>
              (inl {| status_code := 403;
                      detail := "Access denied for candidate "
                                +:+ candidate_id candidate |}, s)
          | None =>
              if (MAX_CONCURRENT <=? active_renders current_user (db s))%nat then
                (inl {| status_code := 429;
                        detail := "Maximum " +:+ pretty MAX_CONCURRENT
                                  +:+ " concurrent renders allowed" |}, s)
              else
                let render :=
                  {| render_user_id := current_user;
                     render_params := params_of request;
                     render_status := Pending;
                     render_files := ∅ |} in
                (inr {| resp_render_id := new_id; resp_status := Pending;
                        resp_message :=
                          "Render job started for "
                          +:+ pretty (length (req_candidate_ids request))
                          +:+ " clips" |},
                 {| db := set_renders (insert new_id render) (db s);
                    queue := queue s ++ [(new_id, params_of request)] |})
          end
  end.

(** The loop of [batch_render]: the result of each request, or the
    [HTTPException] it raised; [uuid4 i] is the key drawn for the [i]-th
    request. *)
Fixpoint batch_loop (config_yaml : option (list string)) (uuid4 : nat -> string)
    (current_user : string) (i : nat) (requests : list RenderRequest) (s : Sys)
  : list (HTTPException + RenderResponse) * Sys :=
  match requests with
  | [] => ([], s)
  | request :: rest =>
      let '(result, s1) := create_render config_yaml (uuid4 i) request current_user s in
      let '(results, s2) := batch_loop config_yaml uuid4 current_user (S i) rest s1 in
      (result :: results, s2)
  end.

(** [POST /renders/batch]. *)
Definition batch_render (config_yaml : option (list string)) (uuid4 : nat -> string)
    (requests : list RenderRequest) (current_user : string) (s : Sys)
  : (HTTPException + list (HTTPException + RenderResponse)) * Sys :=
  if (5 <? length requests)%nat then
    (inl {| status_code := 400;
            detail := "Maximum 5 batch renders allowed per request" |}, s)
  else if (MAX_CONCURRENT <? active_renders current_user (db s) + length requests)%nat then
    (inl {| status_code := 429;
            detail := "Would exceed maximum " +:+ pretty MAX_CONCURRENT
                      +:+ " concurrent renders" |}, s)
  else
    let '(results, s') := batch_loop config_yaml uuid4 current_user 0 requests s in
    (inr results, s').

(** [db.query(Render).filter(Render.id == render_id,
    Render.user_id == current_user.id).first()]. *)
Definition own_render (d : DB) (render_id current_user : string) : option Render :=
  match renders d !! render_id with
  | Some render =>
      if String.eqb (render_user_id render) current_user then Some render else None
  | None => None
  end.

Definition not_found : HTTPException :=
  {| status_code := 404; detail := "Render not found" |}.

(** [DELETE /renders/{render_id}]: the row is deleted, the objects in the
    store are left. *)
Definition delete_render (render_id current_user : string) (d : DB)
  : (HTTPException + unit) * DB :=
  match own_render d render_id current_user with
  | None => (inl not_found, d)
  | Some _ => (inr tt, set_renders (delete render_id) d)
  end.

(** [GET /renders/{render_id}/download/{candidate_id}/{format}]: the URL
    [render.files[candidate_id][format]]. *)
Definition download_render (render_id candidate_id format current_user : string)
    (d : DB) : HTTPException + string :=
  match own_render d render_id current_user with
  | None => inl not_found
  | Some render =>
      if negb (bool_decide (render_status render = Completed)) then
        inl {| status_code := 400;
               detail := "Render not completed (status: "
                         +:+ status_name (render_status render) +:+ ")" |}
      else
        let missing :=
          {| status_code := 404;
             detail := "File not found for candidate " +:+ candidate_id
                       +:+ " in format " +:+ format |} in
        match render_files render !! candidate_id with
        | None => inl missing
        | Some (FOutputs urls) =>
            match urls !! format with
            | Some file_url => inr file_url
            | None => inl missing
            end
        | Some (FError _) =>
            (* indexing a string with a string raises [TypeError] *)
            inl Jobs.internal_error
        end
  end.

End Renders.

(** ** [services/s3_service.py] *)

Module S3.

(** [s.replace(old, '')] for a non-empty [old]: the occurrences of [old] are
    removed from left to right; [skip] characters of the occurrence found
    last are still to be dropped. *)
Fixpoint remove_from (old : string) (skip : nat) (s : string) : string :=
  match s with
  | EmptyString => EmptyString
  | String c s' =>
      match skip with
      | S k => remove_from old k s'
      | O =>
          if String.prefix old s then remove_from old (String.length old - 1) s'
          else String c (remove_from old 0 s')
      end
  end.

Definition remove (old s : string) : string := remove_from old 0 s.

(** [s.split(sep, 1)]: the part before the first [sep], and the rest if
    there is a [sep]. *)
Fixpoint split_once (sep : ascii) (s : string) : string * option string :=
  match s with
  | EmptyString => (EmptyString, None)
  | String c s' =>
      if Ascii.eqb c sep then (EmptyString, Some s')
      else let '(a, b) := split_once sep s' in (String c a, b)
  end.

(** The bucket and the key [download_from_s3] and [delete_from_s3] read from
    their argument. *)
Definition parse_s3_url (S3_BUCKET s3_url : string) : string * string :=
  if String.prefix "s3://" s3_url then
    let parts := split_once "/" (remove "s3://" s3_url) in
    (fst parts, default EmptyString (snd parts))
  else (S3_BUCKET, s3_url).

End S3.

(** ** [api/vidoes.py] *)

Module Videos.
Import Models.
Import Jobs (HTTPException, status_code, detail).

Record UploadInit : Type := {
  filename : string;
  filesize : Z;
  content_type : string
}.

Record UploadInitResponse : Type := {
  upload_url : string;
  upload_id : string;
  expires_in : Z
}.

Definition MAX_SIZE : Z := 2 * 1024 * 1024 * 1024.

Definition allowed_types : list string :=
  ["video/mp4"; "video/x-matroska"; "video/avi"; "video/quicktime"; "video/x-msvideo"].

(** [ext_map.get(content_type, 'mp4')]. *)
Definition ext_of (content_type : string) : string :=
  if String.eqb content_type "video/mp4" then "mp4"
  else if String.eqb content_type "video/x-matroska" then "mkv"
  else if String.eqb content_type "video/avi" then "avi"
  else if String.eqb content_type "video/quicktime" then "mov"
  else if String.eqb content_type "video/x-msvideo" then "avi"
  else "mp4".

(** The key the upload is signed for. *)
Definition upload_key (user_id upload_id content_type : string) : string :=
  "uploads/" +:+ user_id +:+ "/" +:+ upload_id +:+ "." +:+ ext_of content_type.

(** [POST /uploads/init]; [presign key content_type] is the URL
    [generate_signed_upload_url] returns, or the [ClientError] it raises;
    [new_id] is the [uuid4] drawn. *)
Definition initialize_upload (presign : string -> string -> Py.exn + string)
    (new_id : string) (upload_data : UploadInit) (current_user : string)
  : HTTPException + UploadInitResponse :=
  if (MAX_SIZE <? filesize upload_data)%Z then
    inl {| status_code := 400; detail := "File size exceeds maximum of 2.0GB" |}
  else if negb (bool_decide (content_type upload_data ∈ allowed_types)) then
    inl {| status_code := 400;
           detail := "Unsupported content type. Allowed: "
                     +:+ String.concat ", " allowed_types |}
  else
    match presign (upload_key current_user new_id (content_type upload_data))
            (content_type upload_data) with
    | inl _ => inl Jobs.internal_error
    | inr signed_url =>
        inr {| upload_url := signed_url; upload_id := new_id; expires_in := 3600 |}
    end.

(** The [src_url] that [create_video] records for an upload. *)
Definition source_url (user_id upload_id : string) : string :=
  "s3://anime-clips/uploads/" +:+ user_id +:+ "/" +:+ upload_id +:+ ".mp4".

(** [POST /videos], on the rows of the model; [new_id] is the primary key
    drawn for the video. *)
Definition create_video (new_id upload_id current_user : string) (d : DB) : DB :=
  set_videos
    (insert new_id
       {| video_user_id := current_user;
          video_src_url := source_url current_user upload_id;
          video_duration := None;
          video_resolution := None |}) d.

End Videos.

(** ** What the properties below speak of *)

Module Scoring.
Import Models Analyzer.

(** The words that can add to the hook score of [[a, b]]. *)
Definition in_hook_window (a b : Q) (w : Word) : bool :=
  Qle_bool a (start w) && Qle_bool (start w) b && Qle_bool (start w) (a + 2.5).

(** No word of the transcript starts inside [[a, b]]. *)
Definition silent (ws : list Word) (a b : Q) : Prop :=
  Forall (fun w => start w < a \/ b < start w) ws.

Definition in_unit (x : Q) : Prop := 0 <= x /\ x <= 1.

(** [weights.get(key, default)] of the five axes, summed. *)
Definition total_weight (wts : gmap string Q) : Q :=
  default 0.30 (wts !! "speech_hook") + default 0.25 (wts !! "motion")
  + default 0.20 (wts !! "audio_peak") + default 0.15 (wts !! "keyword_match")
  + default 0.10 (wts !! "scene_freshness").

Definition nonneg_weights (wts : gmap string Q) : Prop :=
  0 <= default 0.30 (wts !! "speech_hook") /\ 0 <= default 0.25 (wts !! "motion")
  /\ 0 <= default 0.20 (wts !! "audio_peak") /\ 0 <= default 0.15 (wts !! "keyword_match")
  /\ 0 <= default 0.10 (wts !! "scene_freshness").

(** Each candidate's freshness is that of its interval against the
    intervals of the candidates before it. *)
Definition fresh_in_order (cs : list Cand) : Prop :=
  forall k c, nth_error cs k = Some c ->
    scene_freshness (c_features c)
    = freshness (c_start_s c) (c_end_s c) (intervals (firstn k cs)).

Definition gen_inv (st : GenState) : Prop :=
  existing_segments st = intervals (gen_candidates st)
  /\ fresh_in_order (gen_candidates st).

(** [d] does not score higher than [c]; both scores are numbers. *)
Definition not_below (c d : Cand) : Prop :=
  match c_score c, c_score d with
  | Py.Fin x, Py.Fin y => y <= x
  | _, _ => False
  end.

Definition finite_score (c : Cand) : Prop := exists q, c_score c = Py.Fin q.

(** [l[:n]] spelled out on the three kinds of bound. *)
Definition keep_top {A} (bound : option Z) (l : list A) : list A :=
  match bound with
  | None => l
  | Some n =>
      if (n <? 0)%Z then firstn (length l - Z.to_nat (- n)) l
      else firstn (Z.to_nat n) l
  end.

End Scoring.

Module Outcome.
Import Models Env Analyzer.

(** The row the thumbnail loop adds for the [idx]-th top candidate. *)
Definition row_of (w : World) (a : TaskArgs) (ic : nat * Cand) : Candidate :=
  {| candidate_id := uuid4 w (fst ic);
     candidate_video_id := arg_video_id a;
     start_s := c_start_s (snd ic); end_s := c_end_s (snd ic);
     score := c_score (snd ic); features := c_features (snd ic);
     thumb_url :=
       "s3://" +:+ s3_bucket w +:+ "/" +:+ thumb_key (arg_video_id a) (fst ic) |}.

(** The transcript row of the task is the last one. *)
Definition transcribed (a : TaskArgs) (l : Locals) (db0 db : DB) : Prop :=
  exists language,
    transcripts db
    = transcripts db0 ++ [{| transcript_video_id := arg_video_id a; lang := language;
                             words := transcript_words l |}].

(** One candidate row for each top candidate, in order. *)
Definition persisted (w : World) (a : TaskArgs) (l : Locals) (db0 db : DB) : Prop :=
  candidates db
  = candidates db0 ++ map (row_of w a) (Py.enumerate (top_candidates l)).

(** The job row after the task's last commit, and after its handler. *)
Definition completed_with (n : nat) (j : Job) : Prop :=
  job_status j = Completed /\ job_progress j = 100%Z
  /\ job_logs j = {[ "candidates_generated" := JInt (Z.of_nat n) ]}.

Definition failed_with (e : Py.exn) (j : Job) : Prop :=
  job_status j = Failed /\ job_logs j = {[ "error" := JStr e ]}.

(** What the database holds at each milestone of a run that started on
    [db0]. *)
Definition outcome_inv (w : World) (a : TaskArgs) (db0 : DB) (st : Worker * DB) : Prop :=
  let l := locals (fst st) in
  let db := snd st in
  let held := is_Some (jobs db !! arg_job_id a) in
  match stage (fst st) with
  | Dequeued => db = db0
  | Downloading | AnalyzingMetadata | Transcribing =>
      held /\ candidates db = candidates db0 /\ transcripts db = transcripts db0
  | DetectingScenes | AnalyzingMotion | AnalyzingAudio | GeneratingCandidates
  | CreatingThumbnails =>
      held /\ candidates db = candidates db0 /\ transcribed a l db0 db
  | Completing => held /\ persisted w a l db0 db /\ transcribed a l db0 db
  | Returned n =>
      n = length (top_candidates l) /\ persisted w a l db0 db /\ transcribed a l db0 db
      /\ exists j, jobs db !! arg_job_id a = Some j /\ completed_with n j
  | Raised e =>
      is_Some (jobs db0 !! arg_job_id a) ->
      exists j, jobs db !! arg_job_id a = Some j /\ failed_with e j
  end.

(** The rows a run may differ in from the database [db0] it started on. *)
Definition footprint (a : TaskArgs) (db0 db : DB) : Prop :=
  renders db = renders db0
  /\ (forall k, k <> arg_job_id a -> jobs db !! k = jobs db0 !! k)
  /\ (forall k, k <> arg_video_id a -> videos db !! k = videos db0 !! k)
  /\ (forall k, is_Some (jobs db !! k) <-> is_Some (jobs db0 !! k))
  /\ (forall v, videos db0 !! arg_video_id a = Some v ->
        exists v', videos db !! arg_video_id a = Some v'
                   /\ video_user_id v' = video_user_id v
                   /\ video_src_url v' = video_src_url v)
  /\ (exists ts, transcripts db = transcripts db0 ++ ts)
  /\ (exists cs, candidates db = candidates db0 ++ cs).

End Outcome.

Module Reach.
Import Models Env Analyzer.

(** The audio step of the world is the method as it is written. *)
Definition audio_as_written (w : World) : Prop :=
  forall path, exists popen float_of duration,
    audio_signal w path = Audio.compute_audio_peaks popen float_of duration path.

(** The number of steps taken when the task is at a milestone up to the
    audio analysis. *)
Definition steps_taken (st : Stage) : option nat :=
  match st with
  | Dequeued => Some 0%nat
  | Downloading => Some 1%nat
  | AnalyzingMetadata => Some 2%nat
  | Transcribing => Some 3%nat
  | DetectingScenes => Some 4%nat
  | AnalyzingMotion => Some 5%nat
  | AnalyzingAudio => Some 6%nat
  | _ => None
  end.

(** After [k] steps the task has raised or is at the [k]-th milestone, which
    is none after the audio analysis; no candidate row has been added. *)
Definition before_candidates (db0 : DB) (k : nat) (st : Worker * DB) : Prop :=
  candidates (snd st) = candidates db0
  /\ match stage (fst st) with
     | Raised _ => True
     | milestone => steps_taken milestone = Some k
     end.

End Reach.

Module MotionInv.
Import Motion.

(** The loop of [compute_motion_scores] has seen [frame_count] frames; the
    first difference is taken at the sixth. *)
Definition counted {gray} (s : MotionLoop gray) : Prop :=
  (frame_count s = 0%nat -> prev_gray s = None)
  /\ (0 < frame_count s -> is_Some (prev_gray s))%nat
  /\ (frame_count s <= 5 -> motion_scores s = [] /\ second_diffs s = [])%nat
  /\ (6 <= frame_count s -> second_diffs s <> [])%nat.

Definition nonneg_scores {gray} (s : MotionLoop gray) : Prop :=
  Forall (fun x => 0 <= x) (motion_scores s) /\ Forall (fun x => 0 <= x) (second_diffs s).

End MotionInv.

Module Admission.
Import Models Env Jobs.

(** The keys [start_analysis] sets after merging the request's targets. *)
Definition reserved_keys : list string :=
  ["keywords"; "weights"; "whisper_model"; "language"].

(** The answer to a submission for a video under analysis. *)
Definition conflict : HTTPException :=
  {| status_code := 409; detail := "Analysis already in progress for this video" |}.

(** No job row holds a ["config"] entry in its logs. *)
Definition no_config (d : DB) : Prop :=
  forall k j, jobs d !! k = Some j -> job_logs j !! "config" = None.

(** Candidate ids are primary keys. *)
Definition unique_ids (d : DB) : Prop := List.NoDup (map candidate_id (candidates d)).

(** A world in which the calls of [render_clips_task] succeed. *)
Definition renders_well (w : World) : Prop :=
  (forall url path, s3_download_file w url path = None)
  /\ (forall call, ffmpeg_render w call = None)
  /\ (forall path key, s3_upload_file w path key = None)
  /\ (forall path, os_remove w path = None).

End Admission.

Module Captions.

(** The characters the caption text is escaped for. *)
Definition special (c : ascii) : bool := Ascii.eqb c "'" || Ascii.eqb c ":".

(** Every quote and colon of [s] comes right after a backslash;
    [after_backslash] tells whether [s] itself does. *)
Fixpoint guarded_from (after_backslash : bool) (s : string) : bool :=
  match s with
  | EmptyString => true
  | String c s' =>
      (if special c then after_backslash else true)
      && guarded_from (Ascii.eqb c "\") s'
  end.

Definition guarded (s : string) : bool := guarded_from false s.

(** The templates [build_caption_filter] knows. *)
Definition templates : list string := ["clean"; "manga"; "impact"; "karaoke"].

End Captions.

(** ** More concrete runs *)

Module Cases.
Import Models Env.

(** The flat motion and audio signals of the thirty-second video. *)
Definition flat : list Q := repeat 0 30.

(** The configuration built for a submission with the keyword [fight] and
    [clip_min_s = 5], and the targets the task reads from it. *)
Definition fight_request : Jobs.AnalyzeRequest :=
  Scenario.request ["fight"] Scenario.short_clips.

Definition fight_config : gmap string json :=
  default ∅ (Jobs.analysis_config (Jobs.load_config None) fight_request).

Definition fight_targets : Analyzer.Targets :=
  {| Analyzer.min_duration := inject_Z 5; Analyzer.max_duration := inject_Z 15;
     Analyzer.target_duration := inject_Z 10; Analyzer.keywords := ["fight"];
     Analyzer.weights :=
       {[ "speech_hook" := 0.30; "motion" := 0.25; "audio_peak" := 0.20;
          "keyword_match" := 0.15; "scene_freshness" := 0.10 ]};
     Analyzer.max_candidates := Some 20%Z |}.

(** The two submissions of [Scenario], by their message and the database
    the worker starts on. *)
Definition plain_message : Analyzer.TaskArgs := Scenario.message [] ∅.
Definition plain_db : DB := Jobs.db (Scenario.submitted [] ∅).
Definition fight_message : Analyzer.TaskArgs :=
  Scenario.message ["fight"] Scenario.short_clips.
Definition fight_db : DB := Jobs.db (Scenario.submitted ["fight"] Scenario.short_clips).

Definition desk : Jobs.Sys := {| Jobs.db := Scenario.uploaded; Jobs.queue := [] |}.

(** The answers to the first submission and to the retry of the failed
    job. *)
Definition accepted_response : Jobs.AnalyzeResponse :=
  {| Jobs.resp_job_id := "j1"; Jobs.resp_video_id := "v1";
     Jobs.resp_status := Pending;
     Jobs.resp_message := "Analysis job started. This typically takes 2-5 minutes." |}.

Definition retried_response : Jobs.AnalyzeResponse :=
  {| Jobs.resp_job_id := "j2"; Jobs.resp_video_id := "v1";
     Jobs.resp_status := Pending; Jobs.resp_message := "Job retried" |}.

(** A render request for the analysed video's candidate in two aspects. *)
Definition two_outputs : Renders.RenderRequest :=
  {| Renders.req_candidate_ids := ["c1"]; Renders.req_template := "clean";
     Renders.req_outputs := ["9:16"; "1:1"]; Renders.req_watermark := "@myanime";
     Renders.req_loudness := "-14"; Renders.req_captions := "on" |}.

Definition render_response : Renders.RenderResponse :=
  {| Renders.resp_render_id := "r2"; Renders.resp_status := Pending;
     Renders.resp_message := "Render job started for 1 clips" |}.

Definition render_desk : Renders.Sys :=
  {| Renders.db := Scenario.analysed; Renders.queue := [] |}.

(** The pending render row of [Scenario.analysed], and the files of its run
    in the calm world. *)
Definition pending_render : Render :=
  {| render_user_id := "alice"; render_params := Scenario.two_aspects;
     render_status := Pending; render_files := ∅ |}.

Definition calm_files : gmap string (gmap string string) :=
  match Renderer.run_result
          (Renderer.render_clips_task Scenario.calm "r1" Scenario.two_aspects
             Scenario.analysed) with
  | inr files => files
  | inl _ => ∅
  end.

(** Twelve frames given by their mean brightness, which changes at the
    sixth and the eleventh. *)
Definition brightness (g p : Q) : Q := Qabs (g - p).

Definition flicker : list Q := [0; 0; 0; 0; 0; 1; 1; 1; 1; 1; 3; 3].

Definition flicker_scores : list Q :=
  match Motion.compute_motion_scores Q brightness 1 flicker with
  | inr l => l
  | inl _ => []
  end.

(** An upload of a Matroska file. *)
Definition presign (key content_type : string) : Py.exn + string :=
  inr ("http://minio:9000/anime-clips/" +:+ key).

Definition matroska : Videos.UploadInit :=
  {| Videos.filename := "episode1.mkv"; Videos.filesize := 1000;
     Videos.content_type := "video/x-matroska" |}.

Definition matroska_response : Videos.UploadInitResponse :=
  {| Videos.upload_url :=
       "http://minio:9000/anime-clips/uploads/alice/u1.mkv";
     Videos.upload_id := "u1";
     Videos.expires_in := 3600 |}.

(** The calm world with the audio analysis as the method is written, on an
    ffmpeg that prints nothing. *)
Definition as_written : World :=
  {| s3_bucket := s3_bucket Scenario.calm;
     s3_download_file := s3_download_file Scenario.calm;
     s3_upload_file := s3_upload_file Scenario.calm;
     ffprobe := ffprobe Scenario.calm;
     ffmpeg_extract_audio := ffmpeg_extract_audio Scenario.calm;
     whisper_transcribe := whisper_transcribe Scenario.calm;
     cv2_frames := cv2_frames Scenario.calm;
     motion_signal := motion_signal Scenario.calm;
     audio_signal :=
       Audio.compute_audio_peaks (fun _ => EmptyString) (fun _ => None) 30;
     ffmpeg_thumbnail := ffmpeg_thumbnail Scenario.calm;
     ffmpeg_render := ffmpeg_render Scenario.calm;
     os_remove := os_remove Scenario.calm;
     local_files := local_files Scenario.calm;
     uuid4 := uuid4 Scenario.calm |}.

(** The default submission in that world, with the job cancelled right
    after the worker has started it: the states after the worker's first
    step, at the cancellation, three worker steps later, and after nine. *)
Definition started : Analyzer.Worker * DB :=
  Schedule.run_events as_written plain_message [Schedule.WorkerStep]
    (Schedule.dequeued, plain_db).

Definition at_cancellation : Analyzer.Worker * DB :=
  Schedule.run_events as_written plain_message Scenario.cancelled_at_start
    (Schedule.dequeued, plain_db).

Definition three_steps_later : Analyzer.Worker * DB :=
  Schedule.run_events as_written plain_message (repeat Schedule.WorkerStep 3)
    at_cancellation.

Definition after_cancellation : Analyzer.Worker * DB :=
  Schedule.run_events as_written plain_message (repeat Schedule.WorkerStep 9)
    at_cancellation.


End Cases.

(** Case analysis on the outcome of every external call in the goal. *)
Ltac destruct_outcomes d :=
  repeat match goal with
    | |- context [match Models.videos d !! ?k with _ => _ end] =>
        destruct (Models.videos d !! k) eqn:?
    | |- context [match Env.download_from_s3 ?a ?b ?c with _ => _ end] =>
        destruct (Env.download_from_s3 a b c)
    | |- context [match Env.ffprobe ?a ?b with _ => _ end] =>
        destruct (Env.ffprobe a b) eqn:?
    | |- context [match Env.ffmpeg_extract_audio ?a ?b ?c with _ => _ end] =>
        destruct (Env.ffmpeg_extract_audio a b c)
    | |- context [match json_object ?a with _ => _ end] =>
        destruct (json_object a)
    | |- context [match Env.whisper_transcribe ?a ?b with _ => _ end] =>
        destruct (Env.whisper_transcribe a b)
    | |- context [match Analyzer.detect_scenes ?a ?b ?c ?d with _ => _ end] =>
        destruct (Analyzer.detect_scenes a b c d) eqn:?
    | |- context [match Env.motion_signal ?a ?b with _ => _ end] =>
        destruct (Env.motion_signal a b)
    | |- context [match Env.audio_signal ?a ?b with _ => _ end] =>
        destruct (Env.audio_signal a b)
    | |- context [match Analyzer.read_targets ?a with _ => _ end] =>
        destruct (Analyzer.read_targets a) eqn:?
    | |- context [match Py.for_each ?a ?b ?c with _ => _ end] =>
        destruct (Py.for_each a b c) as [? [?|]] eqn:?
    | |- context [match Env.os_remove ?a ?b with _ => _ end] =>
        destruct (Env.os_remove a b)
    end.

(** * Properties *)

(** ** Comparisons, [min], [max] and loops *)

Module PyFacts.

Lemma Qltb_lt x y : Py.Qltb x y = true <-> x < y.
Proof.
  unfold Py.Qltb. rewrite negb_true_iff, <- not_true_iff_false, Qle_bool_iff.
  split; [apply Qnot_le_lt | apply Qlt_not_le].
Qed.

Lemma Qltb_ge x y : Py.Qltb x y = false <-> y <= x.
Proof. unfold Py.Qltb. rewrite negb_false_iff, Qle_bool_iff. reflexivity. Qed.

Lemma min2_le_l x y : Py.min2 x y <= x.
Proof.
  unfold Py.min2. destruct (Py.Qltb y x) eqn:E; [apply Qltb_lt in E; lra | lra].
Qed.

Lemma min2_le_r x y : Py.min2 x y <= y.
Proof.
  unfold Py.min2. destruct (Py.Qltb y x) eqn:E; [lra | apply Qltb_ge in E; lra].
Qed.

Lemma max2_ge_l x y : x <= Py.max2 x y.
Proof.
  unfold Py.max2. destruct (Py.Qltb x y) eqn:E; [apply Qltb_lt in E; lra | lra].
Qed.

Lemma max2_mono_r x y z : y <= z -> Py.max2 x y <= Py.max2 x z.
Proof.
  intros H. unfold Py.max2.
  destruct (Py.Qltb x y) eqn:E1, (Py.Qltb x z) eqn:E2;
    rewrite ?Qltb_lt, ?Qltb_ge in *; lra.
Qed.

Lemma inject_nat_nonneg (n : nat) : 0 <= inject_Z (Z.of_nat n).
Proof. change 0 with (inject_Z 0). rewrite <- Zle_Qle. lia. Qed.

Lemma inject_nat_succ (n : nat) : inject_Z (Z.of_nat (S n)) == inject_Z (Z.of_nat n) + 1.
Proof. rewrite Nat2Z.inj_succ. unfold Z.succ. rewrite inject_Z_plus. reflexivity. Qed.

(** A strictly increasing list stays so when a larger element is appended. *)
Lemma Sorted_snoc (l : list Q) (y : Q) :
  Sorted Qlt l -> Forall (fun x => x < y) l -> Sorted Qlt (l ++ [y]).
Proof.
  induction l as [|x l IH]; intros Hs Hf; simpl.
  - repeat constructor.
  - inversion Hs as [|? ? Hs' Hhd]; subst. inversion Hf as [|? ? Hx Hf']; subst.
    constructor; [apply IH; assumption|].
    destruct l as [|z l]; simpl; constructor; [exact Hx|].
    now inversion Hhd.
Qed.

(** A loop invariant that every turn keeps, whether it raises or not, holds
    of the state the loop ends in. *)
Lemma for_each_invariant {S X} (I : S -> Prop) (body : S -> X -> S * option Py.exn) xs :
  (forall s x, In x xs -> I s -> I (fst (body s x))) ->
  forall s, I s -> I (fst (Py.for_each body xs s)).
Proof.
  induction xs as [|x xs IH]; intros Hbody s Hs; simpl; [exact Hs|].
  pose proof (Hbody s x (or_introl eq_refl) Hs) as H1.
  destruct (body s x) as [s' [e|]]; simpl in *; [exact H1|].
  apply IH; [|exact H1]. intros s0 x0 Hin. apply Hbody. right. exact Hin.
Qed.


Lemma In_slice {A} (l : list A) i j x : In x (Py.slice l i j) -> In x l.
Proof.
  unfold Py.slice. intros H.
  rewrite <- (firstn_skipn (Z.to_nat (Py.slice_bound (Z.of_nat (length l)) i)) l).
  apply in_or_app. right.
  match type of H with In x (firstn ?n ?r) => rewrite <- (firstn_skipn n r) end.
  apply in_or_app. left. exact H.
Qed.

End PyFacts.

(** ** The scorer and the enumeration *)

Module ScorerFacts.
Import Models Env Analyzer Invariants PyFacts.

(** The penalty only grows along the list of predecessors. *)
Lemma overlap_step_mono a b p q ex :
  p <= q -> overlap_step a b p ex <= overlap_step a b q ex.
Proof. intros H. unfold overlap_step. destruct (Py.Qltb _ _); lra. Qed.

Lemma overlap_step_incr a b p ex : p <= overlap_step a b p ex.
Proof.
  unfold overlap_step. destruct (Py.Qltb _ _) eqn:E; [|lra].
  apply Qltb_lt in E.
  pose proof (min2_le_l b (snd ex)). pose proof (max2_ge_l a (fst ex)).
  assert (0 <= (Py.min2 b (snd ex) - Py.max2 a (fst ex)) / (b - a))
    by (apply Qle_shift_div_l; lra).
  lra.
Qed.

Lemma penalty_mono a b l : forall p q,
  p <= q -> fold_left (overlap_step a b) l p <= fold_left (overlap_step a b) l q.
Proof.
  induction l as [|ex l IH]; intros p q H; simpl; [exact H|].
  apply IH, overlap_step_mono, H.
Qed.

Lemma penalty_insert a b before x after :
  fold_left (overlap_step a b) (before ++ after) 0
  <= fold_left (overlap_step a b) (before ++ x :: after) 0.
Proof. rewrite !fold_left_app. simpl. apply penalty_mono, overlap_step_incr. Qed.

(** C7. Freshness is antitone in the predecessors: for an interval [[a, b]]
    with [a < b], inserting one more interval anywhere in the list of
    previously accepted intervals never increases the [scene_freshness] axis
    that [score_candidate] computes.  (For [b <= a] no overlap is positive
    and the axis is constantly 1, so the proof does not need [a < b].) *)
Theorem freshness_antitone (a b : Q) (ws : list Word) (ms au : list Q)
    (kws : list string) (wts : gmap string Q) (before after : list (Q * Q))
    (x : Q * Q) :
  a < b ->
  scene_freshness (snd (score_candidate a b ws ms au kws (before ++ x :: after) wts))
  <= scene_freshness (snd (score_candidate a b ws ms au kws (before ++ after) wts)).
Proof.
  intros _. unfold score_candidate. cbn [snd scene_freshness]. unfold freshness.
  apply max2_mono_r.
  pose proof (penalty_insert a b before x after). lra.
Qed.

(** C7, at [[5, 15]] with predecessors [[0, 10]] and [[12, 20]]. *)
Lemma freshness_antitone_witness :
  5 < 15 /\
  scene_freshness
    (snd (score_candidate 5 15 [] [] [] [] ([(0, 10)] ++ (12, 20) :: []) ∅))
  <= scene_freshness (snd (score_candidate 5 15 [] [] [] [] ([(0, 10)] ++ []) ∅)).
Proof.
  split; [reflexivity | apply (freshness_antitone 5 15); reflexivity].
Defined.

(** C3, as the spec states it: the scenario's speech hook is not 0.8. *)
Lemma hook_scenario_is_not_0_8 :
  ~ detect_hook_phrases Scenario.hook_transcript 0 10 == 0.8.
Proof. vm_compute. discriminate. Qed.

(** C3, amended. On the spec's transcript and the interval [[0, 10]] the
    speech hook is 1.0: "wait" is a hook word (+0.5), "what" is both a hook
    word and a question word (+0.5 and +0.3), and the sum 1.3 is clamped. *)
Theorem hook_scenario_is_clamped :
  fold_left (hook_word 0 10) Scenario.hook_transcript 0 == 1.3
  /\ detect_hook_phrases Scenario.hook_transcript 0 10 == 1
  /\ forall ms au kws ex wts,
       speech_hook (snd (score_candidate 0 10 Scenario.hook_transcript ms au kws ex wts))
       == 1.
Proof.
  split; [vm_compute; reflexivity|]. split; [vm_compute; reflexivity|].
  intros. unfold score_candidate. cbn [snd speech_hook]. vm_compute. reflexivity.
Qed.

End ScorerFacts.

Module EnumerationFacts.
Import Models Env Analyzer Invariants PyFacts.

Section Generation.
Variable t : Targets.
Variable duration : Q.
Variable ws : list Word.
Variables ms au : list Q.

Lemma try_duration_intervals s e st trial :
  intervals (gen_candidates (try_duration t duration ws ms au s e st trial))
  = intervals (gen_candidates st) ++ Spec.guarded_trial t duration (s, e) trial.
Proof.
  unfold try_duration, Spec.guarded_trial, Spec.accepts, Spec.proposal.
  cbn [fst snd List.filter].
  destruct (Py.Qltb (e - s) trial); [now rewrite app_nil_r|].
  destruct (Qle_bool _ _); [|now rewrite app_nil_r].
  destruct (score_candidate _ _ _ _ _ _ _ _) as [sc ft]; cbn [gen_candidates].
  unfold intervals. now rewrite map_app.
Qed.

Lemma try_durations_intervals s e trials : forall st,
  intervals (gen_candidates (fold_left (try_duration t duration ws ms au s e) trials st))
  = intervals (gen_candidates st)
    ++ flat_map (Spec.guarded_trial t duration (s, e)) trials.
Proof.
  induction trials as [|d trials IH]; intros st; simpl; [now rewrite app_nil_r|].
  rewrite IH, try_duration_intervals, <- app_assoc. reflexivity.
Qed.

Lemma scene_steps_intervals scenes : forall st,
  intervals (gen_candidates (fold_left (scene_step t duration ws ms au) scenes st))
  = intervals (gen_candidates st)
    ++ flat_map (fun scene =>
                   flat_map (Spec.guarded_trial t duration scene) (trial_durations t))
         scenes.
Proof.
  induction scenes as [|[s e] scenes IH]; intros st; simpl; [now rewrite app_nil_r|].
  rewrite IH. unfold scene_step. cbn [fst snd].
  rewrite try_durations_intervals, <- app_assoc. reflexivity.
Qed.

(** The freshness accumulator is the list of accepted intervals, in
    enumeration order. *)
Lemma existing_segments_intervals scenes : forall st,
  existing_segments st = intervals (gen_candidates st) ->
  let st' := fold_left (scene_step t duration ws ms au) scenes st in
  existing_segments st' = intervals (gen_candidates st').
Proof.
  assert (Htry : forall s e trial st,
             existing_segments st = intervals (gen_candidates st) ->
             existing_segments (try_duration t duration ws ms au s e st trial)
             = intervals (gen_candidates (try_duration t duration ws ms au s e st trial))).
  { intros s e trial st H. unfold try_duration.
    destruct (Py.Qltb _ _); [exact H|]. destruct (Qle_bool _ _); [|exact H].
    destruct (score_candidate _ _ _ _ _ _ _ _) as [sc ft].
    cbn [existing_segments gen_candidates]. unfold intervals.
    rewrite map_app, H. reflexivity. }
  induction scenes as [|[s e] scenes IH]; intros st H; cbn [fold_left]; [exact H|].
  apply IH. unfold scene_step, trial_durations. cbn [fold_left fst snd].
  repeat apply Htry. exact H.
Qed.

End Generation.

(** Every interval the guarded enumeration yields is one the spec's
    enumeration yields. *)
Lemma guarded_in_spec t duration bs i :
  In i (Spec.guarded_enumeration t duration bs) -> In i (Spec.spec_enumeration t duration bs).
Proof.
  unfold Spec.guarded_enumeration, Spec.spec_enumeration. rewrite !in_flat_map.
  intros (scene & Hs & Hi). exists scene. split; [exact Hs|].
  apply in_flat_map in Hi. destruct Hi as (trial & Ht & Hi).
  unfold Spec.guarded_trial in Hi.
  destruct (Py.Qltb _ _); [destruct Hi|].
  cbn [List.filter] in Hi. destruct (Spec.accepts t _) eqn:E; [|destruct Hi].
  destruct Hi as [<-|[]]. apply filter_In. split; [|exact E].
  apply in_map, Ht.
Qed.

(** C2, as the spec states it: on a scene of 8 seconds with the default
    targets the spec's enumeration accepts [[0, 8]] (the 10-second trial
    clamped to the scene's end), and the task's enumeration does not. *)
Lemma short_scene_is_not_clamped :
  In (0, 8) (Spec.spec_enumeration Scenario.default_targets 8 [0; 8])
  /\ ~ In (0, 8) (intervals (generate Scenario.default_targets 8 [] [] [] [0; 8])).
Proof.
  split.
  - vm_compute. left. reflexivity.
  - vm_compute. intros [H|[]]. discriminate H.
Qed.

(** C2, amended. For every adjacent scene-boundary pair and every trial
    duration of [[target_s, clip_min_s, clip_max_s]], in this order, a trial
    longer than the scene is skipped; otherwise the interval
    [[s_i, min(s_i + trial, s_{i+1}, duration)]] is proposed, and accepted iff
    its length is at least [clip_min_s].  The accepted intervals are among
    those of the spec's enumeration. *)
Theorem enumeration_skips_short_scenes (t : Targets) (duration : Q) (ws : list Word)
    (ms au : list Q) (scene_boundaries : list Q) :
  intervals (generate t duration ws ms au scene_boundaries)
  = Spec.guarded_enumeration t duration scene_boundaries
  /\ forall i, In i (intervals (generate t duration ws ms au scene_boundaries)) ->
               In i (Spec.spec_enumeration t duration scene_boundaries).
Proof.
  assert (E : intervals (generate t duration ws ms au scene_boundaries)
              = Spec.guarded_enumeration t duration scene_boundaries).
  { unfold generate. rewrite scene_steps_intervals. reflexivity. }
  split; [exact E|]. rewrite E. apply guarded_in_spec.
Qed.

End EnumerationFacts.

(** ** Scene boundaries *)

Module SceneFacts.
Import Models Env Analyzer Invariants PyFacts Cuts.




(** The cuts found from a frame count on are at that count or later, in
    increasing order; a cut at the count itself needs a previous
    histogram. *)
Lemma cut_frames_from_sorted threshold frames : forall prev count,
  StronglySorted lt (cut_frames_from threshold prev count frames)
  /\ Forall (fun k => (count <= k)%nat) (cut_frames_from threshold prev count frames)
  /\ (prev = None ->
      Forall (fun k => (count < k)%nat) (cut_frames_from threshold prev count frames)).
Proof.
  induction frames as [|f frames IH]; intros prev count; cbn [cut_frames_from].
  - repeat split; constructor.
  - assert (Hup : forall p,
              StronglySorted lt (cut_frames_from threshold p (S count) frames)
              /\ Forall (fun k => (count < k)%nat)
                   (cut_frames_from threshold p (S count) frames)).
    { intros p. destruct (IH p (S count)) as (Hs & Hb & _). split; [exact Hs|exact Hb]. }
    assert (Hle : forall l, Forall (fun k => (count < k)%nat) l ->
                            Forall (fun k => (count <= k)%nat) l).
    { intros l. apply List.Forall_impl. intros; lia. }
    destruct (_ =? _)%nat.
    + destruct prev as [p|].
      * destruct (Py.Qltb _ _); destruct (Hup (Some f)) as [Hs Hb].
        -- split; [constructor; assumption|].
           split; [constructor; [lia|apply Hle, Hb]|discriminate].
        -- split; [exact Hs|]. split; [apply Hle, Hb|discriminate].
      * destruct (Hup (Some f)) as [Hs Hb].
        split; [exact Hs|]. split; [apply Hle, Hb|intros _; exact Hb].
    + destruct (Hup prev) as [Hs Hb].
      split; [exact Hs|]. split; [apply Hle, Hb|intros _; exact Hb].
Qed.

Lemma cut_frames_sorted frames threshold :
  StronglySorted lt (cut_frames frames threshold)
  /\ Forall (fun k => (0 < k)%nat) (cut_frames frames threshold).
Proof.
  destruct (cut_frames_from_sorted threshold frames None 0) as (Hs & _ & Hp).
  split; [exact Hs|apply Hp; reflexivity].
Qed.

(** The loop adds the time of each cut, and raises at the first one when the
    frame rate is zero. *)
Lemma scene_loop_cuts fps threshold frames : forall s,
  let cuts := cut_frames_from threshold (prev_hist s) (frame_count s) frames in
  let run := Py.for_each (scene_frame fps threshold) frames s in
  if Qeq_bool fps 0 then
    match cuts with
    | [] => snd run = None /\ scene_boundaries (fst run) = scene_boundaries s
    | _ => snd run = Some "float division by zero"
    end
  else
    snd run = None
    /\ scene_boundaries (fst run) = scene_boundaries s ++ map (timestamp fps) cuts.
Proof.
  induction frames as [|f frames IH]; intros s; cbv zeta;
    cbn [cut_frames_from Py.for_each].
  - destruct (Qeq_bool fps 0); cbn; rewrite ?app_nil_r; split; reflexivity.
  - destruct (scene_frame fps threshold s f) as [s1 o1] eqn:E1.
    unfold scene_frame in E1. revert E1.
    destruct (frame_count s mod sample_rate =? 0)%nat.
    + destruct (prev_hist s) as [p|].
      * destruct (Py.Qltb threshold (l1_distance f p)).
        -- destruct (Qeq_bool fps 0) eqn:Ez; intros E; injection E as <- <-;
             [reflexivity|].
           match goal with
           | |- context [Py.for_each _ frames ?s1] => specialize (IH s1)
           end.
           cbv zeta in IH. rewrite ?Ez in IH.
           cbn [prev_hist frame_count scene_boundaries] in IH.
           destruct IH as [E1 E2]. split; [exact E1|].
           rewrite E2, <- app_assoc. reflexivity.
        -- intros E; injection E as <- <-.
           match goal with
           | |- context [Py.for_each _ frames ?s1] => exact (IH s1)
           end.
      * intros E; injection E as <- <-.
           match goal with
           | |- context [Py.for_each _ frames ?s1] => exact (IH s1)
           end.
    + intros E; injection E as <- <-.
           match goal with
           | |- context [Py.for_each _ frames ?s1] => exact (IH s1)
           end.
Qed.

(** What [detect_scenes] returns, by the cuts of the video. *)
Lemma detect_scenes_by_cuts fps duration frames threshold :
  detect_scenes fps duration frames threshold
  = if Qeq_bool fps 0 then
      match cut_frames frames threshold with
      | [] => inr [0; duration]
      | _ => inl "float division by zero"
      end
    else inr ((0 :: map (timestamp fps) (cut_frames frames threshold)) ++ [duration]).
Proof.
  unfold detect_scenes, cut_frames.
  pose proof (scene_loop_cuts fps threshold frames
                {| scene_boundaries := [0]; prev_hist := None; frame_count := 0 |}) as H.
  cbv zeta in H. cbn [prev_hist frame_count scene_boundaries] in H.
  destruct (Py.for_each _ frames _) as [s oe]. cbn [fst snd] in H.
  destruct (Qeq_bool fps 0).
  - destruct (cut_frames_from threshold None 0 frames).
    + destruct H as [-> ->]. reflexivity.
    + rewrite H. reflexivity.
  - destruct H as [-> ->]. reflexivity.
Qed.

Lemma timestamp_pos fps k : 0 < fps -> (0 < k)%nat -> 0 < timestamp fps k.
Proof.
  intros Hf Hk. unfold timestamp. apply Qlt_shift_div_l; [exact Hf|].
  rewrite Qmult_0_l. change 0 with (inject_Z 0). rewrite <- Zlt_Qlt. lia.
Qed.

Lemma timestamp_lt fps j k : 0 < fps -> (j < k)%nat -> timestamp fps j < timestamp fps k.
Proof.
  intros Hf Hk. unfold timestamp, Qdiv. apply Qmult_lt_compat_r.
  - apply Qinv_lt_0_compat, Hf.
  - rewrite <- Zlt_Qlt. lia.
Qed.

(** A positive time of a later frame needs a positive frame rate. *)
Lemma timestamp_pos_inv fps k : (0 < k)%nat -> 0 < timestamp fps k -> 0 < fps.
Proof.
  intros Hk Ht. unfold timestamp in Ht.
  assert (Hkq : 0 < inject_Z (Z.of_nat k)).
  { change 0 with (inject_Z 0). rewrite <- Zlt_Qlt. lia. }
  destruct (Qlt_le_dec 0 fps) as [H|H]; [exact H|exfalso].
  destruct (Qeq_dec fps 0) as [Hz|Hz].
  - rewrite Hz in Ht. unfold Qdiv in Ht. change (/ 0) with 0 in Ht.
    rewrite Qmult_0_r in Ht. apply (Qlt_irrefl 0), Ht.
  - assert (Hneg : fps < 0) by (apply Qle_lteq in H; destruct H; [assumption|contradiction]).
    assert (E : inject_Z (Z.of_nat k) / fps * fps == inject_Z (Z.of_nat k))
      by (field; exact Hz).
    nra.
Qed.

(** The sequence the detector returns is strictly increasing exactly when
    the duration is positive and every cut lies before it. *)
Lemma boundaries_sorted_iff fps duration cuts :
  StronglySorted lt cuts -> Forall (fun k => (0 < k)%nat) cuts ->
  Sorted Qlt ((0 :: map (timestamp fps) cuts) ++ [duration])
  <-> 0 < duration /\ Forall (cut_before fps duration) cuts.
Proof.
  intros Hs Hp. split.
  - intros H. apply Sorted_StronglySorted in H; [|intros x y z; apply Qlt_trans].
    cbn [app] in H. inversion H as [|? ? Hrest Hall]; subst.
    rewrite List.Forall_forall in Hall.
    split; [apply Hall, in_or_app; right; left; reflexivity|].
    apply List.Forall_forall. intros k Hk.
    rewrite List.Forall_forall in Hp.
    assert (Hin : In (timestamp fps k) (map (timestamp fps) cuts)) by (apply in_map, Hk).
    split.
    + apply (timestamp_pos_inv fps k (Hp k Hk)), Hall, in_or_app. left. exact Hin.
    + clear Hall H. induction cuts as [|c cuts IHc]; [destruct Hk|].
      cbn [map app] in Hrest. inversion Hrest as [|? ? Hrest' Hall']; subst.
      destruct Hk as [->|Hk].
      * rewrite List.Forall_forall in Hall'. apply Hall', in_or_app. right. left. reflexivity.
      * apply IHc; try assumption.
        -- inversion Hs; assumption.
        -- intros x Hx. apply Hp. right. exact Hx.
        -- apply in_map, Hk.
  - intros [Hd Hall]. cbn [app].
    destruct cuts as [|c cuts]; [repeat constructor; exact Hd|].
    inversion Hall as [|? ? [Hf Hc] Hall']; subst.
    inversion Hp as [|? ? Hc0 Hp']; subst.
    constructor; [|constructor; apply timestamp_pos; assumption].
    clear Hp Hp' Hc0 Hall. revert c Hs Hc Hall'.
    induction cuts as [|c' cuts IHc]; intros c Hs Hc Hall'; cbn [map app].
    + repeat constructor. exact Hc.
    + inversion Hall' as [|? ? [_ Hc'] Hall'']; subst.
      inversion Hs as [|? ? Hs' Hlt]; subst. inversion Hlt as [|? ? Hcc _]; subst.
      constructor; [apply IHc; assumption|].
      constructor. apply timestamp_lt; assumption.
Qed.


(** C8, as the spec states it: the output is not strictly increasing when
    the last cut lies at or after the reported duration (four frames at one
    frame per second, with a reported duration of two seconds), nor for an
    empty video of duration zero. *)
Lemma scene_boundaries_not_increasing :
  (exists l, detect_scenes 1 2 Scenario.cut_at_last_frame 0.3 = inr l /\ ~ Sorted Qlt l)
  /\ (exists l, detect_scenes 24 0 [] 0.3 = inr l /\ ~ Sorted Qlt l).
Proof.
  split.
  - eexists. split; [vm_compute; reflexivity|].
    intros H. inversion H as [|? ? H1 _]; subst. inversion H1 as [|? ? _ H2]; subst.
    inversion H2 as [|? ? H3]; subst. vm_compute in H3. discriminate.
  - eexists. split; [vm_compute; reflexivity|].
    intros H. inversion H as [|? ? _ H2]; subst.
    inversion H2 as [|? ? H3]; subst. vm_compute in H3. discriminate.
Qed.

(** C8, amended.  Whenever the detector returns, its sequence begins with
    0.0 and ends with the duration, and it is strictly increasing exactly
    when the duration is positive and, for every cut the detector finds, the
    frame rate is positive and the timestamp [frame_count / fps] it computes
    is less than the duration.  The detector returns unless it finds a cut
    at a frame rate of zero, where the division raises. *)
Theorem detect_scenes_increasing_iff (fps duration : Q) (frames : list hist)
    (threshold : Q) :
  ((exists e, detect_scenes fps duration frames threshold = inl e)
   <-> fps == 0 /\ cut_frames frames threshold <> [])
  /\ forall l, detect_scenes fps duration frames threshold = inr l ->
       head l = Some 0 /\ List.last l 0 = duration
       /\ (Sorted Qlt l
           <-> 0 < duration
               /\ Forall (cut_before fps duration) (cut_frames frames threshold)).
Proof.
  rewrite detect_scenes_by_cuts.
  destruct (cut_frames_sorted frames threshold) as [Hs Hp].
  split.
  - destruct (Qeq_bool fps 0) eqn:Ez.
    + apply Qeq_bool_iff in Ez. destruct (cut_frames frames threshold).
      * split; [intros [e He]; discriminate|intros [_ H]; contradiction].
      * split; [intros _; split; [exact Ez|discriminate]|eauto].
    + split; [intros [e He]; discriminate|].
      intros [Hz _]. apply Qeq_bool_iff in Hz. congruence.
  - intros l Hl.
    assert (E : l = (0 :: map (timestamp fps) (cut_frames frames threshold)) ++ [duration]).
    { destruct (Qeq_bool fps 0); [|congruence].
      destruct (cut_frames frames threshold); [|discriminate].
      injection Hl as <-. reflexivity. }
    subst l. split; [reflexivity|]. split; [apply last_last|].
    apply boundaries_sorted_iff; assumption.
Qed.

(** Four frames at one frame per second in three and a half seconds: there
    are more frames than [duration * fps], and the cut at the last frame
    still lies before the duration. *)
Lemma late_cut_before_the_duration :
  cut_frames Scenario.cut_at_last_frame 0.3 = [3%nat]
  /\ cut_before 1 3.5 3
  /\ detect_scenes 1 3.5 Scenario.cut_at_last_frame 0.3 = inr [0; 3 / 1; 3.5].
Proof.
  split; [vm_compute; reflexivity|]. split; [split; reflexivity|].
  vm_compute. reflexivity.
Qed.

End SceneFacts.

(** ** The candidates the task persists *)

Module TaskFacts.
Import Models Env Analyzer Invariants PyFacts.

Lemma In_insert_by_score c x l : In x (insert_by_score c l) -> x = c \/ In x l.
Proof.
  induction l as [|d l IH]; simpl.
  - intros [<-|[]]. left. reflexivity.
  - destruct (Py.np_ltb _ _); simpl; intros [<-|H]; auto;
      try (destruct (IH H); auto; fail); destruct H; auto.
Qed.

Lemma In_sort_by_score x l : In x (sort_by_score l) -> In x l.
Proof.
  induction l as [|c l IH]; simpl; [tauto|].
  intros H. destruct (In_insert_by_score _ _ _ H); auto.
Qed.

Section Bounds.
Variable t : Targets.
Hypothesis min_pos : 0 < min_duration t.
Hypothesis min_le_max : min_duration t <= max_duration t.
Hypothesis target_le_max : target_duration t <= max_duration t.
Variable d : Q.
Variable ws : list Word.
Variables ms au : list Q.





End Bounds.


Lemma worker_step_progress w a wk db :
  (steps_left (stage (fst (worker_step w a wk db))) <= pred (steps_left (stage wk)))%nat.
Proof.
  unfold worker_step.
  destruct (stage wk) eqn:E; cbv zeta;
    try destruct (jobs db !! arg_job_id a);
    destruct_outcomes db; cbn; try rewrite E; cbn; lia.
Qed.

Lemma run_worker_progress n w a : forall wk db,
  (steps_left (stage (fst (run_worker n w a wk db))) <= steps_left (stage wk) - n)%nat.
Proof.
  induction n as [|n IH]; intros wk db; cbn [run_worker]; [cbn [fst]; lia|].
  pose proof (worker_step_progress w a wk db) as H.
  destruct (worker_step w a wk db) as [wk' db']. cbn [fst] in H.
  specialize (IH wk' db'). lia.
Qed.

(** The task is over after its ten steps. *)
Lemma analyze_video_task_ends w a db :
  (exists n, stage (fst (analyze_video_task w a db)) = Returned n)
  \/ (exists e, stage (fst (analyze_video_task w a db)) = Raised e).
Proof.
  pose proof (run_worker_progress 10 w a {| stage := Dequeued; locals := no_locals |} db) as H.
  unfold analyze_video_task.
  destruct (stage (fst (run_worker 10 w a _ db))); cbn in H; try lia; eauto.
Qed.




End TaskFacts.

(** ** The job row under the worker and the cancellation endpoint *)

Module ScheduleFacts.
Import Models Env Analyzer Schedule Invariants PyFacts.

Lemma same_but_jobs_refl d : same_but_jobs d d.
Proof. repeat split; auto. Qed.

Lemma same_but_jobs_trans d1 d2 d3 :
  same_but_jobs d1 d2 -> same_but_jobs d2 d3 -> same_but_jobs d1 d3.
Proof.
  intros (V1 & R1 & T1 & C1 & J1) (V2 & R2 & T2 & C2 & J2).
  repeat split; try congruence; intros H; [apply J2, J1, H | apply J1, J2, H].
Qed.

Lemma is_Some_alter {A} (f : A -> A) (m : gmap string A) k k' :
  is_Some (alter f k m !! k') <-> is_Some (m !! k').
Proof.
  destruct (decide (k = k')) as [->|Hne].
  - rewrite lookup_alter_eq.
    destruct (m !! k'); cbn; split; intros [x Hx]; eauto; discriminate.
  - rewrite lookup_alter_ne by assumption. reflexivity.
Qed.

Lemma same_but_jobs_alter f1 f2 k d1 d2 :
  same_but_jobs d1 d2 ->
  same_but_jobs (set_jobs (alter f1 k) d1) (set_jobs (alter f2 k) d2).
Proof.
  intros (V & R & T & C & J). unfold set_jobs.
  repeat split; cbn; try assumption; rewrite !is_Some_alter; apply J.
Qed.

Lemma same_but_jobs_set_videos f d1 d2 :
  same_but_jobs d1 d2 -> same_but_jobs (set_videos f d1) (set_videos f d2).
Proof.
  intros (V & R & T & C & J). unfold set_videos.
  split; [cbn; now rewrite V|]. repeat split; cbn; try assumption; apply J.
Qed.

Lemma same_but_jobs_add_transcript t d1 d2 :
  same_but_jobs d1 d2 -> same_but_jobs (add_transcript t d1) (add_transcript t d2).
Proof.
  intros (V & R & T & C & J). unfold add_transcript.
  split; [assumption|]. split; [assumption|]. split; [cbn; now rewrite T|].
  split; [assumption|]. exact J.
Qed.

Lemma same_but_jobs_add_candidates cs d1 d2 :
  same_but_jobs d1 d2 -> same_but_jobs (add_candidates cs d1) (add_candidates cs d2).
Proof.
  intros (V & R & T & C & J). unfold add_candidates.
  split; [assumption|]. split; [assumption|]. split; [assumption|].
  split; [cbn; now rewrite C|]. exact J.
Qed.

Lemma on_exception_similar a pending e d1 d2 :
  same_but_jobs d1 d2 ->
  fst (on_exception a pending e d1) = fst (on_exception a pending e d2)
  /\ same_but_jobs (snd (on_exception a pending e d1)) (snd (on_exception a pending e d2)).
Proof.
  intros H. split; [reflexivity|]. unfold on_exception. cbn [snd].
  apply same_but_jobs_add_candidates, same_but_jobs_alter, H.
Qed.

(** A step of the task reads of the job rows only whether its own exists:
    on two databases that differ in the content of job rows it does the
    same. *)
Lemma worker_step_similar w a wk d1 d2 :
  same_but_jobs d1 d2 ->
  fst (worker_step w a wk d1) = fst (worker_step w a wk d2)
  /\ same_but_jobs (snd (worker_step w a wk d1)) (snd (worker_step w a wk d2)).
Proof.
  intros H. pose proof H as (V & R & T & C & J).
  unfold worker_step. rewrite <- V.
  destruct (stage wk); cbv zeta.
  - (* Dequeued *)
    destruct (jobs d1 !! arg_job_id a) eqn:E1, (jobs d2 !! arg_job_id a) eqn:E2.
    + destruct (videos d1 !! arg_video_id a);
        [split; [reflexivity|apply same_but_jobs_alter, H]|apply on_exception_similar, H].
    + exfalso. destruct (proj1 (J (arg_job_id a))) as [x Hx]; [rewrite E1; eauto|congruence].
    + exfalso. destruct (proj2 (J (arg_job_id a))) as [x Hx]; [rewrite E2; eauto|congruence].
    + split; [reflexivity|exact H].
  - destruct_outcomes d1; first [apply on_exception_similar, H | split; [reflexivity|exact H]].
  - (* AnalyzingMetadata *)
    destruct_outcomes d1; [apply on_exception_similar, H|].
    split; [reflexivity|]. apply same_but_jobs_set_videos, H.
  - (* Transcribing *)
    destruct_outcomes d1; try apply on_exception_similar, H.
    split; [reflexivity|]. apply same_but_jobs_add_transcript, H.
  - destruct_outcomes d1; first [apply on_exception_similar, H | split; [reflexivity|exact H]].
  - destruct_outcomes d1; first [apply on_exception_similar, H | split; [reflexivity|exact H]].
  - destruct_outcomes d1; first [apply on_exception_similar, H | split; [reflexivity|exact H]].
  - destruct_outcomes d1; first [apply on_exception_similar, H | split; [reflexivity|exact H]].
  - (* CreatingThumbnails *)
    destruct_outcomes d1; [apply on_exception_similar, H|].
    split; [reflexivity|]. apply same_but_jobs_add_candidates, H.
  - (* Completing *)
    destruct_outcomes d1;
      first [apply on_exception_similar, same_but_jobs_alter, H
            | split; [reflexivity|apply same_but_jobs_alter, H]].
  - split; [reflexivity|exact H].
  - split; [reflexivity|exact H].
Qed.

(** The cancellation endpoint changes the content of a job row at most. *)
Lemma cancel_job_similar job_id u d :
  same_but_jobs (snd (Jobs.cancel_job job_id u d)) d.
Proof.
  unfold Jobs.cancel_job.
  destruct (jobs d !! job_id) as [j|] eqn:E; [|apply same_but_jobs_refl].
  destruct (negb _); [apply same_but_jobs_refl|].
  destruct (negb _); [apply same_but_jobs_refl|].
  unfold set_jobs. repeat split; cbn; try reflexivity.
  - intros [x Hx]. destruct (decide (job_id = k)) as [<-|Hne]; [eauto|].
    rewrite lookup_insert_ne in Hx by assumption. eauto.
  - intros [x Hx]. destruct (decide (job_id = k)) as [<-|Hne].
    + rewrite lookup_insert_eq. eauto.
    + rewrite lookup_insert_ne by assumption. eauto.
Qed.

Lemma run_events_similar w a evs : forall st1 st2,
  fst st1 = fst st2 -> same_but_jobs (snd st1) (snd st2) ->
  fst (run_events w a evs st1) = fst (run_events w a (List.filter is_worker_step evs) st2)
  /\ same_but_jobs (snd (run_events w a evs st1))
       (snd (run_events w a (List.filter is_worker_step evs) st2)).
Proof.
  induction evs as [|ev evs IH]; intros [wk1 d1] [wk2 d2] Hw Hd; cbn [fst snd] in *;
    [split; assumption|].
  subst wk2. destruct ev as [|u]; cbn [List.filter is_worker_step run_events fold_left].
  - destruct (worker_step_similar w a wk1 d1 d2 Hd) as [E S].
    apply IH; assumption.
  - apply IH; [reflexivity|]. cbn [event_step fst snd].
    eapply same_but_jobs_trans; [apply cancel_job_similar|exact Hd].
Qed.

(** After its start the task writes the job row only to mark it failed or
    completed. *)
Lemma worker_step_jobs w a wk d :
  stage wk <> Dequeued ->
  jobs (snd (worker_step w a wk d)) = jobs d
  \/ exists f, settles f
               /\ jobs (snd (worker_step w a wk d)) = alter f (arg_job_id a) (jobs d).
Proof.
  intros Hs. unfold worker_step.
  destruct (stage wk); [congruence|..]; cbv zeta; destruct_outcomes d;
    unfold on_exception, add_candidates, set_videos, add_transcript, set_jobs;
    cbn [snd jobs];
    try (left; reflexivity);
    try (right; eexists; split; [|reflexivity]; intros j; reflexivity);
    right; rewrite alter_alter_eq; eexists; (split; [|reflexivity]); intros j; reflexivity.
Qed.

Lemma worker_step_leaves_queue w a wk d :
  stage (fst (worker_step w a wk d)) <> Dequeued.
Proof.
  unfold worker_step.
  destruct (stage wk) eqn:E; cbv zeta;
    try destruct (jobs d !! arg_job_id a);
    destruct_outcomes d; cbn; try rewrite E; discriminate.
Qed.

Lemma worker_step_terminal w a wk d j :
  stage wk <> Dequeued ->
  jobs d !! arg_job_id a = Some j -> terminal (job_status j) = true ->
  exists j', jobs (snd (worker_step w a wk d)) !! arg_job_id a = Some j'
             /\ terminal (job_status j') = true.
Proof.
  intros Hs Hj Ht.
  destruct (worker_step_jobs w a wk d Hs) as [E|(f & Hf & E)]; rewrite E.
  - eauto.
  - rewrite lookup_alter_eq, Hj. cbn. eauto.
Qed.

(** The cancellation endpoint leaves a job in a terminal state as it is. *)
Lemma cancel_job_terminal job_id u d k j :
  jobs d !! k = Some j -> terminal (job_status j) = true ->
  jobs (snd (Jobs.cancel_job job_id u d)) !! k = Some j.
Proof.
  intros Hj Ht. unfold Jobs.cancel_job.
  destruct (jobs d !! job_id) as [j0|] eqn:E; [|exact Hj].
  destruct (negb (Jobs.owns d u j0)); [exact Hj|].
  destruct (negb (Jobs.active j0)) eqn:Ea; [exact Hj|].
  cbn. destruct (decide (job_id = k)) as [->|Hne].
  - exfalso. rewrite Hj in E. injection E as <-.
    unfold Jobs.active in Ea. destruct (job_status j); cbn in *; discriminate.
  - rewrite lookup_insert_ne by assumption. exact Hj.
Qed.

Lemma run_events_terminal w a evs : forall wk d j,
  stage wk <> Dequeued ->
  jobs d !! arg_job_id a = Some j -> terminal (job_status j) = true ->
  exists j', jobs (snd (run_events w a evs (wk, d))) !! arg_job_id a = Some j'
             /\ terminal (job_status j') = true.
Proof.
  induction evs as [|ev evs IH]; intros wk d j Hs Hj Ht; cbn [run_events fold_left].
  - eauto.
  - destruct ev as [|u]; cbn [event_step fst snd].
    + destruct (worker_step_terminal w a wk d j Hs Hj Ht) as (j' & Hj' & Ht').
      pose proof (worker_step_leaves_queue w a wk d) as Hs'.
      destruct (worker_step w a wk d) as [wk' d']. eapply IH; eassumption.
    + eapply IH; [exact Hs| |exact Ht]. apply cancel_job_terminal; assumption.
Qed.

(** C5, as the spec states it: a job cancelled while pending is moved back
    to [processing] by the worker that dequeues its message. *)
Lemma cancelled_job_is_restarted :
  exists j j',
    jobs (snd (Jobs.cancel_job "j1" "alice" (Jobs.db (Scenario.submitted [] ∅))))
      !! "j1" = Some j
    /\ job_status j = Cancelled /\ terminal (job_status j) = true
    /\ jobs (snd (worker_step Scenario.calm (Scenario.message [] ∅) dequeued
                    (snd (Jobs.cancel_job "j1" "alice"
                            (Jobs.db (Scenario.submitted [] ∅))))))
         !! "j1" = Some j'
    /\ job_status j' = Processing /\ terminal (job_status j') = false.
Proof.
  eexists. eexists. split; [vm_compute; reflexivity|].
  split; [reflexivity|]. split; [reflexivity|].
  split; [vm_compute; reflexivity|]. split; reflexivity.
Qed.

(** C5, amended. Once a job's status is terminal, no operation after the
    task's start sets it to a non-terminal status: not a milestone, the
    completion or the failure handler of the worker, and not the
    cancellation endpoint, in any order.  The task's start is not guarded: on
    an existing video it sets the status to [processing] whatever it was. *)
Theorem terminal_absorbing_after_task_start (w : World) (a : TaskArgs)
    (evs : list Event) (wk : Worker) (d : DB) (j : Job) :
  jobs d !! arg_job_id a = Some j ->
  terminal (job_status j) = true ->
  (stage wk <> Dequeued ->
   exists j', jobs (snd (run_events w a evs (wk, d))) !! arg_job_id a = Some j'
              /\ terminal (job_status j') = true)
  /\ (is_Some (videos d !! arg_video_id a) ->
      exists j', jobs (snd (worker_step w a dequeued d)) !! arg_job_id a = Some j'
                 /\ job_status j' = Processing).
Proof.
  intros Hj Ht. split.
  - intros Hs. eapply run_events_terminal; eassumption.
  - intros [v Hv]. unfold worker_step, dequeued. cbn [stage]. rewrite Hj, Hv.
    cbn. rewrite lookup_alter_eq, Hj. cbn. eauto.
Qed.

(** C5, amended, on the job cancelled while pending and a worker that is
    past its start. *)
Lemma terminal_absorbing_after_task_start_witness :
  jobs Scenario.cancelled_pending !! arg_job_id (Scenario.message [] ∅)
  = Some Scenario.cancelled_job
  /\ terminal (job_status Scenario.cancelled_job) = true
  /\ (stage {| stage := Downloading; locals := no_locals |} <> Dequeued ->
      exists j',
        jobs (snd (run_events Scenario.calm (Scenario.message [] ∅)
                     (repeat WorkerStep 9)
                     ({| stage := Downloading; locals := no_locals |},
                      Scenario.cancelled_pending)))
          !! arg_job_id (Scenario.message [] ∅) = Some j'
        /\ terminal (job_status j') = true)
  /\ (is_Some (videos Scenario.cancelled_pending !! arg_video_id (Scenario.message [] ∅)) ->
      exists j',
        jobs (snd (worker_step Scenario.calm (Scenario.message [] ∅) dequeued
                     Scenario.cancelled_pending))
          !! arg_job_id (Scenario.message [] ∅) = Some j'
        /\ job_status j' = Processing).
Proof.
  assert (H1 : jobs Scenario.cancelled_pending !! arg_job_id (Scenario.message [] ∅)
               = Some Scenario.cancelled_job) by (vm_compute; reflexivity).
  assert (H2 : terminal (job_status Scenario.cancelled_job) = true) by reflexivity.
  exact (conj H1 (conj H2
           (terminal_absorbing_after_task_start Scenario.calm (Scenario.message [] ∅)
              (repeat WorkerStep 9) {| stage := Downloading; locals := no_locals |}
              Scenario.cancelled_pending Scenario.cancelled_job H1 H2))).
Defined.

Lemma on_exception_job_held a pending e d :
  job_held a (on_exception a pending e d).
Proof.
  unfold job_held, on_exception, add_candidates, set_jobs. cbn [fst snd stage jobs].
  intros j. rewrite lookup_alter_eq.
  destruct (jobs d !! arg_job_id a); cbn; [|discriminate].
  intros [= <-]. reflexivity.
Qed.

Lemma worker_step_job_held w a wk d :
  job_held a (wk, d) -> job_held a (worker_step w a wk d).
Proof.
  unfold worker_step.
  destruct (stage wk) eqn:E; cbv zeta; intros H;
    unfold job_held in H; cbn [fst snd] in H; rewrite E in H;
    try destruct (jobs d !! arg_job_id a) eqn:Ej;
    destruct_outcomes d; try apply on_exception_job_held;
    unfold job_held; cbn [fst snd stage]; try rewrite E;
    try exact I; try exact H;
    unfold set_jobs, set_videos, add_transcript, add_candidates; cbn [jobs];
    try (rewrite lookup_alter_eq, Ej; cbn; eauto; fail);
    try (destruct (is_Some_None H));
    rewrite ?Ej; first [exact H | (intros ? [=]) | eauto].
Qed.

Lemma cancel_job_job_held a u wk d :
  job_held a (wk, d) -> job_held a (wk, snd (Jobs.cancel_job (arg_job_id a) u d)).
Proof.
  unfold job_held. cbn [fst snd].
  assert (Hs : is_Some (jobs d !! arg_job_id a) ->
               is_Some (jobs (snd (Jobs.cancel_job (arg_job_id a) u d)) !! arg_job_id a)).
  { apply (cancel_job_similar (arg_job_id a) u d). }
  destruct (stage wk); auto.
  - intros (j & Hj & Hc). exists j. split; [|exact Hc].
    apply cancel_job_terminal; [exact Hj|]. rewrite Hc. reflexivity.
  - intros H j Hj.
    destruct (jobs d !! arg_job_id a) as [j0|] eqn:E.
    + pose proof (H j0 eq_refl) as Hf.
      rewrite (cancel_job_terminal (arg_job_id a) u d (arg_job_id a) j0 E) in Hj
        by (rewrite Hf; reflexivity).
      injection Hj as <-. exact Hf.
    + unfold Jobs.cancel_job in Hj. rewrite E in Hj. cbn in Hj. congruence.
Qed.

Lemma run_events_job_held w a evs : forall st,
  job_held a st -> job_held a (run_events w a evs st).
Proof.
  induction evs as [|ev evs IH]; intros [wk d] H; cbn [run_events fold_left]; [exact H|].
  apply IH. destruct ev as [|u]; cbn [event_step fst snd].
  - apply worker_step_job_held, H.
  - apply cancel_job_job_held, H.
Qed.

(** C6, as the spec states it.  The job of a default submission is
    processing when it is cancelled, with the worker at its first milestone.
    The worker does not stop at the next milestone: three steps later it has
    probed the video and written the transcript row, and it goes on until the
    audio analysis raises; the handler then overwrites the cancelled status
    with [failed].  No candidate row is written in this run, cancelled or
    not. *)
Lemma worker_runs_on_after_cancellation :
  (job_status <$> jobs (snd Cases.started) !! "j1") = Some Processing
  /\ (job_status <$> jobs (snd Cases.at_cancellation) !! "j1") = Some Cancelled
  /\ stage (fst Cases.at_cancellation) = Downloading
  /\ transcripts (snd Cases.at_cancellation) = []
  /\ stage (fst Cases.three_steps_later) = DetectingScenes
  /\ length (transcripts (snd Cases.three_steps_later)) = 1%nat
  /\ (job_status <$> jobs (snd Cases.three_steps_later) !! "j1") = Some Cancelled
  /\ stage (fst Cases.after_cancellation)
     = Raised "stdout and stderr arguments may not be used with capture_output."
  /\ (job_status <$> jobs (snd Cases.after_cancellation) !! "j1") = Some Failed
  /\ length (transcripts (snd Cases.after_cancellation)) = 1%nat
  /\ candidates (snd Cases.after_cancellation) = [].
Proof. vm_compute. repeat split. Qed.

(** C6, amended. The worker never reads the job's status after its start:
    under any interleaving of cancellation requests with the worker's steps,
    the worker passes the same milestones and writes the same candidate rows
    as in the run without the requests; and once the task is over the job's
    status is the one the task wrote, [completed] if it returned and [failed]
    if it raised. *)
Theorem cancellation_is_not_observed (w : World) (a : TaskArgs) (evs : list Event)
    (d : DB) :
  let actual := run_events w a evs (dequeued, d) in
  let undisturbed := run_events w a (List.filter is_worker_step evs) (dequeued, d) in
  fst actual = fst undisturbed
  /\ candidates (snd actual) = candidates (snd undisturbed)
  /\ match stage (fst actual) with
     | Returned _ =>
         exists j, jobs (snd actual) !! arg_job_id a = Some j /\ job_status j = Completed
     | Raised _ =>
         forall j, jobs (snd actual) !! arg_job_id a = Some j -> job_status j = Failed
     | _ => True
     end.
Proof.
  cbv zeta.
  destruct (run_events_similar w a evs (dequeued, d) (dequeued, d) eq_refl
              (same_but_jobs_refl d)) as [E (_ & _ & _ & C & _)].
  split; [exact E|]. split; [exact C|].
  pose proof (run_events_job_held w a evs (dequeued, d) I) as H.
  unfold job_held in H.
  destruct (stage (fst (run_events w a evs (dequeued, d)))); try exact I; exact H.
Qed.

End ScheduleFacts.

(** ** The files of a render *)

Module RendererFacts.
Import Models Env Renderer Invariants PyFacts.

Section Loops.
Variable w : World.
Variable db : DB.
Variable render_id : string.
Variable cfg : Settings.

Lemma render_aspect_recorded cand_id candidate vp caps st aspect :
  recorded_uploaded w render_id st ->
  recorded_uploaded w render_id
    (fst (render_aspect w render_id cfg cand_id candidate vp caps st aspect)).
Proof.
  intros H. unfold render_aspect.
  destruct (render w _); [exact H|].
  unfold upload_to_s3. destruct (s3_upload_file w _ _); [exact H|].
  cbn [fst]. intros c a m url Hc Ha. cbn [rendered_files uploaded] in *.
  destruct (decide (cand_id = c)) as [->|Hne].
  - rewrite lookup_insert_eq in Hc. injection Hc as <-.
    destruct (decide (aspect = a)) as [->|Hna].
    + rewrite lookup_insert_eq in Ha. injection Ha as <-.
      split; [apply in_or_app; right; left; reflexivity|reflexivity].
    + rewrite lookup_insert_ne in Ha by assumption.
      destruct (rendered_files st !! c) as [m0|] eqn:E; cbn [default] in Ha.
      * destruct (H c a m0 url E Ha) as [Hin Hu].
        split; [apply in_or_app; left; exact Hin|exact Hu].
      * rewrite lookup_empty in Ha. discriminate.
  - rewrite lookup_insert_ne in Hc by assumption.
    destruct (H c a m url Hc Ha) as [Hin Hu].
    split; [apply in_or_app; left; exact Hin|exact Hu].
Qed.

Lemma render_candidate_recorded st cand_id :
  recorded_uploaded w render_id st ->
  recorded_uploaded w render_id (fst (render_candidate w db render_id cfg st cand_id)).
Proof.
  intros H. unfold render_candidate.
  destruct (lookup_candidate db _) as [cand|]; [|exact H].
  destruct (videos db !! _) as [v|]; [|exact H].
  match goal with
  | |- context [match ?d with Some _ => _ | None => _ end] => destruct d
  end; [exact H|].
  apply for_each_invariant; [|exact H].
  intros s x _. apply render_aspect_recorded.
Qed.




(** A turn of the aspect loop that does not raise records the pair. *)
Lemma render_aspect_done cand_id candidate vp caps st aspect st' :
  render_aspect w render_id cfg cand_id candidate vp caps st aspect = (st', None) ->
  forall c a, has_entry (rendered_files st') c a <->
              has_entry (rendered_files st) c a \/ (c = cand_id /\ a = aspect).
Proof.
  unfold render_aspect.
  destruct (render w _); [discriminate|].
  destruct (upload_to_s3 w _ _) as [e|url]; [discriminate|].
  intros E; injection E as <- _. intros c a. unfold has_entry. cbn [rendered_files].
  destruct (decide (cand_id = c)) as [->|Hne].
  - rewrite lookup_insert_eq.
    destruct (decide (aspect = a)) as [->|Hna].
    + split; [intros _; right; split; reflexivity|].
      intros _. eexists _, url. split; [reflexivity|apply lookup_insert_eq].
    + split.
      * intros (m & u & Hm & Hu). injection Hm as <-.
        rewrite lookup_insert_ne in Hu by assumption.
        destruct (rendered_files st !! c) as [m0|]; cbn [default] in Hu.
        -- left. eauto.
        -- rewrite lookup_empty in Hu. discriminate.
      * intros [(m & u & Hm & Hu)|[_ ->]]; [|congruence].
        eexists _, u. split; [reflexivity|].
        rewrite lookup_insert_ne by assumption. rewrite Hm. exact Hu.
  - rewrite lookup_insert_ne by assumption.
    split; [intros H; left; exact H|].
    intros [H|[-> _]]; [exact H|congruence].
Qed.

Lemma render_aspects_done cand_id candidate vp caps outs : forall st st',
  Py.for_each (render_aspect w render_id cfg cand_id candidate vp caps) outs st
  = (st', None) ->
  forall c a, has_entry (rendered_files st') c a <->
              has_entry (rendered_files st) c a \/ (c = cand_id /\ In a outs).
Proof.
  induction outs as [|o outs IH]; intros st st' E c a; simpl in E.
  - injection E as <-. simpl. tauto.
  - destruct (render_aspect _ _ _ _ _ _ _ st o) as [s1 [e|]] eqn:E1; [discriminate|].
    rewrite (IH _ _ E c a), (render_aspect_done _ _ _ _ _ _ _ E1 c a). simpl.
    intuition (subst; auto).
Qed.

Lemma render_candidate_done st cand_id st' :
  render_candidate w db render_id cfg st cand_id = (st', None) ->
  forall c a, has_entry (rendered_files st') c a <->
    has_entry (rendered_files st) c a
    \/ (c = cand_id /\ is_Some (lookup_candidate db cand_id) /\ In a (set_outputs cfg)).
Proof.
  unfold render_candidate.
  destruct (lookup_candidate db _) as [cand|].
  - destruct (videos db !! _) as [v|]; [|discriminate].
    match goal with
    | |- context [match ?d with Some _ => _ | None => _ end] => destruct d
    end; [discriminate|].
    intros E c a. rewrite (render_aspects_done _ _ _ _ _ _ _ E c a).
    unfold has_entry; cbn [rendered_files]. intuition eauto.
  - intros E; injection E as <-. intros c a. split; [tauto|].
    intros [H|(_ & [x Hx] & _)]; [exact H|discriminate].
Qed.

(** A run of the candidate loop that does not raise records exactly the
    pairs of a listed candidate that exists and a requested aspect. *)
Lemma render_candidates_done ids : forall st st',
  Py.for_each (render_candidate w db render_id cfg) ids st = (st', None) ->
  forall c a, has_entry (rendered_files st') c a <->
    has_entry (rendered_files st) c a
    \/ (In c ids /\ is_Some (lookup_candidate db c) /\ In a (set_outputs cfg)).
Proof.
  induction ids as [|i ids IH]; intros st st' E c a; simpl in E.
  - injection E as <-. simpl. tauto.
  - destruct (render_candidate _ _ _ _ st i) as [s1 [e|]] eqn:E1; [discriminate|].
    rewrite (IH _ _ E c a), (render_candidate_done _ _ _ E1 c a). simpl.
    intuition (subst; auto).
Qed.

End Loops.

Lemma lookup_candidate_mark rid db c :
  lookup_candidate (mark_processing rid db) c = lookup_candidate db c.
Proof. reflexivity. Qed.




(** C4, as the spec states it: the first of two aspects is rendered and
    uploaded, the second fails; the render is marked failed, the uploaded
    object is in the store, and [files] has no entry for the candidate. *)
Lemma failed_render_loses_uploaded_entries :
  exists r,
    renders (run_db (render_clips_task Scenario.square_fails "r1"
                       Scenario.two_aspects Scenario.analysed)) !! "r1" = Some r
    /\ render_status r = Failed
    /\ In (s3_key "r1" "c1" "9:16")
         (run_uploaded (render_clips_task Scenario.square_fails "r1"
                          Scenario.two_aspects Scenario.analysed))
    /\ render_files r !! "c1" = None.
Proof.
  eexists. split; [vm_compute; reflexivity|]. split; [reflexivity|].
  split; [vm_compute; left; reflexivity|]. vm_compute. reflexivity.
Qed.

(** C4, amended. If any pair fails, the render is marked failed and its
    [files] is replaced by the single entry ["error"] with the exception's
    message: the entries recorded for the pairs completed before the failure
    are dropped, while the objects uploaded for them remain in the store.  If
    no pair fails, the render is marked completed and
    [files[candidate_id][aspect]] exists iff the candidate is listed and
    found in the database and the aspect is requested. *)
Theorem render_failure_replaces_files (w : World) (render_id : string)
    (params : RenderParams) (db : DB) :
  is_Some (renders db !! render_id) ->
  let run := render_clips_task w render_id params db in
  let body := render_body w (mark_processing render_id db) render_id params in
  let recorded := rendered_files (fst body) in
  exists r, renders (run_db run) !! render_id = Some r
    /\ (forall c a, has_entry recorded c a -> In (s3_key render_id c a) (run_uploaded run))
    /\ match snd body with
       | Some e =>
           run_result run = inl e /\ render_status r = Failed
           /\ render_files r = {[ "error" := FError e ]}
       | None =>
           run_result run = inr recorded /\ render_status r = Completed
           /\ render_files r = FOutputs <$> recorded
           /\ forall ids, candidate_ids params = Some ids ->
              forall c a, has_entry recorded c a <->
                In c ids /\ is_Some (lookup_candidate db c)
                /\ In a (set_outputs (settings_of params))
       end.
Proof.
  intros [r Hr] run body recorded. subst run recorded. unfold render_clips_task.
  rewrite Hr. cbv zeta. fold body.
  assert (Hrec : recorded_uploaded w render_id (fst body)).
  { unfold body, render_body. destruct (candidate_ids params) as [ids|].
    - apply for_each_invariant; [intros s x _; apply render_candidate_recorded|].
      intros c a m url Hc. cbn in Hc. rewrite lookup_empty in Hc. discriminate.
    - intros c a m url Hc. cbn in Hc. rewrite lookup_empty in Hc. discriminate. }
  assert (Hdone : snd body = None -> forall ids, candidate_ids params = Some ids ->
            forall c a, has_entry (rendered_files (fst body)) c a <->
              In c ids /\ is_Some (lookup_candidate db c)
              /\ In a (set_outputs (settings_of params))).
  { intros Hn ids Hids c a. unfold body, render_body in *. rewrite Hids in *.
    match goal with
    | |- context [Py.for_each ?b ids ?i] =>
        destruct (Py.for_each b ids i) as [st oe] eqn:E
    end.
    cbn [snd] in Hn; subst oe. cbn [fst].
    rewrite (render_candidates_done _ _ _ _ _ _ _ E c a).
    unfold has_entry at 1. cbn [rendered_files]. rewrite lookup_candidate_mark.
    split; [intros [(m & u & Hm & _)|H]; [rewrite lookup_empty in Hm; discriminate|exact H]|].
    intros H; right; exact H. }
  destruct body as [st [e|]]; cbn [fst snd] in *.
  - eexists. cbn [run_db run_uploaded run_result].
    unfold mark_processing, set_renders; cbn [renders].
    rewrite lookup_alter_eq, lookup_alter_eq, Hr. cbn [fmap option_fmap option_map].
    split; [reflexivity|]. split; [|repeat split].
    intros c a (m & u & Hm & Hu). exact (proj1 (Hrec c a m u Hm Hu)).
  - eexists. cbn [run_db run_uploaded run_result].
    unfold mark_processing, set_renders; cbn [renders].
    rewrite lookup_alter_eq, lookup_alter_eq, Hr. cbn [fmap option_fmap option_map].
    split; [reflexivity|].
    split; [|split; [reflexivity|split; [reflexivity|split; [reflexivity|]]]].
    + intros c a (m & u & Hm & Hu). exact (proj1 (Hrec c a m u Hm Hu)).
    + apply Hdone. reflexivity.
Qed.

(** C4, amended, on the render whose second aspect fails. *)
Lemma render_failure_replaces_files_witness :
  is_Some (renders Scenario.analysed !! "r1")
  /\ let run := render_clips_task Scenario.square_fails "r1" Scenario.two_aspects
                  Scenario.analysed in
     let body := render_body Scenario.square_fails
                   (mark_processing "r1" Scenario.analysed) "r1" Scenario.two_aspects in
     let recorded := rendered_files (fst body) in
     exists r, renders (run_db run) !! "r1" = Some r
       /\ (forall c a, has_entry recorded c a -> In (s3_key "r1" c a) (run_uploaded run))
       /\ match snd body with
          | Some e =>
              run_result run = inl e /\ render_status r = Failed
              /\ render_files r = {[ "error" := FError e ]}
          | None =>
              run_result run = inr recorded /\ render_status r = Completed
              /\ render_files r = FOutputs <$> recorded
              /\ forall ids, candidate_ids Scenario.two_aspects = Some ids ->
                 forall c a, has_entry recorded c a <->
                   In c ids /\ is_Some (lookup_candidate Scenario.analysed c)
                   /\ In a (set_outputs (settings_of Scenario.two_aspects))
          end.
Proof.
  assert (H1 : is_Some (renders Scenario.analysed !! "r1")) by (vm_compute; eauto).
  exact (conj H1
           (render_failure_replaces_files Scenario.square_fails "r1"
              Scenario.two_aspects Scenario.analysed H1)).
Defined.

End RendererFacts.

(** ** The retry endpoint *)

Module JobsFacts.
Import Models Env Analyzer Jobs.

(** No endpoint and no step of the task stores the task's configuration in
    the job's logs: a job without a ["config"] entry is retried with what
    [load_config] returns. *)
Lemma retry_job_without_config config_yaml new_id job_id user s j :
  jobs (db s) !! job_id = Some j ->
  owns (db s) user j = true ->
  job_status j = Failed ->
  job_type j = Analyze ->
  job_logs j !! "config" = None ->
  queue (snd (retry_job config_yaml new_id job_id user s))
  = queue s ++ [{| arg_job_id := new_id; arg_video_id := job_video_id j;
                   arg_config := load_config config_yaml |}].
Proof.
  intros Hj Ho Hs Ht Hl. unfold retry_job. rewrite Hj, Ho, Hs, Ht, Hl. reflexivity.
Qed.

(** C9, on the code: a job submitted with keywords [["fight"]] and
    [clip_min_s = 5] fails at the download; its retry creates the pending job
    [j2] and launches the task with the default configuration, from which
    the task reads [clip_min_s = 7] and no keywords. *)
Theorem retry_launches_default_config :
  (job_status <$> jobs Scenario.failed_run !! "j1") = Some Failed
  /\ (job_status <$> jobs (db Scenario.retried) !! "j2") = Some Pending
  /\ exists original again,
       queue (Scenario.submitted ["fight"] Scenario.short_clips) = [original]
       /\ queue Scenario.retried = [again]
       /\ arg_job_id again = "j2"
       /\ arg_config again = default_config
       /\ arg_config again <> arg_config original
       /\ exists t t',
            read_targets (arg_config original) = inr t
            /\ read_targets (arg_config again) = inr t'
            /\ min_duration t = 5 /\ keywords t = ["fight"]
            /\ min_duration t' = 7 /\ keywords t' = [].
Proof.
  split; [vm_compute; reflexivity|]. split; [vm_compute; reflexivity|].
  eexists. eexists. split; [vm_compute; reflexivity|]. split; [vm_compute; reflexivity|].
  split; [reflexivity|]. split; [vm_compute; reflexivity|].
  split; [vm_compute; discriminate|].
  eexists. eexists. split; [vm_compute; reflexivity|]. split; [vm_compute; reflexivity|].
  repeat split.
Qed.

End JobsFacts.

(** ** The range of the scores *)

Module ScoringFacts.
Import Models Env Analyzer Invariants PyFacts Scoring.

Lemma hook_word_incr a b s w : s <= hook_word a b s w.
Proof.
  unfold hook_word.
  destruct (_ || _); [lra|].
  destruct (Qle_bool _ _); [|lra].
  destruct (bool_decide _), (bool_decide _), (Py.endswith _ _); lra.
Qed.

Lemma hook_fold_nonneg a b ws : forall s, 0 <= s -> 0 <= fold_left (hook_word a b) ws s.
Proof.
  induction ws as [|w ws IH]; intros s Hs; simpl; [exact Hs|].
  apply IH. pose proof (hook_word_incr a b s w). lra.
Qed.

Lemma min2_ge x y z : z <= x -> z <= y -> z <= Py.min2 x y.
Proof. intros. unfold Py.min2. destruct (Py.Qltb y x); assumption. Qed.

Lemma max2_le x y z : x <= z -> y <= z -> Py.max2 x y <= z.
Proof. intros. unfold Py.max2. destruct (Py.Qltb x y); assumption. Qed.

Lemma penalty_nonneg a b l : forall p, 0 <= p -> 0 <= fold_left (overlap_step a b) l p.
Proof.
  induction l as [|ex l IH]; intros p Hp; simpl; [exact Hp|].
  apply IH. pose proof (ScorerFacts.overlap_step_incr a b p ex). lra.
Qed.

Lemma keyword_ratio_nonneg (hits : nat) (n : nat) :
  0 <= inject_Z (Z.of_nat hits) / inject_Z (Z.max (Z.of_nat n) 1).
Proof.
  apply Qle_shift_div_l.
  - change 0 with (inject_Z 0). rewrite <- Zlt_Qlt. lia.
  - pose proof (inject_nat_nonneg hits). lra.
Qed.

Lemma hook_in_unit ws a b : in_unit (detect_hook_phrases ws a b).
Proof.
  unfold detect_hook_phrases. split; [|apply min2_le_r].
  apply min2_ge; [apply hook_fold_nonneg|]; lra.
Qed.

Lemma keyword_in_unit a b ws kws : in_unit (keyword_score a b ws kws).
Proof.
  unfold keyword_score. split; [|apply min2_le_r].
  apply min2_ge; [apply keyword_ratio_nonneg|lra].
Qed.

Lemma freshness_in_unit a b ex : in_unit (freshness a b ex).
Proof.
  unfold freshness. split; [apply max2_ge_l|].
  apply max2_le; [lra|]. pose proof (penalty_nonneg a b ex 0). lra.
Qed.

(** X1.  Whatever the transcript, the signals, the keywords, the earlier
    candidates and the weights are, [score_candidate] returns a hook score, a
    keyword score and a freshness between 0 and 1. *)
Theorem scorer_axes_in_unit_interval (a b : Q) (ws : list Word) (ms au : list Q)
    (kws : list string) (ex : list (Q * Q)) (wts : gmap string Q) :
  let f := snd (score_candidate a b ws ms au kws ex wts) in
  (0 <= speech_hook f /\ speech_hook f <= 1)
  /\ (0 <= keyword_match f /\ keyword_match f <= 1)
  /\ (0 <= scene_freshness f /\ scene_freshness f <= 1).
Proof.
  cbv zeta. unfold score_candidate.
  cbn [snd speech_hook keyword_match scene_freshness].
  split; [apply hook_in_unit|]. split; [apply keyword_in_unit|apply freshness_in_unit].
Qed.

Lemma hook_word_outside a b s w :
  in_hook_window a b w = false -> hook_word a b s w = s.
Proof.
  unfold in_hook_window, hook_word, Py.Qltb.
  destruct (Qle_bool a (start w)); cbn; [|reflexivity].
  destruct (Qle_bool (start w) b); cbn; [|reflexivity].
  intros ->. reflexivity.
Qed.

(** X2.  The hook score of a segment depends only on the words that start
    inside the segment and within its first 2.5 seconds: removing every other
    word from the transcript leaves it unchanged. *)
Theorem hook_reads_the_early_window (ws : list Word) (a b : Q) :
  detect_hook_phrases ws a b
  = detect_hook_phrases (List.filter (in_hook_window a b) ws) a b.
Proof.
  unfold detect_hook_phrases. f_equal.
  generalize 0. induction ws as [|w ws IH]; intros s; cbn [List.filter fold_left];
    [reflexivity|].
  destruct (in_hook_window a b w) eqn:E; cbn [fold_left].
  - apply IH.
  - rewrite (hook_word_outside a b s w E). apply IH.
Qed.

Lemma Qsum_bounds (l : list Q) :
  Forall in_unit l -> 0 <= Py.Qsum l /\ Py.Qsum l <= inject_Z (Z.of_nat (length l)).
Proof.
  assert (Hshift : forall (l : list Q) a, fold_left Qplus l a == a + Py.Qsum l).
  { unfold Py.Qsum. intros l0. induction l0 as [|x l0 IH]; intros a; simpl; [lra|].
    rewrite (IH (a + x)), (IH (0 + x)). lra. }
  induction 1 as [|x l [Hx0 Hx1] _ [IH0 IH1]].
  - unfold Py.Qsum. simpl. split; [lra|]. vm_compute. discriminate.
  - unfold Py.Qsum. cbn [fold_left length]. rewrite Hshift, inject_nat_succ. lra.
Qed.

Lemma np_mean_unit (l : list Q) :
  Forall in_unit l ->
  match Py.np_mean l with
  | Py.Fin m => in_unit m
  | Py.NaN => l = []
  end.
Proof.
  intros H. destruct l as [|x l]; [reflexivity|]. cbn [Py.np_mean].
  destruct (Qsum_bounds _ H) as [H0 H1].
  assert (Hlen : 0 < inject_Z (Z.of_nat (length (x :: l)))).
  { change 0 with (inject_Z 0). rewrite <- Zlt_Qlt. cbn [length]. lia. }
  split; [apply Qle_shift_div_l; lra|apply Qle_shift_div_r; lra].
Qed.

Lemma window_mean_unit (scores : list Q) i j :
  Forall in_unit scores ->
  match window_mean scores i j with
  | Py.Fin m => in_unit m
  | Py.NaN => True
  end.
Proof.
  intros H. unfold window_mean. destruct (_ <? _)%Z; [|split; lra].
  assert (Hs : Forall in_unit (Py.slice scores i (Some j))).
  { apply List.Forall_forall. intros x Hx. apply In_slice in Hx.
    rewrite List.Forall_forall in H. auto. }
  pose proof (np_mean_unit _ Hs) as Hm. destruct (Py.np_mean _); [exact I|exact Hm].
Qed.

Lemma weighted_unit w x : 0 <= w -> in_unit x -> 0 <= w * x /\ w * x <= w.
Proof. intros Hw [H0 H1]. split; nra. Qed.

(** X3.  With non-negative weights and motion and audio signals between 0
    and 1, the total score of a candidate lies between 0 and the sum of the
    five weights; it is NaN only when the motion or the audio axis is. *)
Theorem score_is_bounded_by_the_weights (a b : Q) (ws : list Word) (ms au : list Q)
    (kws : list string) (ex : list (Q * Q)) (wts : gmap string Q) :
  nonneg_weights wts ->
  Forall in_unit ms -> Forall in_unit au ->
  let result := score_candidate a b ws ms au kws ex wts in
  match fst result with
  | Py.Fin s => 0 <= s /\ s <= total_weight wts
  | Py.NaN => motion (snd result) = Py.NaN \/ audio_peak (snd result) = Py.NaN
  end.
Proof.
  intros (W1 & W2 & W3 & W4 & W5) Hms Hau. cbv zeta.
  unfold score_candidate. cbn [fst snd motion audio_peak].
  pose proof (hook_in_unit ws a b) as Hh.
  pose proof (keyword_in_unit a b ws kws) as Hk.
  pose proof (freshness_in_unit a b ex) as Hf.
  pose proof (window_mean_unit ms (Py.int_of a) (Py.int_of b) Hms) as Hm.
  pose proof (window_mean_unit au (Py.int_of a) (Py.int_of b) Hau) as Ha.
  destruct (window_mean ms _ _) as [|m]; [left; reflexivity|].
  destruct (window_mean au _ _) as [|x]; [right; reflexivity|].
  unfold weight. cbn [Py.np_mul Py.np_add]. unfold total_weight.
  pose proof (weighted_unit _ _ W1 Hh). pose proof (weighted_unit _ _ W2 Hm).
  pose proof (weighted_unit _ _ W3 Ha). pose proof (weighted_unit _ _ W4 Hk).
  pose proof (weighted_unit _ _ W5 Hf). split; lra.
Qed.

Lemma flat_in_unit : Forall in_unit Cases.flat.
Proof.
  apply List.Forall_forall. intros x Hx. apply repeat_spec in Hx. subst x.
  split; vm_compute; discriminate.
Qed.

Lemma score_is_bounded_by_the_weights_witness :
  nonneg_weights ∅ /\ Forall in_unit Cases.flat
  /\ match fst (score_candidate 0 10 Scenario.hook_transcript Cases.flat Cases.flat
                  ["fight"] [] ∅) with
     | Py.Fin s => 0 <= s /\ s <= total_weight ∅
     | Py.NaN => False
     end.
Proof.
  assert (W : nonneg_weights ∅) by (repeat split; vm_compute; discriminate).
  split; [exact W|]. split; [exact flat_in_unit|].
  pose proof (score_is_bounded_by_the_weights 0 10 Scenario.hook_transcript Cases.flat
                Cases.flat ["fight"] [] ∅ W flat_in_unit flat_in_unit) as H.
  cbv zeta in H.
  destruct (fst (score_candidate 0 10 Scenario.hook_transcript Cases.flat Cases.flat
                   ["fight"] [] ∅)) eqn:E; [discriminate E|exact H].
Defined.

Lemma prefix_of_empty s : String.prefix s EmptyString = true -> s = EmptyString.
Proof. destruct s; [reflexivity|discriminate]. Qed.

Lemma lower_empty s : Py.lower s = EmptyString -> s = EmptyString.
Proof. destruct s; [reflexivity|discriminate]. Qed.

(** X4.  When no word of the transcript starts inside the segment, its hook
    score is 0, and so is its keyword score as long as no keyword is the
    empty string. *)
Theorem silent_segment_has_no_speech_axes (a b : Q) (ws : list Word) (ms au : list Q)
    (kws : list string) (ex : list (Q * Q)) (wts : gmap string Q) :
  silent ws a b ->
  let f := snd (score_candidate a b ws ms au kws ex wts) in
  speech_hook f = 0
  /\ (Forall (fun kw => kw <> EmptyString) kws -> keyword_match f == 0).
Proof.
  intros Hs. cbv zeta. unfold score_candidate. cbn [snd speech_hook keyword_match].
  split.
  - unfold detect_hook_phrases.
    assert (E : forall s, fold_left (hook_word a b) ws s = s).
    { induction Hs as [|w l Hw _ IH]; intros s; cbn [fold_left]; [reflexivity|].
      rewrite <- (IH s) at 2. f_equal. unfold hook_word.
      destruct Hw as [Hw|Hw]; apply Qltb_lt in Hw; rewrite Hw, ?orb_true_r;
        reflexivity. }
    rewrite E. reflexivity.
  - intros Hk. unfold keyword_score.
    assert (E : List.filter (fun w => Qle_bool a (start w) && Qle_bool (start w) b) ws = []).
    { induction Hs as [|w l Hw _ IH]; cbn [List.filter]; [reflexivity|].
      assert (Hf : Qle_bool a (start w) && Qle_bool (start w) b = false).
      { destruct Hw as [Hw|Hw]; apply Qltb_lt in Hw; unfold Py.Qltb in Hw;
          apply negb_true_iff in Hw; rewrite Hw, ?andb_false_r; reflexivity. }
      rewrite Hf. exact IH. }
    rewrite E. cbn [map String.concat].
    assert (H0 : List.filter (fun kw => Py.contains (Py.lower kw) EmptyString) kws = []).
    { induction Hk as [|kw l Hkw _ IH]; cbn [List.filter]; [reflexivity|].
      destruct (Py.contains (Py.lower kw) EmptyString) eqn:Ec; [|exact IH].
      exfalso. apply Hkw. cbn in Ec. rewrite orb_false_r in Ec.
      apply lower_empty, prefix_of_empty, Ec. }
    rewrite H0. cbn [length].
    assert (Hz : inject_Z (Z.of_nat 0) / inject_Z (Z.max (Z.of_nat (length kws)) 1) == 0).
    { change (inject_Z (Z.of_nat 0)) with 0. unfold Qdiv. apply Qmult_0_l. }
    unfold Py.min2. destruct (Py.Qltb 1 _) eqn:El; [|exact Hz].
    apply Qltb_lt in El. lra.
Qed.

Lemma silent_segment_has_no_speech_axes_witness :
  silent Scenario.hook_transcript 5 15
  /\ speech_hook (snd (score_candidate 5 15 Scenario.hook_transcript [] [] ["fight"] [] ∅))
     = 0.
Proof.
  assert (H : silent Scenario.hook_transcript 5 15)
    by (repeat constructor; left; reflexivity).
  exact (conj H (proj1 (silent_segment_has_no_speech_axes 5 15 Scenario.hook_transcript
                          [] [] ["fight"] [] ∅ H))).
Defined.

End ScoringFacts.

(** ** Freshness and the order of enumeration *)

Module FreshnessFacts.
Import Models Env Analyzer Invariants PyFacts Scoring.

Lemma min2_cases x y : (Py.min2 x y = x /\ x <= y) \/ (Py.min2 x y = y /\ y < x).
Proof.
  unfold Py.min2. destruct (Py.Qltb y x) eqn:E.
  - right. split; [reflexivity|apply Qltb_lt, E].
  - left. split; [reflexivity|apply Qltb_ge, E].
Qed.

Lemma max2_cases x y : (Py.max2 x y = x /\ y <= x) \/ (Py.max2 x y = y /\ x < y).
Proof.
  unfold Py.max2. destruct (Py.Qltb x y) eqn:E.
  - right. split; [reflexivity|apply Qltb_lt, E].
  - left. split; [reflexivity|apply Qltb_ge, E].
Qed.

(** An earlier interval that does not meet [[a, b]] adds nothing. *)
Lemma overlap_step_disjoint a b p ex :
  snd ex <= a \/ b <= fst ex -> overlap_step a b p ex = p.
Proof.
  intros H. unfold overlap_step.
  destruct (Py.Qltb 0 _) eqn:E; [|reflexivity].
  apply Qltb_lt in E. exfalso.
  pose proof (min2_le_l b (snd ex)). pose proof (min2_le_r b (snd ex)).
  pose proof (max2_ge_l a (fst ex)).
  assert (fst ex <= Py.max2 a (fst ex)).
  { destruct (max2_cases a (fst ex)) as [[-> ?]|[-> ?]]; lra. }
  destruct H; lra.
Qed.

(** An earlier interval that covers [[a, b]] adds the whole length. *)
Lemma overlap_step_covered a b p ex :
  a < b -> fst ex <= a -> b <= snd ex -> p + 1 <= overlap_step a b p ex.
Proof.
  intros Hab H1 H2. unfold overlap_step.
  assert (Hmin : Py.min2 b (snd ex) == b).
  { destruct (min2_cases b (snd ex)) as [[-> ?]|[-> ?]]; lra. }
  assert (Hmax : Py.max2 a (fst ex) == a).
  { destruct (max2_cases a (fst ex)) as [[-> ?]|[-> ?]]; lra. }
  destruct (Py.Qltb 0 _) eqn:E.
  - assert ((Py.min2 b (snd ex) - Py.max2 a (fst ex)) / (b - a) == 1)
      by (rewrite Hmin, Hmax; field; lra).
    lra.
  - apply Qltb_ge in E. lra.
Qed.

Lemma penalty_ge a b l : forall p, p <= fold_left (overlap_step a b) l p.
Proof.
  induction l as [|ex l IH]; intros p; simpl; [lra|].
  eapply Qle_trans; [apply ScorerFacts.overlap_step_incr|apply IH].
Qed.

Lemma penalty_covered a b l ex :
  a < b -> In ex l -> fst ex <= a -> b <= snd ex ->
  forall p, p + 1 <= fold_left (overlap_step a b) l p.
Proof.
  intros Hab Hin H1 H2. induction l as [|x l IH]; [destruct Hin|].
  intros p. simpl. destruct Hin as [->|Hin].
  - eapply Qle_trans; [apply overlap_step_covered; eassumption|apply penalty_ge].
  - eapply Qle_trans; [|apply IH, Hin].
    pose proof (ScorerFacts.overlap_step_incr a b p x). lra.
Qed.

Lemma penalty_disjoint a b l :
  Forall (fun ex => snd ex <= a \/ b <= fst ex) l ->
  forall p, fold_left (overlap_step a b) l p = p.
Proof.
  induction 1 as [|ex l Hex _ IH]; intros p; simpl; [reflexivity|].
  rewrite overlap_step_disjoint by exact Hex. apply IH.
Qed.

(** X5.  For a segment of positive length, the freshness is 0 as soon as
    one earlier candidate covers the whole segment, and 1 when every earlier
    candidate ends before it starts or starts after it ends. *)
Theorem freshness_of_covered_and_disjoint (a b : Q) (ws : list Word) (ms au : list Q)
    (kws : list string) (wts : gmap string Q) (existing : list (Q * Q)) :
  a < b ->
  let fresh := scene_freshness (snd (score_candidate a b ws ms au kws existing wts)) in
  (Exists (fun ex => fst ex <= a /\ b <= snd ex) existing -> fresh = 0)
  /\ (Forall (fun ex => snd ex <= a \/ b <= fst ex) existing -> fresh == 1).
Proof.
  intros Hab. cbv zeta. unfold score_candidate. cbn [snd scene_freshness].
  unfold freshness. split.
  - intros Hex. apply List.Exists_exists in Hex. destruct Hex as (ex & Hin & H1 & H2).
    pose proof (penalty_covered a b existing ex Hab Hin H1 H2 0) as Hp.
    unfold Py.max2. destruct (Py.Qltb 0 _) eqn:E; [|reflexivity].
    apply Qltb_lt in E. lra.
  - intros Hall. rewrite (penalty_disjoint a b existing Hall 0).
    vm_compute. reflexivity.
Qed.

Lemma freshness_of_covered_and_disjoint_witness :
  0 < 10 /\
  let fresh := scene_freshness (snd (score_candidate 0 10 [] [] [] [] [(0, 15)] ∅)) in
  (Exists (fun ex => fst ex <= 0 /\ 10 <= snd ex) [(0, 15)] -> fresh = 0)
  /\ (Forall (fun ex => snd ex <= 0 \/ 10 <= fst ex) [(0, 15)] -> fresh == 1).
Proof.
  assert (H : 0 < 10) by reflexivity.
  exact (conj H (freshness_of_covered_and_disjoint 0 10 [] [] [] [] ∅ [(0, 15)] H)).
Defined.

Section Generation.
Variable t : Targets.
Variable duration : Q.
Variable ws : list Word.
Variables ms au : list Q.

Lemma fresh_in_order_snoc cs c :
  fresh_in_order cs ->
  scene_freshness (c_features c) = freshness (c_start_s c) (c_end_s c) (intervals cs) ->
  fresh_in_order (cs ++ [c]).
Proof.
  intros Hcs Hc k d Hk.
  destruct (Nat.lt_ge_cases k (length cs)) as [Hlt|Hge].
  - rewrite nth_error_app1 in Hk by exact Hlt.
    rewrite firstn_app. replace (k - length cs)%nat with 0%nat by lia.
    cbn [firstn]. rewrite app_nil_r. apply Hcs, Hk.
  - rewrite nth_error_app2 in Hk by exact Hge.
    destruct (k - length cs)%nat as [|n] eqn:E; cbn in Hk.
    + injection Hk as <-. assert (k = length cs) by lia. subst k.
      rewrite firstn_app, firstn_all, Nat.sub_diag. cbn [firstn].
      rewrite app_nil_r. exact Hc.
    + destruct n; discriminate.
Qed.

Lemma try_duration_gen_inv s e st trial :
  gen_inv st -> gen_inv (try_duration t duration ws ms au s e st trial).
Proof.
  intros [He Hf]. unfold try_duration.
  destruct (Py.Qltb _ _); [split; assumption|].
  destruct (Qle_bool _ _); [|split; assumption].
  unfold score_candidate. split; cbn [existing_segments gen_candidates].
  - unfold intervals. rewrite map_app, He. reflexivity.
  - apply fresh_in_order_snoc; [exact Hf|].
    cbn [c_features c_start_s c_end_s scene_freshness]. rewrite He. reflexivity.
Qed.

Lemma scene_steps_gen_inv scenes : forall st,
  gen_inv st -> gen_inv (fold_left (scene_step t duration ws ms au) scenes st).
Proof.
  induction scenes as [|sc scenes IH]; intros st H; cbn [fold_left]; [exact H|].
  apply IH. unfold scene_step, trial_durations. cbn [fold_left].
  repeat apply try_duration_gen_inv. exact H.
Qed.

End Generation.

(** X6.  The freshness stored with the [k]-th enumerated candidate is the
    freshness of its interval against the intervals of the [k] candidates
    enumerated before it, those of the same scene included; candidates
    enumerated later play no part. *)
Theorem freshness_counts_earlier_candidates (t : Targets) (duration : Q)
    (ws : list Word) (ms au : list Q) (scene_boundaries : list Q) (k : nat) :
  let cs := generate t duration ws ms au scene_boundaries in
  match nth_error cs k with
  | Some c =>
      scene_freshness (c_features c)
      = freshness (c_start_s c) (c_end_s c) (intervals (firstn k cs))
  | None => (length cs <= k)%nat
  end.
Proof.
  cbv zeta. destruct (nth_error _ k) as [c|] eqn:E.
  - unfold generate in *.
    refine (proj2 (scene_steps_gen_inv t duration ws ms au _ _ _) k c E).
    split; [reflexivity|]. intros [|n] d Hd; discriminate.
  - apply nth_error_None, E.
Qed.

End FreshnessFacts.

(** ** The ranking *)

Module RankingFacts.
Import Models Env Analyzer Invariants PyFacts Scoring.

Lemma insert_by_score_perm c l : Permutation (c :: l) (insert_by_score c l).
Proof.
  induction l as [|d l IH]; simpl; [reflexivity|].
  destruct (Py.np_ltb _ _); [|reflexivity].
  rewrite perm_swap. apply perm_skip, IH.
Qed.

Lemma sort_by_score_perm l : Permutation l (sort_by_score l).
Proof.
  induction l as [|c l IH]; simpl; [reflexivity|].
  rewrite <- insert_by_score_perm. apply perm_skip, IH.
Qed.

Lemma not_below_trans c d e : not_below c d -> not_below d e -> not_below c e.
Proof.
  unfold not_below.
  destruct (c_score c), (c_score d), (c_score e); try tauto. intros; lra.
Qed.

Lemma insert_by_score_sorted c l :
  finite_score c -> Forall finite_score l ->
  StronglySorted not_below l -> StronglySorted not_below (insert_by_score c l).
Proof.
  intros [x Hx] Hfin Hs. induction Hs as [|d l Hs IH Hd]; simpl.
  - repeat constructor.
  - inversion Hfin as [|? ? [y Hy] Hfin']; subst.
    destruct (Py.np_ltb _ _) eqn:E.
    + constructor; [apply IH, Hfin'|].
      apply List.Forall_forall. intros e He.
      apply (Permutation_in _ (Permutation_sym (insert_by_score_perm c l))) in He.
      destruct He as [<-|He].
      * unfold not_below. rewrite Hx, Hy in *. cbn in E. apply Qltb_lt in E. lra.
      * rewrite List.Forall_forall in Hd. auto.
    + assert (Hcd : not_below c d).
      { unfold not_below. rewrite Hx, Hy in *. cbn in E. apply Qltb_ge in E. exact E. }
      constructor; [constructor; assumption|].
      constructor; [exact Hcd|].
      revert Hd. apply List.Forall_impl. intros e. apply not_below_trans, Hcd.
Qed.

Lemma sort_by_score_finite l : Forall finite_score l -> Forall finite_score (sort_by_score l).
Proof.
  intros H. apply List.Forall_forall. intros c Hc.
  rewrite List.Forall_forall in H. apply H, TaskFacts.In_sort_by_score, Hc.
Qed.

Lemma sort_by_score_sorted l :
  Forall finite_score l -> StronglySorted not_below (sort_by_score l).
Proof.
  intros Hfin. induction Hfin as [|c l Hc Hl IH]; simpl; [constructor|].
  apply insert_by_score_sorted; [exact Hc|apply sort_by_score_finite, Hl|exact IH].
Qed.

Lemma slice_from_start {A} (l : list A) (bound : option Z) :
  Py.slice l 0 bound = keep_top bound l.
Proof.
  unfold Py.slice, keep_top, Py.slice_bound. cbn [Z.ltb Z.compare].
  rewrite Z.min_l by lia. change (Z.to_nat 0) with 0%nat. rewrite skipn_O. rewrite Z.sub_0_r.
  destruct bound as [n|]; [|rewrite Nat2Z.id; apply firstn_all].
  destruct (n <? 0)%Z eqn:E.
  - apply Z.ltb_lt in E. f_equal. lia.
  - apply Z.ltb_ge in E.
    destruct (Z.le_gt_cases n (Z.of_nat (length l))) as [H|H].
    + rewrite Z.min_l by exact H. reflexivity.
    + rewrite Z.min_r by lia. rewrite Nat2Z.id.
      rewrite firstn_all. symmetry. apply firstn_all2. lia.
Qed.

(** X7.  The number of top candidates: all of them when [max_candidates] is
    [None], at most [max_candidates] when it is not negative, and all but the
    last [-max_candidates] of the ranking when it is negative. *)
Theorem top_candidates_count (t : Targets) (duration : Q) (ws : list Word)
    (ms au : list Q) (scene_boundaries : list Q) :
  let n := length (generate t duration ws ms au scene_boundaries) in
  length (select t duration ws ms au scene_boundaries)
  = match max_candidates t with
    | None => n
    | Some m =>
        if (m <? 0)%Z then (n - Z.to_nat (- m))%nat else Nat.min (Z.to_nat m) n
    end.
Proof.
  cbv zeta. unfold select. rewrite slice_from_start.
  rewrite (Permutation_length (sort_by_score_perm (generate t duration ws ms au _))).
  unfold keep_top. destruct (max_candidates t) as [m|]; [|reflexivity].
  destruct (m <? 0)%Z; rewrite length_firstn; lia.
Qed.

Lemma keep_top_prefix {A} (bound : option Z) (l : list A) :
  exists m, keep_top bound l = firstn m l.
Proof.
  unfold keep_top. destruct bound as [n|]; [destruct (n <? 0)%Z; eauto|].
  exists (length l). symmetry. apply firstn_all.
Qed.

Lemma sorted_app_split {A} (R : A -> A -> Prop) (l1 l2 : list A) :
  StronglySorted R (l1 ++ l2) ->
  StronglySorted R l1 /\ forall c d, In c l1 -> In d l2 -> R c d.
Proof.
  induction l1 as [|x l1 IH]; cbn; intros Hs.
  - split; [constructor|]. intros c d [].
  - inversion Hs as [|? ? Hs' Hx]; subst. destruct (IH Hs') as [IH1 IH2].
    rewrite List.Forall_forall in Hx. split.
    + constructor; [exact IH1|]. apply List.Forall_forall. intros y Hy.
      apply Hx, in_or_app. left. exact Hy.
    + intros c d [<-|Hc] Hd; [apply Hx, in_or_app; right; exact Hd|].
      apply IH2; assumption.
Qed.

(** X8.  When every enumerated candidate has a number for its score, the
    top candidates are in descending order of score, and together with the
    candidates that were dropped they are exactly the enumerated ones; no
    dropped candidate scores higher than a kept one. *)
Theorem top_candidates_are_the_best (t : Targets) (duration : Q) (ws : list Word)
    (ms au : list Q) (scene_boundaries : list Q) :
  Forall finite_score (generate t duration ws ms au scene_boundaries) ->
  let top := select t duration ws ms au scene_boundaries in
  StronglySorted not_below top
  /\ exists dropped,
       Permutation (generate t duration ws ms au scene_boundaries) (top ++ dropped)
       /\ forall c d, In c top -> In d dropped -> not_below c d.
Proof.
  intros Hfin. cbv zeta. unfold select. rewrite slice_from_start.
  set (cs := generate t duration ws ms au scene_boundaries) in *.
  destruct (keep_top_prefix (max_candidates t) (sort_by_score cs)) as [m ->].
  pose proof (sort_by_score_sorted cs Hfin) as Hs.
  rewrite <- (firstn_skipn m (sort_by_score cs)) in Hs.
  apply sorted_app_split in Hs. destruct Hs as [Hs1 Hs2].
  split; [exact Hs1|]. exists (skipn m (sort_by_score cs)). split; [|exact Hs2].
  rewrite firstn_skipn. apply sort_by_score_perm.
Qed.

Lemma top_candidates_are_the_best_witness :
  Forall finite_score
    (generate Scenario.default_targets 30 [] Cases.flat Cases.flat [0; 30])
  /\ StronglySorted not_below
       (select Scenario.default_targets 30 [] Cases.flat Cases.flat [0; 30]).
Proof.
  assert (H : Forall finite_score
                (generate Scenario.default_targets 30 [] Cases.flat Cases.flat [0; 30])).
  { vm_compute. repeat (apply List.Forall_cons; [eexists; reflexivity|]).
    apply List.Forall_nil. }
  exact (conj H (proj1 (top_candidates_are_the_best Scenario.default_targets 30 []
                          Cases.flat Cases.flat [0; 30] H))).
Defined.

End RankingFacts.

(** ** What a run of the task leaves in the database *)

Module OutcomeFacts.
Import Models Env Analyzer Invariants PyFacts Outcome.

Lemma thumbnail_loop_rows w a xs : forall pending pending',
  Py.for_each (thumbnail_step w a) xs pending = (pending', None) ->
  pending' = pending ++ map (row_of w a) xs.
Proof.
  induction xs as [|[idx cand] xs IH]; intros pending pending' E; simpl in E.
  - injection E as <-. simpl. now rewrite app_nil_r.
  - destruct (ffmpeg_thumbnail _ _ _ _); [discriminate|].
    unfold upload_to_s3 in E. destruct (s3_upload_file _ _ _); [discriminate|].
    apply IH in E. rewrite E, <- app_assoc. reflexivity.
Qed.

Lemma failed_after_exception w a db0 pending e db :
  is_Some (jobs db !! arg_job_id a) ->
  outcome_inv w a db0 (on_exception a pending e db).
Proof.
  intros [j Hj] _. unfold on_exception, add_candidates, set_jobs. cbn [fst snd jobs].
  rewrite lookup_alter_eq, Hj. cbn. eexists. split; [reflexivity|]. split; reflexivity.
Qed.

Lemma held_alter (f : Job -> Job) k (m : gmap string Job) :
  is_Some (m !! k) -> is_Some (alter f k m !! k).
Proof. intros [j Hj]. rewrite lookup_alter_eq, Hj. cbn. eauto. Qed.

Lemma worker_step_outcome w a db0 wk db :
  outcome_inv w a db0 (wk, db) -> outcome_inv w a db0 (worker_step w a wk db).
Proof.
  unfold outcome_inv at 1. cbn [fst snd]. unfold worker_step.
  destruct (stage wk) eqn:Es; cbv zeta; intros H.
  - (* Dequeued *)
    subst db. destruct (jobs db0 !! arg_job_id a) as [j|] eqn:Ej.
    + destruct (videos db0 !! arg_video_id a).
      * unfold outcome_inv; cbn [fst snd stage jobs set_jobs candidates transcripts].
        split; [apply held_alter; rewrite Ej; eauto|]. split; reflexivity.
      * apply failed_after_exception. rewrite Ej; eauto.
    + unfold outcome_inv; cbn [fst snd stage]. intros [x Hx]. congruence.
  - (* Downloading *)
    destruct H as (Hh & Hc & Ht).
    destruct_outcomes db; try (apply failed_after_exception, Hh).
    unfold outcome_inv; cbn [fst snd stage]. auto.
  - (* AnalyzingMetadata *)
    destruct H as (Hh & Hc & Ht).
    destruct_outcomes db; try (apply failed_after_exception, Hh).
    unfold outcome_inv; cbn [fst snd stage]. auto.
  - (* Transcribing *)
    destruct H as (Hh & Hc & Ht).
    destruct (ffmpeg_extract_audio _ _ _); [apply failed_after_exception, Hh|].
    destruct (json_object _); [|apply failed_after_exception, Hh].
    destruct (whisper_transcribe _ _) as [e|td]; [apply failed_after_exception, Hh|].
    unfold outcome_inv; cbn [fst snd stage locals].
    split; [exact Hh|]. split; [exact Hc|].
    exists (td_language td). cbn. rewrite Ht. reflexivity.
  - (* DetectingScenes *)
    destruct H as (Hh & Hc & Ht).
    destruct_outcomes db; try (apply failed_after_exception, Hh).
    unfold outcome_inv; cbn [fst snd stage]. auto.
  - (* AnalyzingMotion *)
    destruct H as (Hh & Hc & Ht).
    destruct_outcomes db; try (apply failed_after_exception, Hh).
    unfold outcome_inv; cbn [fst snd stage]. auto.
  - (* AnalyzingAudio *)
    destruct H as (Hh & Hc & Ht).
    destruct_outcomes db; try (apply failed_after_exception, Hh).
    unfold outcome_inv; cbn [fst snd stage]. auto.
  - (* GeneratingCandidates *)
    destruct H as (Hh & Hc & Ht).
    destruct_outcomes db; try (apply failed_after_exception, Hh).
    unfold outcome_inv; cbn [fst snd stage]. auto.
  - (* CreatingThumbnails *)
    destruct H as (Hh & Hc & Ht).
    destruct (Py.for_each _ _ _) as [pending [e|]] eqn:E;
      [apply failed_after_exception, Hh|].
    apply thumbnail_loop_rows in E. subst pending.
    unfold outcome_inv; cbn [fst snd stage locals].
    split; [exact Hh|]. split; [|exact Ht].
    unfold persisted. cbn. rewrite Hc. reflexivity.
  - (* Completing *)
    destruct H as (Hh & Hc & Ht).
    destruct_outcomes db;
      try (apply failed_after_exception; cbn [jobs set_jobs]; apply held_alter, Hh).
    unfold outcome_inv; cbn [fst snd stage locals].
    split; [reflexivity|]. split; [exact Hc|]. split; [exact Ht|].
    destruct Hh as [j Hj]. cbn [jobs set_jobs]. rewrite lookup_alter_eq, Hj. cbn.
    eexists. split; [reflexivity|]. repeat split.
  - unfold outcome_inv; cbn [fst snd]. rewrite Es. exact H.
  - unfold outcome_inv; cbn [fst snd]. rewrite Es. exact H.
Qed.

Lemma run_worker_outcome w a db0 n : forall wk db,
  outcome_inv w a db0 (wk, db) -> outcome_inv w a db0 (run_worker n w a wk db).
Proof.
  induction n as [|n IH]; intros wk db H; cbn [run_worker]; [exact H|].
  pose proof (worker_step_outcome w a db0 wk db H) as H1.
  destruct (worker_step w a wk db) as [wk' db']. apply IH, H1.
Qed.

(** The thumbnail loop adds the rows of the items before the first one whose
    thumbnail or upload raises. *)
Lemma thumbnail_loop_prefix w a xs : forall pending,
  exists k,
    (k <= length xs)%nat
    /\ fst (Py.for_each (thumbnail_step w a) xs pending)
       = pending ++ map (row_of w a) (firstn k xs)
    /\ (snd (Py.for_each (thumbnail_step w a) xs pending) = None <-> k = length xs)
    /\ forall e, snd (Py.for_each (thumbnail_step w a) xs pending) = Some e ->
         exists ic, nth_error xs k = Some ic
                    /\ thumbnail_step w a [] ic = ([], Some e).
Proof.
  induction xs as [|[idx cand] xs IH]; intros pending.
  - exists 0%nat. cbn. rewrite app_nil_r. repeat split; auto. intros e [=].
  - cbn [Py.for_each].
    destruct (thumbnail_step w a pending (idx, cand)) as [p' o] eqn:E.
    unfold thumbnail_step in E.
    destruct (ffmpeg_thumbnail w _ _ _) as [e1|] eqn:E1.
    { injection E as <- <-. exists 0%nat. cbn. rewrite app_nil_r.
      repeat split; try lia; try discriminate.
      intros e [= <-]. exists (idx, cand). split; [reflexivity|].
      unfold thumbnail_step. rewrite E1. reflexivity. }
    unfold upload_to_s3 in E.
    destruct (s3_upload_file w _ _) as [e2|] eqn:E2.
    { injection E as <- <-. exists 0%nat. cbn. rewrite app_nil_r.
      repeat split; try lia; try discriminate.
      intros e [= <-]. exists (idx, cand). split; [reflexivity|].
      unfold thumbnail_step, upload_to_s3. rewrite E1, E2. reflexivity. }
    injection E as <- <-.
    destruct (IH (pending ++ [row_of w a (idx, cand)])) as (k & Hk & Hf & Hn & He).
    exists (S k). cbn [length firstn map nth_error].
    split; [lia|]. split; [|split].
    + unfold row_of in Hf. cbn [fst snd] in Hf. rewrite Hf, <- app_assoc. reflexivity.
    + unfold row_of in Hn. cbn [fst snd] in Hn. rewrite Hn. lia.
    + unfold row_of in He. cbn [fst snd] in He. exact He.
Qed.

Lemma nth_error_enumerate_from {A} (l : list A) : forall n k i c,
  nth_error (combine (seq n (length l)) l) k = Some (i, c) ->
  nth_error l k = Some c /\ i = (n + k)%nat.
Proof.
  induction l as [|x l IH]; intros n k i c H.
  - destruct k; discriminate.
  - destruct k as [|k]; cbn in H.
    + injection H as <- <-. split; [reflexivity|lia].
    + apply IH in H. destruct H as [H ->]. split; [exact H|lia].
Qed.

(** X9.  The persist loop adds one row for each top candidate, in the order
    of the ranking, until a thumbnail or an upload raises: the rows in the
    session are those of the [k] candidates before the first failure, each
    with the interval, score and features of its candidate, the video of the
    task and the URL of the uploaded thumbnail; the loop ends without an
    exception exactly when [k] is the number of top candidates, and otherwise
    raises what the thumbnail or the upload of the candidate at index [k]
    raised. *)
Theorem persist_loop_adds_rows_in_order (w : World) (a : TaskArgs) (top : list Cand) :
  let run := Py.for_each (thumbnail_step w a) (Py.enumerate top) [] in
  exists k,
    (k <= length top)%nat
    /\ fst run = map (row_of w a) (firstn k (Py.enumerate top))
    /\ (snd run = None <-> k = length top)
    /\ forall e, snd run = Some e ->
         exists cand, nth_error top k = Some cand
                      /\ thumbnail_step w a [] (k, cand) = ([], Some e).
Proof.
  cbv zeta.
  assert (Hlen : length (Py.enumerate top) = length top).
  { unfold Py.enumerate. rewrite length_combine, length_seq. lia. }
  destruct (thumbnail_loop_prefix w a (Py.enumerate top) []) as (k & Hk & Hf & Hn & He).
  rewrite Hlen in Hk, Hn. exists k. split; [exact Hk|]. split; [exact Hf|].
  split; [exact Hn|]. intros e Hs. destruct (He e Hs) as ([i c] & Hi & Hstep).
  destruct (nth_error_enumerate_from top 0 k i c Hi) as [Hc ->].
  exists c. split; [exact Hc|exact Hstep].
Qed.

(** X10.  When the task raises [e] and its job row exists, the row is left
    failed, with [error = str(e)] as its only log entry: what the run had
    logged before is replaced. *)
Theorem raised_task_is_marked_failed (w : World) (a : TaskArgs) (db : DB) (e : Py.exn) :
  is_Some (jobs db !! arg_job_id a) ->
  stage (fst (analyze_video_task w a db)) = Raised e ->
  exists j, jobs (snd (analyze_video_task w a db)) !! arg_job_id a = Some j
            /\ job_status j = Failed /\ job_logs j = {[ "error" := JStr e ]}.
Proof.
  intros Hj Hr.
  pose proof (run_worker_outcome w a db 10 {| stage := Dequeued; locals := no_locals |} db
                eq_refl) as H.
  fold (analyze_video_task w a db) in H. unfold outcome_inv in H.
  rewrite Hr in H. cbv zeta in H. exact (H Hj).
Qed.

Lemma raised_task_is_marked_failed_witness :
  is_Some (jobs Cases.fight_db !! arg_job_id Cases.fight_message)
  /\ stage (fst (analyze_video_task Scenario.offline Cases.fight_message Cases.fight_db))
     = Raised "ClientError: download"
  /\ exists j,
       jobs (snd (analyze_video_task Scenario.offline Cases.fight_message Cases.fight_db))
         !! arg_job_id Cases.fight_message = Some j
       /\ job_status j = Failed
       /\ job_logs j = {[ "error" := JStr "ClientError: download" ]}.
Proof.
  assert (H1 : is_Some (jobs Cases.fight_db !! arg_job_id Cases.fight_message))
    by (vm_compute; eexists; reflexivity).
  assert (H2 : stage (fst (analyze_video_task Scenario.offline Cases.fight_message
                             Cases.fight_db)) = Raised "ClientError: download")
    by (vm_compute; reflexivity).
  exact (conj H1 (conj H2 (raised_task_is_marked_failed Scenario.offline
                             Cases.fight_message Cases.fight_db _ H1 H2))).
Defined.

Lemma footprint_refl a db : footprint a db db.
Proof.
  repeat split; auto.
  - intros v Hv. eauto.
  - exists []. now rewrite app_nil_r.
  - exists []. now rewrite app_nil_r.
Qed.

Lemma footprint_alter_job a db0 db f :
  footprint a db0 db -> footprint a db0 (set_jobs (alter f (arg_job_id a)) db).
Proof.
  intros (R & J & V & K & U & T & C). unfold set_jobs.
  split; [exact R|]. split; [|split; [exact V|split; [|auto]]]; cbn [jobs].
  - intros k Hk. rewrite lookup_alter_ne by congruence. apply J, Hk.
  - intros k. rewrite ScheduleFacts.is_Some_alter. apply K.
Qed.

Lemma footprint_alter_video a db0 db f :
  (forall v, video_user_id (f v) = video_user_id v
             /\ video_src_url (f v) = video_src_url v) ->
  footprint a db0 db -> footprint a db0 (set_videos (alter f (arg_video_id a)) db).
Proof.
  intros Hf (R & J & V & K & U & T & C). unfold set_videos.
  split; [exact R|]. split; [exact J|]. split; [|split; [exact K|split; [|auto]]];
    cbn [videos].
  - intros k Hk. rewrite lookup_alter_ne by congruence. apply V, Hk.
  - intros v Hv. destruct (U v Hv) as (v' & Hv' & E1 & E2).
    exists (f v'). rewrite lookup_alter_eq, Hv'. cbn.
    destruct (Hf v') as [F1 F2]. split; [reflexivity|]. split; congruence.
Qed.

Lemma footprint_add_transcript a db0 db t :
  footprint a db0 db -> footprint a db0 (add_transcript t db).
Proof.
  intros (R & J & V & K & U & [ts T] & C). unfold add_transcript.
  repeat split; cbn; try assumption; try apply K.
  exists (ts ++ [t]). rewrite T, app_assoc. reflexivity.
Qed.

Lemma footprint_add_candidates a db0 db cs :
  footprint a db0 db -> footprint a db0 (add_candidates cs db).
Proof.
  intros (R & J & V & K & U & T & [cs0 C]). unfold add_candidates.
  repeat split; cbn; try assumption; try apply K.
  exists (cs0 ++ cs). rewrite C, app_assoc. reflexivity.
Qed.

Lemma footprint_on_exception a db0 db pending e :
  footprint a db0 db -> footprint a db0 (snd (on_exception a pending e db)).
Proof.
  intros H. unfold on_exception. cbn [snd].
  apply footprint_add_candidates, footprint_alter_job, H.
Qed.

Lemma worker_step_footprint w a db0 wk db :
  footprint a db0 db -> footprint a db0 (snd (worker_step w a wk db)).
Proof.
  intros H. unfold worker_step.
  destruct (stage wk); cbv zeta;
    try destruct (jobs db !! arg_job_id a);
    destruct_outcomes db; cbn [snd];
    first [ exact H
          | apply footprint_on_exception; first [exact H | apply footprint_alter_job, H]
          | apply footprint_alter_job, H
          | apply footprint_add_transcript, H
          | apply footprint_add_candidates, H
          | apply footprint_alter_video; [intros ?; split; reflexivity | exact H] ].
Qed.

Lemma run_worker_footprint w a db0 n : forall wk db,
  footprint a db0 db -> footprint a db0 (snd (run_worker n w a wk db)).
Proof.
  induction n as [|n IH]; intros wk db H; cbn [run_worker]; [exact H|].
  pose proof (worker_step_footprint w a db0 wk db H) as H1.
  destruct (worker_step w a wk db) as [wk' db']. apply IH, H1.
Qed.

(** X11.  Whatever happens during a run, the task leaves the renders, every
    job row but its own and every video row but its own as they were; it
    creates and deletes no job row, keeps the owner and the source URL of its
    video, and only appends to the transcripts and the candidates. *)
Theorem task_writes_only_its_rows (w : World) (a : TaskArgs) (db : DB) :
  let db' := snd (analyze_video_task w a db) in
  renders db' = renders db
  /\ (forall k, k <> arg_job_id a -> jobs db' !! k = jobs db !! k)
  /\ (forall k, k <> arg_video_id a -> videos db' !! k = videos db !! k)
  /\ (forall k, is_Some (jobs db' !! k) <-> is_Some (jobs db !! k))
  /\ (forall v, videos db !! arg_video_id a = Some v ->
        exists v', videos db' !! arg_video_id a = Some v'
                   /\ video_user_id v' = video_user_id v
                   /\ video_src_url v' = video_src_url v)
  /\ (exists ts, transcripts db' = transcripts db ++ ts)
  /\ (exists cs, candidates db' = candidates db ++ cs).
Proof.
  exact (run_worker_footprint w a db 10 {| stage := Dequeued; locals := no_locals |} db
           (footprint_refl a db)).
Qed.

End OutcomeFacts.

(** ** The audio step *)

Module ReachFacts.
Import Models Env Analyzer Invariants PyFacts Outcome Reach.

Lemma compute_audio_peaks_raises popen float_of duration path :
  Audio.compute_audio_peaks popen float_of duration path
  = inl "stdout and stderr arguments may not be used with capture_output.".
Proof. reflexivity. Qed.

Lemma on_exception_before_candidates a db0 db e k :
  candidates db = candidates db0 ->
  before_candidates db0 k (on_exception a [] e db).
Proof.
  intros H. unfold before_candidates, on_exception, add_candidates. cbn.
  rewrite app_nil_r. split; [exact H|exact I].
Qed.

Lemma worker_step_before_candidates w a db0 k wk db :
  audio_as_written w ->
  before_candidates db0 k (wk, db) ->
  before_candidates db0 (S k) (worker_step w a wk db).
Proof.
  intros Hw [Hc Hs]. cbn [fst snd] in Hc, Hs. unfold worker_step.
  destruct (stage wk) eqn:Es; cbv zeta; cbn [steps_taken] in Hs; try discriminate Hs.
  - injection Hs as <-. destruct (jobs db !! arg_job_id a);
      [|split; [exact Hc|exact I]].
    destruct_outcomes db; first [apply on_exception_before_candidates, Hc
                                | split; [exact Hc|reflexivity]].
  - injection Hs as <-.
    destruct_outcomes db; first [apply on_exception_before_candidates, Hc
                                | split; [exact Hc|reflexivity]].
  - injection Hs as <-.
    destruct_outcomes db; first [apply on_exception_before_candidates, Hc
                                | split; [exact Hc|reflexivity]].
  - injection Hs as <-.
    destruct_outcomes db; first [apply on_exception_before_candidates, Hc
                                | split; [exact Hc|reflexivity]].
  - injection Hs as <-.
    destruct_outcomes db; first [apply on_exception_before_candidates, Hc
                                | split; [exact Hc|reflexivity]].
  - injection Hs as <-.
    destruct_outcomes db; first [apply on_exception_before_candidates, Hc
                                | split; [exact Hc|reflexivity]].
  - injection Hs as <-.
    destruct (Hw (audio_path (arg_video_id a))) as (popen & float_of & duration & ->).
    rewrite compute_audio_peaks_raises. apply on_exception_before_candidates, Hc.
  - split; [exact Hc|]. cbn [fst stage]. rewrite Es. exact I.
Qed.

Lemma run_worker_before_candidates w a db0 n : forall k wk db,
  audio_as_written w ->
  before_candidates db0 k (wk, db) ->
  before_candidates db0 (n + k) (run_worker n w a wk db).
Proof.
  induction n as [|n IH]; intros k wk db Hw H; cbn [run_worker]; [exact H|].
  pose proof (worker_step_before_candidates w a db0 k wk db Hw H) as H1.
  destruct (worker_step w a wk db) as [wk' db'].
  replace (S n + k)%nat with (n + S k)%nat by lia. apply IH; assumption.
Qed.

(** X29.  [compute_audio_peaks] passes [stderr] to [subprocess.run] together
    with [capture_output], which [subprocess.run] refuses.  In a world whose
    audio step is the method as written, the analysis task never returns:
    every run ends by raising, adds no candidate row, and leaves the job
    row, if there is one, failed. *)
Theorem analysis_stops_at_the_audio_step (w : World) (a : TaskArgs) (db : DB) :
  audio_as_written w ->
  let run := analyze_video_task w a db in
  (exists e, stage (fst run) = Raised e)
  /\ (forall n, stage (fst run) <> Returned n)
  /\ candidates (snd run) = candidates db
  /\ (is_Some (jobs db !! arg_job_id a) ->
      exists j, jobs (snd run) !! arg_job_id a = Some j /\ job_status j = Failed).
Proof.
  intros Hw. cbv zeta.
  pose proof (run_worker_before_candidates w a db 10 0
                {| stage := Dequeued; locals := no_locals |} db Hw
                (conj eq_refl eq_refl)) as [Hc Hs].
  pose proof (OutcomeFacts.run_worker_outcome w a db 10
                {| stage := Dequeued; locals := no_locals |} db eq_refl) as Ho.
  fold (analyze_video_task w a db) in Hc, Hs, Ho. unfold outcome_inv in Ho.
  destruct (stage (fst (analyze_video_task w a db))) eqn:Es;
    cbn [steps_taken] in Hs; try discriminate Hs.
  split; [eauto|]. split; [discriminate|]. split; [exact Hc|].
  intros Hj. destruct (Ho Hj) as (j & Hl & Hf & _). eauto.
Qed.

Lemma as_written_audio : audio_as_written Cases.as_written.
Proof.
  intros path. exists (fun _ => EmptyString), (fun _ => None), 30. reflexivity.
Qed.

Lemma analysis_stops_at_the_audio_step_witness :
  audio_as_written Cases.as_written
  /\ candidates (snd (analyze_video_task Cases.as_written Cases.plain_message
                        Cases.plain_db))
     = candidates Cases.plain_db.
Proof.
  exact (conj as_written_audio
           (proj1 (proj2 (proj2 (analysis_stops_at_the_audio_step Cases.as_written
                                   Cases.plain_message Cases.plain_db
                                   as_written_audio))))).
Defined.

End ReachFacts.

(** ** The job API *)

Module ApiFacts.
Import Models Env Analyzer Jobs Admission.

(** An active analyze job of the video blocks a submission. *)
Lemma active_job_conflicts y new_id request u s v k j :
  videos (db s) !! req_video_id request = Some v ->
  video_user_id v = u ->
  jobs (db s) !! k = Some j ->
  job_video_id j = req_video_id request -> job_type j = Analyze -> active j = true ->
  start_analysis y new_id request u s = (inl conflict, s).
Proof.
  intros Hv Hu Hj Hjv Hjt Hja. unfold start_analysis. rewrite Hv, Hu, String.eqb_refl.
  cbn [negb].
  match goal with
  | |- context [existsb ?f ?l] => assert (E : existsb f l = true)
  end.
  { apply existsb_exists. exists (k, j). split.
    - apply list_elem_of_In, elem_of_map_to_list, Hj.
    - cbn [snd]. rewrite Hjv, String.eqb_refl, Hjt, Hja.
      rewrite bool_decide_eq_true_2 by reflexivity. reflexivity. }
  rewrite E. reflexivity.
Qed.

(** What an accepted submission leaves. *)
Lemma start_analysis_accepted y new_id request u s resp :
  fst (start_analysis y new_id request u s) = inr resp ->
  exists v cfg,
    videos (db s) !! req_video_id request = Some v /\ video_user_id v = u
    /\ snd (start_analysis y new_id request u s)
       = {| db := set_jobs (insert new_id
                              {| job_video_id := req_video_id request;
                                 job_type := Analyze; job_status := Pending;
                                 job_progress := 0; job_logs := ∅ |}) (db s);
            queue := queue s ++ [{| arg_job_id := new_id;
                                    arg_video_id := req_video_id request;
                                    arg_config := JObj cfg |}] |}.
Proof.
  unfold start_analysis.
  destruct (videos (db s) !! req_video_id request) as [v|] eqn:Hv; [|discriminate].
  destruct (negb (String.eqb (video_user_id v) u)) eqn:Hu; [discriminate|].
  destruct (existsb _ _); [discriminate|].
  destruct (analysis_config _ _) as [cfg|]; [|discriminate].
  intros _. exists v, cfg. split; [reflexivity|].
  split; [apply negb_false_iff, String.eqb_eq in Hu; exact Hu|reflexivity].
Qed.

(** X12.  An accepted submission leaves a pending analyze job at progress 0
    with empty logs and one more message in the queue, and from then on
    every submission of the same user for the same video is answered with
    409 and changes nothing. *)
Theorem second_submission_conflicts (y : option json) (new_id : string)
    (request : AnalyzeRequest) (u : string) (s : Sys) (resp : AnalyzeResponse) :
  fst (start_analysis y new_id request u s) = inr resp ->
  let s' := snd (start_analysis y new_id request u s) in
  (exists j, jobs (db s') !! new_id = Some j
             /\ job_video_id j = req_video_id request /\ job_type j = Analyze
             /\ job_status j = Pending /\ job_progress j = 0%Z /\ job_logs j = ∅)
  /\ (exists config,
        queue s' = queue s ++ [{| arg_job_id := new_id;
                                  arg_video_id := req_video_id request;
                                  arg_config := config |}])
  /\ forall y' new_id' request',
       req_video_id request' = req_video_id request ->
       start_analysis y' new_id' request' u s' = (inl conflict, s').
Proof.
  intros H. destruct (start_analysis_accepted _ _ _ _ _ _ H) as (v & cfg & Hv & Hu & E).
  cbv zeta. rewrite E. cbn [db queue]. split; [|split].
  - eexists. cbn [jobs set_jobs]. rewrite lookup_insert_eq.
    split; [reflexivity|]. repeat split.
  - eexists. reflexivity.
  - intros y' new_id' request' Hreq.
    eapply active_job_conflicts with (k := new_id) (v := v); cbn [db jobs videos set_jobs].
    + rewrite Hreq. exact Hv.
    + exact Hu.
    + apply lookup_insert_eq.
    + cbn. symmetry. exact Hreq.
    + reflexivity.
    + reflexivity.
Qed.

Lemma second_submission_conflicts_witness :
  fst (start_analysis None "j1" (Scenario.request [] ∅) "alice" Cases.desk)
  = inr Cases.accepted_response
  /\ start_analysis None "j9" (Scenario.request ["fight"] ∅) "alice"
       (Scenario.submitted [] ∅)
     = (inl conflict, Scenario.submitted [] ∅).
Proof.
  assert (H : fst (start_analysis None "j1" (Scenario.request [] ∅) "alice" Cases.desk)
              = inr Cases.accepted_response) by (vm_compute; reflexivity).
  exact (conj H (proj2 (proj2 (second_submission_conflicts None "j1"
                                 (Scenario.request [] ∅) "alice" Cases.desk _ H))
                   None "j9" (Scenario.request ["fight"] ∅) eq_refl)).
Defined.

Lemma not_reserved k :
  ~ In k reserved_keys ->
  k <> "keywords" /\ k <> "weights" /\ k <> "whisper_model" /\ k <> "language".
Proof. unfold reserved_keys. cbn. intuition congruence. Qed.

(** The entries of the configuration built for the task. *)
Lemma analysis_config_entries (config : json) (request : AnalyzeRequest)
    (cfg : gmap string json) :
  analysis_config config request = Some cfg ->
  exists analysis ws model,
    json_item config "analysis" = Some (JObj analysis)
    /\ (forall k, ~ In k reserved_keys ->
          cfg !! k = match req_targets request ≫= (fun targets => targets !! k) with
                     | Some v => Some v
                     | None => analysis !! k
                     end)
    /\ cfg !! "keywords" = Some (keywords_json (req_keywords request))
    /\ cfg !! "weights" = Some ws
    /\ cfg !! "whisper_model" = Some model
    /\ is_Some (cfg !! "language")
    /\ json_item config "scoring" ≫= (fun sc => json_item sc "weights") = Some ws.
Proof.
  unfold analysis_config.
  destruct (json_item config "analysis") as [[| | | | | |analysis]|] eqn:Ea;
    cbn; try discriminate.
  destruct (json_item config "scoring" ≫= _) as [ws|]; cbn; [|discriminate].
  destruct (json_item config "whisper") as [whisper|]; cbn; [|discriminate].
  destruct (json_item whisper "model") as [model|]; cbn; [|discriminate].
  destruct (json_object whisper) as [wm|]; cbn; [|discriminate].
  intros E; injection E as <-.
  exists analysis, ws, model. split; [reflexivity|]. split; [|repeat split].
  - intros k Hk. apply not_reserved in Hk. destruct Hk as (K1 & K2 & K3 & K4).
    rewrite !lookup_insert_ne by congruence.
    destruct (req_targets request) as [targets|]; cbn; [|reflexivity].
    destruct (bool_decide (targets = ∅)) eqn:Et.
    + apply bool_decide_eq_true in Et. subst targets. rewrite lookup_empty. reflexivity.
    + rewrite lookup_union. destruct (targets !! k), (analysis !! k); reflexivity.
  - rewrite !lookup_insert_ne by discriminate. apply lookup_insert_eq.
  - rewrite !lookup_insert_ne by discriminate. apply lookup_insert_eq.
  - rewrite !lookup_insert_ne by discriminate. apply lookup_insert_eq.
  - rewrite lookup_insert_eq. eauto.
Qed.



(** What an accepted cancellation leaves. *)
Lemma cancel_job_accepted job_id u d :
  fst (cancel_job job_id u d) = inr tt ->
  exists j,
    jobs d !! job_id = Some j /\ owns d u j = true /\ active j = true
    /\ snd (cancel_job job_id u d)
       = set_jobs
           (insert job_id
              (with_logs
                 (<["message" := JStr "Job cancelled by user"]>
                    (<["cancelled_by" := JStr "user"]> (job_logs j)))
                 (with_status Cancelled j))) d.
Proof.
  unfold cancel_job.
  destruct (jobs d !! job_id) as [j|] eqn:Hj; [|discriminate].
  destruct (negb (owns d u j)) eqn:Ho; [discriminate|].
  destruct (negb (active j)) eqn:Ha; [discriminate|].
  intros _. exists j. apply negb_false_iff in Ho, Ha. auto.
Qed.

(** X14.  An accepted cancellation sets the job to cancelled, keeps its
    progress, adds [cancelled_by] and [message] to its logs and keeps the
    other log entries; other job rows, the videos and the candidates are
    untouched.  Cancelling the same job again is answered with 400. *)
Theorem cancelled_job_cannot_be_cancelled_again (job_id u : string) (d : DB) :
  fst (cancel_job job_id u d) = inr tt ->
  let d' := snd (cancel_job job_id u d) in
  (exists j j', jobs d !! job_id = Some j /\ jobs d' !! job_id = Some j'
     /\ active j = true
     /\ job_status j' = Cancelled /\ job_progress j' = job_progress j
     /\ job_logs j' !! "cancelled_by" = Some (JStr "user")
     /\ job_logs j' !! "message" = Some (JStr "Job cancelled by user")
     /\ forall k, k <> "cancelled_by" -> k <> "message" ->
                  job_logs j' !! k = job_logs j !! k)
  /\ (forall k, k <> job_id -> jobs d' !! k = jobs d !! k)
  /\ videos d' = videos d /\ candidates d' = candidates d
  /\ cancel_job job_id u d'
     = (inl {| status_code := 400;
               detail := "Cannot cancel job with status: cancelled" |}, d').
Proof.
  intros H. destruct (cancel_job_accepted _ _ _ H) as (j & Hj & Ho & Ha & E).
  cbv zeta. rewrite E. clear E H. cbn [jobs set_jobs videos candidates].
  split; [|split; [|split; [reflexivity|split; [reflexivity|]]]].
  - exists j. eexists. split; [exact Hj|]. split; [apply lookup_insert_eq|].
    split; [exact Ha|]. cbn.
    split; [reflexivity|]. split; [reflexivity|].
    split; [rewrite lookup_insert_ne by discriminate; apply lookup_insert_eq|].
    split; [apply lookup_insert_eq|].
    intros k K1 K2. rewrite !lookup_insert_ne by congruence. reflexivity.
  - intros k Hk. apply lookup_insert_ne. congruence.
  - unfold cancel_job. cbn [jobs set_jobs]. rewrite lookup_insert_eq.
    unfold owns in *. cbn [videos job_video_id with_logs with_status] in *.
    assert (Hv : forall f, videos (set_jobs f d) = videos d) by reflexivity.
    rewrite Hv, Ho. reflexivity.
Qed.

Lemma cancelled_job_cannot_be_cancelled_again_witness :
  fst (cancel_job "j1" "alice" Cases.plain_db) = inr tt
  /\ cancel_job "j1" "alice" Scenario.cancelled_pending
     = (inl {| status_code := 400;
               detail := "Cannot cancel job with status: cancelled" |},
        Scenario.cancelled_pending).
Proof.
  assert (H : fst (cancel_job "j1" "alice" Cases.plain_db) = inr tt)
    by (vm_compute; reflexivity).
  exact (conj H (proj2 (proj2 (proj2 (proj2
           (cancelled_job_cannot_be_cancelled_again "j1" "alice" Cases.plain_db H)))))).
Defined.

(** What an accepted retry leaves. *)
Lemma retry_job_accepted y new_id job_id u s resp :
  fst (retry_job y new_id job_id u s) = inr resp ->
  exists original,
    jobs (db s) !! job_id = Some original /\ owns (db s) u original = true
    /\ job_status original = Failed
    /\ resp = {| resp_job_id := new_id; resp_video_id := job_video_id original;
                 resp_status := Pending; resp_message := "Job retried" |}
    /\ snd (retry_job y new_id job_id u s)
       = {| db := set_jobs
                    (insert new_id
                       {| job_video_id := job_video_id original;
                          job_type := job_type original;
                          job_status := Pending; job_progress := 0;
                          job_logs := {[ "retried_from" := JStr job_id ]} |}) (db s);
            queue :=
              if bool_decide (job_type original = Analyze) then
                queue s ++
                  [{| arg_job_id := new_id;
                      arg_video_id := job_video_id original;
                      arg_config :=
                        default (load_config y) (job_logs original !! "config") |}]
              else queue s |}.
Proof.
  unfold retry_job.
  destruct (jobs (db s) !! job_id) as [j|] eqn:Hj; [|discriminate].
  destruct (negb (owns (db s) u j)) eqn:Ho; [discriminate|].
  destruct (negb (bool_decide (job_status j = Failed))) eqn:Hf; [discriminate|].
  cbn [fst snd]. intros E; injection E as <-. exists j.
  apply negb_false_iff in Ho, Hf. apply bool_decide_eq_true in Hf. auto.
Qed.

(** X15.  An accepted retry is a retry of a failed job.  It adds a pending
    job of the same video and type at progress 0 whose logs hold only
    [retried_from], keeps every other job row, and enqueues one message for
    an analyze job and none for a job of another type. *)
Theorem retry_adds_a_pending_job (y : option json) (new_id job_id u : string)
    (s : Sys) (resp : AnalyzeResponse) :
  fst (retry_job y new_id job_id u s) = inr resp ->
  let s' := snd (retry_job y new_id job_id u s) in
  exists original,
    jobs (db s) !! job_id = Some original /\ job_status original = Failed
    /\ resp_job_id resp = new_id /\ resp_status resp = Pending
    /\ jobs (db s') !! new_id
       = Some {| job_video_id := job_video_id original; job_type := job_type original;
                 job_status := Pending; job_progress := 0;
                 job_logs := {[ "retried_from" := JStr job_id ]} |}
    /\ (forall k, k <> new_id -> jobs (db s') !! k = jobs (db s) !! k)
    /\ (job_type original = Analyze ->
        exists config,
          queue s' = queue s ++ [{| arg_job_id := new_id;
                                    arg_video_id := job_video_id original;
                                    arg_config := config |}])
    /\ (job_type original <> Analyze -> queue s' = queue s).
Proof.
  intros H. destruct (retry_job_accepted _ _ _ _ _ _ H) as (j & Hj & Ho & Hf & -> & E).
  cbv zeta. rewrite E. clear E H. exists j. cbn [db queue jobs set_jobs].
  split; [exact Hj|]. split; [exact Hf|]. split; [reflexivity|]. split; [reflexivity|].
  split; [apply lookup_insert_eq|].
  split; [intros k Hk; apply lookup_insert_ne; congruence|].
  split; intros Ht.
  - rewrite bool_decide_eq_true_2 by exact Ht. eexists. reflexivity.
  - rewrite bool_decide_eq_false_2 by exact Ht. reflexivity.
Qed.

Lemma retry_adds_a_pending_job_witness :
  fst (retry_job None "j2" "j1" "alice" {| db := Scenario.failed_run; queue := [] |})
  = inr Cases.retried_response
  /\ exists original,
       jobs Scenario.failed_run !! "j1" = Some original /\ job_status original = Failed.
Proof.
  assert (H : fst (retry_job None "j2" "j1" "alice"
                     {| db := Scenario.failed_run; queue := [] |})
              = inr Cases.retried_response) by (vm_compute; reflexivity).
  destruct (retry_adds_a_pending_job _ _ _ _ _ _ H) as (original & Hj & Hf & _).
  exact (conj H (ex_intro _ original (conj Hj Hf))).
Defined.

Lemma no_config_insert d k j :
  no_config d -> job_logs j !! "config" = None -> no_config (set_jobs (insert k j) d).
Proof.
  intros H Hj k' j'. unfold set_jobs. cbn [jobs].
  destruct (decide (k = k')) as [->|Hne].
  - rewrite lookup_insert_eq. intros E; injection E as <-. exact Hj.
  - rewrite lookup_insert_ne by assumption. apply H.
Qed.

Lemma no_config_alter d k f :
  (forall j, job_logs j !! "config" = None -> job_logs (f j) !! "config" = None) ->
  no_config d -> no_config (set_jobs (alter f k) d).
Proof.
  intros Hf H k' j'. unfold set_jobs. cbn [jobs].
  destruct (decide (k = k')) as [->|Hne].
  - rewrite lookup_alter_eq. destruct (jobs d !! k') as [j|] eqn:E; cbn; [|discriminate].
    intros E'; injection E' as <-. eapply Hf, H, E.
  - rewrite lookup_alter_ne by assumption. apply H.
Qed.

Lemma no_config_on_exception a pending e d :
  no_config d -> no_config (snd (on_exception a pending e d)).
Proof.
  intros H. unfold on_exception. cbn [snd].
  change (no_config
            (set_jobs (alter (fun j => with_logs {[ "error" := JStr e ]} (with_status Failed j))
                         (arg_job_id a)) d)).
  apply no_config_alter; [|exact H]. intros j _. reflexivity.
Qed.

Lemma worker_step_no_config w a wk d :
  no_config d -> no_config (snd (worker_step w a wk d)).
Proof.
  intros H. unfold worker_step.
  destruct (stage wk); cbv zeta;
    try destruct (jobs d !! arg_job_id a);
    destruct_outcomes d; cbn [snd];
    first [ exact H
          | apply no_config_on_exception;
            first [exact H | apply no_config_alter; [intros ? _; reflexivity | exact H]]
          | apply no_config_alter; [intros ? ?; first [assumption | reflexivity] | exact H]
          | exact H ].
Qed.

(** X16.  No endpoint of the job API and no step of the worker writes a
    [config] entry into a job's logs: if no row has one, none has one
    afterwards.  In such a database every message a retry enqueues carries
    the configuration [load_config] returns. *)
Theorem logs_never_hold_the_config (d : DB) :
  no_config d ->
  (forall y new_id request u q,
     no_config (db (snd (start_analysis y new_id request u {| db := d; queue := q |}))))
  /\ (forall job_id u, no_config (snd (cancel_job job_id u d)))
  /\ (forall y new_id job_id u q,
        no_config (db (snd (retry_job y new_id job_id u {| db := d; queue := q |}))))
  /\ (forall w a wk, no_config (snd (worker_step w a wk d)))
  /\ (forall y new_id job_id u q resp,
        fst (retry_job y new_id job_id u {| db := d; queue := q |}) = inr resp ->
        forall m, In m (queue (snd (retry_job y new_id job_id u {| db := d; queue := q |}))) ->
                  In m q \/ arg_config m = load_config y).
Proof.
  intros H. split; [|split; [|split; [|split]]].
  - intros y new_id request u q. unfold start_analysis. cbn [db].
    destruct (videos d !! _); [|exact H].
    destruct (negb _); [exact H|]. destruct (existsb _ _); [exact H|].
    destruct (analysis_config _ _); [|exact H].
    cbn [snd db]. apply no_config_insert; [exact H|reflexivity].
  - intros job_id u. unfold cancel_job.
    destruct (jobs d !! job_id) as [j|] eqn:Hj; [|exact H].
    destruct (negb _); [exact H|]. destruct (negb _); [exact H|].
    cbn [snd]. apply no_config_insert; [exact H|]. cbn.
    rewrite !lookup_insert_ne by discriminate. eapply H, Hj.
  - intros y new_id job_id u q. unfold retry_job. cbn [db].
    destruct (jobs d !! job_id) as [j|] eqn:Hj; [|exact H].
    destruct (negb _); [exact H|]. destruct (negb _); [exact H|].
    cbn [snd db]. apply no_config_insert; [exact H|reflexivity].
  - intros w a wk. apply worker_step_no_config, H.
  - intros y new_id job_id u q resp Hr.
    destruct (retry_job_accepted _ _ _ _ _ _ Hr) as (j & Hj & _ & _ & _ & E).
    rewrite E. cbn [db queue] in *. rewrite (H _ _ Hj). cbn [default].
    intros m. destruct (bool_decide _); [|auto].
    intros Hm. apply in_app_or in Hm. destruct Hm as [Hm|[<-|[]]]; auto.
Qed.

Lemma plain_db_no_config : no_config Cases.plain_db.
Proof.
  assert (E : jobs Cases.plain_db
              = <["j1" := {| job_video_id := "v1"; job_type := Analyze;
                             job_status := Pending; job_progress := 0;
                             job_logs := ∅ |}]> ∅) by (vm_compute; reflexivity).
  intros k j H. rewrite E in H. apply lookup_insert_Some in H.
  destruct H as [[_ <-]|[_ H]]; [reflexivity|].
  rewrite lookup_empty in H. discriminate.
Qed.

Lemma logs_never_hold_the_config_witness :
  no_config Cases.plain_db /\ no_config Scenario.cancelled_pending.
Proof.
  exact (conj plain_db_no_config
           (proj1 (proj2 (logs_never_hold_the_config Cases.plain_db plain_db_no_config))
              "j1" "alice")).
Defined.

Lemma config_get_present {A} (read : json -> option A) c key dflt v a x :
  c !! key = Some v -> read v = Some a ->
  config_get read c key dflt = inr x -> x = a.
Proof. unfold config_get. intros -> ->. congruence. Qed.

Lemma read_targets_fields c t :
  read_targets (JObj c) = inr t ->
  config_get json_number c "clip_min_s" 7 = inr (min_duration t)
  /\ config_get json_number c "clip_max_s" 15 = inr (max_duration t)
  /\ config_get json_number c "target_s" 10 = inr (target_duration t)
  /\ config_get json_strings c "keywords" [] = inr (keywords t)
  /\ config_get read_weights c "weights" ∅ = inr (weights t)
  /\ config_get json_slice_bound c "max_candidates" (Some 20%Z) = inr (max_candidates t).
Proof.
  unfold read_targets.
  destruct (config_get json_number c "clip_min_s" 7) as [?|mn];
    destruct (config_get json_number c "clip_max_s" 15) as [?|mx];
    destruct (config_get json_number c "target_s" 10) as [?|tg];
    destruct (config_get json_strings c "keywords" []) as [?|kw];
    destruct (config_get read_weights c "weights" ∅) as [?|wt];
    destruct (config_get json_slice_bound c "max_candidates" (Some 20%Z)) as [?|mc];
    try discriminate.
  intros E; injection E as <-. cbn. repeat split; reflexivity.
Qed.

Lemma json_strings_list (l : list string) : json_strings (JList (JStr <$> l)) = Some l.
Proof.
  cbn [json_strings]. induction l as [|s l IH]; [reflexivity|].
  simpl. change (list_fmap string json JStr l) with (JStr <$> l). rewrite IH. reflexivity.
Qed.

(** X17.  Through the configuration built by [start_analysis], the
    request's numeric targets [clip_min_s], [clip_max_s] and [target_s] are
    the durations the task reads, the request's keywords are the task's
    keywords, and the weights are those of the [scoring] section. *)
Theorem requested_targets_reach_the_task (config : json) (request : AnalyzeRequest)
    (cfg : gmap string json) (t : Targets) :
  analysis_config config request = Some cfg ->
  read_targets (JObj cfg) = inr t ->
  (forall targets v q, req_targets request = Some targets ->
     json_number v = Some q ->
     (targets !! "clip_min_s" = Some v -> min_duration t = q)
     /\ (targets !! "clip_max_s" = Some v -> max_duration t = q)
     /\ (targets !! "target_s" = Some v -> target_duration t = q))
  /\ (forall kws, req_keywords request = Some kws -> keywords t = kws)
  /\ (forall ws, json_item config "scoring" ≫= (fun sc => json_item sc "weights") = Some ws ->
        read_weights ws = Some (weights t)).
Proof.
  intros Hcfg Hread.
  destruct (analysis_config_entries _ _ _ Hcfg)
    as (analysis & ws0 & model & Ha & Hother & Hkw & Hws & _ & _ & Hws0).
  destruct (read_targets_fields _ _ Hread) as (Gmn & Gmx & Gtg & Gkw & Gwt & _).
  split; [|split].
  - intros targets v q Ht Hv.
    assert (Hl : forall key, ~ In key reserved_keys -> targets !! key = Some v ->
                   cfg !! key = Some v).
    { intros key Hk Hkey. rewrite (Hother key Hk), Ht. cbn. rewrite Hkey. reflexivity. }
    assert (Hn : forall key, key = "clip_min_s" \/ key = "clip_max_s" \/ key = "target_s" ->
                   ~ In key reserved_keys).
    { intros key [-> | [-> | ->]]; cbn; intuition discriminate. }
    split; [|split]; intros Hkey.
    + eapply config_get_present; [apply Hl, Hkey; apply Hn; auto|exact Hv|exact Gmn].
    + eapply config_get_present; [apply Hl, Hkey; apply Hn; auto|exact Hv|exact Gmx].
    + eapply config_get_present; [apply Hl, Hkey; apply Hn; auto|exact Hv|exact Gtg].
  - intros kws Hk. rewrite Hk in Hkw. cbn [keywords_json] in Hkw.
    eapply config_get_present; [exact Hkw|apply json_strings_list|exact Gkw].
  - intros ws Hw. rewrite Hws0 in Hw. injection Hw as <-.
    unfold config_get in Gwt. rewrite Hws in Gwt.
    destruct (read_weights ws0); congruence.
Qed.

Lemma requested_targets_reach_the_task_witness :
  analysis_config (load_config None) Cases.fight_request = Some Cases.fight_config
  /\ read_targets (JObj Cases.fight_config) = inr Cases.fight_targets
  /\ keywords Cases.fight_targets = ["fight"].
Proof.
  assert (H1 : analysis_config (load_config None) Cases.fight_request
               = Some Cases.fight_config) by (vm_compute; reflexivity).
  assert (H2 : read_targets (JObj Cases.fight_config) = inr Cases.fight_targets)
    by (vm_compute; reflexivity).
  exact (conj H1 (conj H2
           (proj1 (proj2 (requested_targets_reach_the_task _ _ _ _ H1 H2))
              ["fight"] eq_refl))).
Defined.

End ApiFacts.

(** ** The render API *)

Module RendersFacts.
Import Models Env Renderer Renders Admission Invariants PyFacts.

(** What an accepted request has passed, and what it leaves. *)
Lemma create_render_accepted y new_id request u s resp :
  fst (create_render y new_id request u s) = inr resp ->
  req_candidate_ids request <> []
  /\ In (req_template request) (load_templates y)
  /\ Forall (fun a => In a valid_outputs) (req_outputs request)
  /\ length (List.filter (requested (req_candidate_ids request)) (candidates (db s)))
     = length (req_candidate_ids request)
  /\ Forall (fun c => owned (db s) u c = true)
       (List.filter (requested (req_candidate_ids request)) (candidates (db s)))
  /\ (active_renders u (db s) < MAX_CONCURRENT)%nat
  /\ snd (create_render y new_id request u s)
     = {| db := set_renders
                  (insert new_id
                     {| render_user_id := u; render_params := params_of request;
                        render_status := Pending; render_files := ∅ |}) (db s);
          queue := queue s ++ [(new_id, params_of request)] |}.
Proof.
  unfold create_render.
  destruct (req_candidate_ids request) as [|i ids] eqn:Ei; [discriminate|].
  destruct (negb (bool_decide _)) eqn:Et; [discriminate|].
  destruct (negb (forallb _ _)) eqn:Eo; [discriminate|].
  destruct (negb (_ =? _)%nat) eqn:El; [discriminate|].
  destruct (find _ _) eqn:Ef; [discriminate|].
  destruct (_ <=? _)%nat eqn:Ea; [discriminate|].
  intros _. cbn [snd].
  apply negb_false_iff in Et, Eo, El.
  apply bool_decide_eq_true in Et. apply Nat.eqb_eq in El. apply Nat.leb_gt in Ea.
  split; [discriminate|]. split; [apply list_elem_of_In, Et|].
  split; [|split; [exact El|split; [|split; [exact Ea|reflexivity]]]].
  - apply List.Forall_forall. intros a Ha.
    rewrite forallb_forall in Eo. specialize (Eo a Ha).
    apply bool_decide_eq_true in Eo. apply list_elem_of_In, Eo.
  - apply List.Forall_forall. intros c Hc.
    pose proof (find_none _ _ Ef c Hc) as Hn. now apply negb_false_iff in Hn.
Qed.

(** The rows whose id is requested, counted: with unique ids there are as
    many as requested ids only if each id is requested once and found. *)
Lemma requested_all_found (ids : list string) (cs : list Candidate) :
  List.NoDup (map candidate_id cs) ->
  length (List.filter (requested ids) cs) = length ids ->
  List.NoDup ids /\ forall c, In c ids -> In c (map candidate_id (List.filter (requested ids) cs)).
Proof.
  intros Hnd Hlen.
  set (found := map candidate_id (List.filter (requested ids) cs)).
  assert (Hfn : List.NoDup found).
  { unfold found. clear Hlen. induction cs as [|c cs IH]; cbn; [constructor|].
    inversion Hnd as [|? ? Hc Hcs]; subst.
    destruct (requested ids c); cbn; [|apply IH, Hcs].
    constructor; [|apply IH, Hcs].
    intros Hin. apply Hc. apply in_map_iff in Hin. destruct Hin as (x & Hx & Hf).
    apply filter_In in Hf. apply in_map_iff. exists x. tauto. }
  assert (Hincl : incl found ids).
  { intros x Hx. unfold found in Hx. apply in_map_iff in Hx.
    destruct Hx as (c & <- & Hc). apply filter_In in Hc. destruct Hc as [_ Hc].
    unfold requested in Hc. apply bool_decide_eq_true in Hc.
    apply list_elem_of_In, Hc. }
  assert (Hl : (length ids <= length found)%nat).
  { unfold found. rewrite length_map. lia. }
  split.
  - eapply NoDup_incl_NoDup; eassumption.
  - intros c Hc. eapply NoDup_length_incl; eassumption.
Qed.

Lemma lookup_candidate_found (d : DB) (ids : list string) (c : string) :
  In c (map candidate_id (List.filter (requested ids) (candidates d))) ->
  exists cand, lookup_candidate d c = Some cand
               /\ In cand (List.filter (requested ids) (candidates d)).
Proof.
  intros Hin. apply in_map_iff in Hin. destruct Hin as (x & Hx & Hf).
  apply filter_In in Hf. destruct Hf as [Hxin Hreq].
  unfold lookup_candidate.
  destruct (find _ (candidates d)) as [cand|] eqn:Ef.
  - exists cand. split; [reflexivity|].
    apply find_some in Ef. destruct Ef as [Hc He]. apply String.eqb_eq in He.
    apply filter_In. split; [exact Hc|]. unfold requested in *.
    rewrite He, <- Hx. exact Hreq.
  - exfalso. pose proof (find_none _ _ Ef x Hxin) as Hn. cbn in Hn.
    rewrite Hx, String.eqb_refl in Hn. discriminate.
Qed.

(** X18.  With unique candidate ids, a render request is accepted only if
    it lists at least one candidate and none twice, names a template of the
    configuration and only known aspects, and every listed candidate exists
    and belongs to a video of the user.  It then leaves a pending render row
    with the request's parameters and one message in the queue, and changes
    no candidate and no video. *)
Theorem accepted_render_is_valid (y : option (list string)) (new_id : string)
    (request : RenderRequest) (u : string) (s : Sys) (resp : RenderResponse) :
  unique_ids (db s) ->
  fst (create_render y new_id request u s) = inr resp ->
  let s' := snd (create_render y new_id request u s) in
  req_candidate_ids request <> [] /\ List.NoDup (req_candidate_ids request)
  /\ In (req_template request) (load_templates y)
  /\ (forall a, In a (req_outputs request) -> In a known_aspects)
  /\ (forall c, In c (req_candidate_ids request) ->
        exists cand video,
          lookup_candidate (db s) c = Some cand
          /\ videos (db s) !! candidate_video_id cand = Some video
          /\ video_user_id video = u)
  /\ renders (db s') !! new_id
     = Some {| render_user_id := u; render_params := params_of request;
               render_status := Pending; render_files := ∅ |}
  /\ queue s' = queue s ++ [(new_id, params_of request)]
  /\ candidates (db s') = candidates (db s) /\ videos (db s') = videos (db s).
Proof.
  intros Hu H.
  destruct (create_render_accepted _ _ _ _ _ _ H) as (Hne & Ht & Ho & Hl & Hown & _ & E).
  cbv zeta. rewrite E. clear E H. cbn [db queue].
  destruct (requested_all_found _ _ Hu Hl) as [Hnd Hall].
  split; [exact Hne|]. split; [exact Hnd|]. split; [exact Ht|].
  split; [rewrite List.Forall_forall in Ho; exact Ho|].
  split; [|split; [apply lookup_insert_eq|repeat split]].
  intros c Hc. destruct (lookup_candidate_found _ _ _ (Hall c Hc)) as (cand & Hf & Hin).
  rewrite List.Forall_forall in Hown. specialize (Hown cand Hin).
  unfold owned in Hown.
  destruct (videos (db s) !! candidate_video_id cand) as [video|] eqn:Ev; [|discriminate].
  exists cand, video. apply String.eqb_eq in Hown. split; [exact Hf|split; [exact Ev|exact Hown]].
Qed.

Lemma analysed_unique_ids : unique_ids Scenario.analysed.
Proof. unfold unique_ids. cbn. constructor; [intros []|constructor]. Qed.

Lemma calm_renders_well : renders_well Scenario.calm.
Proof. repeat split. Qed.

Lemma accepted_render_is_valid_witness :
  unique_ids (db Cases.render_desk)
  /\ fst (create_render None "r2" Cases.two_outputs "alice" Cases.render_desk)
     = inr Cases.render_response
  /\ queue (snd (create_render None "r2" Cases.two_outputs "alice" Cases.render_desk))
     = [("r2", params_of Cases.two_outputs)].
Proof.
  assert (H : fst (create_render None "r2" Cases.two_outputs "alice" Cases.render_desk)
              = inr Cases.render_response) by (vm_compute; reflexivity).
  destruct (accepted_render_is_valid None "r2" Cases.two_outputs "alice"
              Cases.render_desk _ analysed_unique_ids H)
    as (_ & _ & _ & _ & _ & _ & Hq & _).
  exact (conj analysed_unique_ids (conj H Hq)).
Defined.

(** A loop whose turns do not raise does not raise. *)
Lemma for_each_returns {S X} (body : S -> X -> S * option Py.exn) xs :
  (forall s x, In x xs -> snd (body s x) = None) ->
  forall s, snd (Py.for_each body xs s) = None.
Proof.
  induction xs as [|x xs IH]; intros Hbody s; simpl; [reflexivity|].
  pose proof (Hbody s x (or_introl eq_refl)) as H1.
  destruct (body s x) as [s' [e|]]; simpl in H1; [discriminate|].
  apply IH. intros s0 x0 Hin. apply Hbody. right. exact Hin.
Qed.

Lemma render_aspect_returns w rid cfg cand_id cand vp caps st aspect :
  renders_well w -> In aspect known_aspects ->
  snd (render_aspect w rid cfg cand_id cand vp caps st aspect) = None.
Proof.
  intros (_ & Hr & Hu & Ho) Ha. unfold render_aspect, render, upload_to_s3.
  cbn [call_aspect]. rewrite bool_decide_eq_true_2 by (apply list_elem_of_In, Ha).
  rewrite Hr, Hu. cbn [snd]. apply Ho.
Qed.

Lemma render_candidate_returns w d rid cfg st cand_id :
  renders_well w ->
  (forall a, In a (set_outputs cfg) -> In a known_aspects) ->
  (forall cand, lookup_candidate d cand_id = Some cand ->
                is_Some (videos d !! candidate_video_id cand)) ->
  snd (render_candidate w d rid cfg st cand_id) = None.
Proof.
  intros Hw Ha Hv. unfold render_candidate.
  destruct (lookup_candidate d cand_id) as [cand|]; [|reflexivity].
  destruct (Hv cand eq_refl) as [video Ev]. rewrite Ev.
  assert (Hd : (if bool_decide ("/tmp/videos/" +:+ candidate_video_id cand +:+ ".mp4"
                                   ∈ files_on_disk st)
                then None
                else download_from_s3 w (video_src_url video)
                       ("/tmp/videos/" +:+ candidate_video_id cand +:+ ".mp4")) = None).
  { destruct (bool_decide _); [reflexivity|]. apply Hw. }
  rewrite Hd. apply for_each_returns. intros s a Hin.
  apply render_aspect_returns; auto.
Qed.

(** The files of a run that returns: one entry for each listed candidate
    that exists and each requested aspect, holding the URL of the object
    uploaded for the pair. *)
Lemma returned_files w rid params d ids files :
  is_Some (renders d !! rid) ->
  candidate_ids params = Some ids ->
  run_result (render_clips_task w rid params d) = inr files ->
  (forall c a, has_entry files c a <->
     In c ids /\ is_Some (lookup_candidate d c) /\ In a (set_outputs (settings_of params)))
  /\ (forall c a m url, files !! c = Some m -> m !! a = Some url ->
        url = "s3://" +:+ s3_bucket w +:+ "/" +:+ s3_key rid c a)
  /\ exists r, renders d !! rid = Some r
       /\ renders (run_db (render_clips_task w rid params d)) !! rid
          = Some (with_render Completed (FOutputs <$> files)
                    (with_render Processing (render_files r) r)).
Proof.
  intros [r Hr] Hids. unfold render_clips_task. rewrite Hr.
  destruct (render_body w _ rid params) as [st [e|]] eqn:E; cbn [run_result run_db];
    [discriminate|].
  intros Hf; injection Hf as <-.
  unfold render_body in E. rewrite Hids in E.
  split; [|split].
  - intros c a. rewrite (RendererFacts.render_candidates_done _ _ _ _ _ _ _ E c a).
    unfold has_entry at 1. cbn [rendered_files].
    split; [intros [(m & u & Hm & _)|H]; [rewrite lookup_empty in Hm; discriminate|exact H]|].
    intros H; right; exact H.
  - assert (Hrec : recorded_uploaded w rid st).
    { change st with (fst (st, @None Py.exn)). rewrite <- E.
      apply for_each_invariant;
        [intros s x _; apply RendererFacts.render_candidate_recorded|].
      intros c a m url Hc. cbn in Hc. rewrite lookup_empty in Hc. discriminate. }
    intros c a m url Hm Hu. exact (proj2 (Hrec c a m url Hm Hu)).
  - exists r. split; [reflexivity|].
    unfold mark_processing, set_renders. cbn [renders].
    rewrite lookup_alter_eq, lookup_alter_eq, Hr. reflexivity.
Qed.

Lemma render_clips_task_returns w rid params d ids :
  renders_well w ->
  is_Some (renders d !! rid) ->
  candidate_ids params = Some ids ->
  (forall a, In a (set_outputs (settings_of params)) -> In a known_aspects) ->
  (forall c cand, In c ids -> lookup_candidate d c = Some cand ->
                  is_Some (videos d !! candidate_video_id cand)) ->
  exists files, run_result (render_clips_task w rid params d) = inr files.
Proof.
  intros Hw [r Hr] Hids Ha Hv. unfold render_clips_task. rewrite Hr.
  assert (E : snd (render_body w (mark_processing rid d) rid params) = None).
  { unfold render_body. rewrite Hids. apply for_each_returns. intros s c Hc.
    apply render_candidate_returns; [exact Hw|exact Ha|].
    intros cand Hl. apply (Hv c cand Hc Hl). }
  destruct (render_body w _ rid params) as [st [e|]]; [discriminate|].
  eexists. reflexivity.
Qed.

(** X19.  With unique candidate ids and a store and an ffmpeg that do not
    fail, the task run on an accepted render request returns: its files have
    an entry for exactly the requested candidates and aspects, and the render
    row is completed with these files. *)
Theorem accepted_render_completes (w : World) (y : option (list string))
    (new_id : string) (request : RenderRequest) (u : string) (s : Sys)
    (resp : RenderResponse) :
  unique_ids (db s) ->
  renders_well w ->
  fst (create_render y new_id request u s) = inr resp ->
  let s' := snd (create_render y new_id request u s) in
  let run := render_clips_task w new_id (params_of request) (db s') in
  exists files r,
    run_result run = inr files
    /\ (forall c a, has_entry files c a <->
          In c (req_candidate_ids request) /\ In a (req_outputs request))
    /\ renders (run_db run) !! new_id = Some r
    /\ render_status r = Completed /\ render_files r = FOutputs <$> files.
Proof.
  intros Hu Hw H.
  destruct (create_render_accepted _ _ _ _ _ _ H) as (Hne & Ht & Ho & Hl & Hown & _ & E).
  destruct (requested_all_found _ _ Hu Hl) as [Hnd Hall].
  cbv zeta. rewrite E. clear E H. cbn [db].
  set (d' := set_renders _ (db s)).
  assert (Hfound : forall c, In c (req_candidate_ids request) ->
            exists cand, lookup_candidate d' c = Some cand
                         /\ is_Some (videos d' !! candidate_video_id cand)).
  { intros c Hc. destruct (lookup_candidate_found _ _ _ (Hall c Hc)) as (cand & Hf & Hin).
    exists cand. split; [exact Hf|].
    rewrite List.Forall_forall in Hown. specialize (Hown cand Hin).
    unfold owned in Hown. change (videos d') with (videos (db s)).
    destruct (videos (db s) !! candidate_video_id cand); [eauto|discriminate]. }
  assert (Hr : is_Some (renders d' !! new_id)).
  { unfold d', set_renders. cbn [renders]. rewrite lookup_insert_eq. eauto. }
  assert (Hids : candidate_ids (params_of request) = Some (req_candidate_ids request))
    by reflexivity.
  destruct (render_clips_task_returns w new_id (params_of request) d'
              (req_candidate_ids request) Hw Hr Hids) as [files Hfiles].
  - cbn. rewrite List.Forall_forall in Ho. exact Ho.
  - intros c cand Hc Hcand. destruct (Hfound c Hc) as (cand' & Hc' & Hv). congruence.
  - destruct (returned_files w new_id (params_of request) d' _ files Hr Hids Hfiles)
      as (Hentries & _ & r & _ & Hrow).
    exists files. eexists. split; [exact Hfiles|]. split; [|split; [exact Hrow|split; reflexivity]].
    intros c a. rewrite Hentries. cbn [set_outputs settings_of params_of outputs default].
    split; [tauto|]. intros [Hc Ha]. split; [exact Hc|]. split; [|exact Ha].
    destruct (Hfound c Hc) as (cand & Hcand & _). rewrite Hcand. eauto.
Qed.

Lemma accepted_render_completes_witness :
  unique_ids (db Cases.render_desk) /\ renders_well Scenario.calm
  /\ fst (create_render None "r2" Cases.two_outputs "alice" Cases.render_desk)
     = inr Cases.render_response
  /\ exists files,
       run_result
         (render_clips_task Scenario.calm "r2" (params_of Cases.two_outputs)
            (db (snd (create_render None "r2" Cases.two_outputs "alice"
                        Cases.render_desk))))
       = inr files.
Proof.
  assert (H : fst (create_render None "r2" Cases.two_outputs "alice" Cases.render_desk)
              = inr Cases.render_response) by (vm_compute; reflexivity).
  destruct (accepted_render_completes Scenario.calm None "r2" Cases.two_outputs "alice"
              Cases.render_desk _ analysed_unique_ids calm_renders_well H)
    as (files & r & Hrun & _).
  exact (conj analysed_unique_ids
           (conj calm_renders_well (conj H (ex_intro _ files Hrun)))).
Defined.

(** X20.  After a run of the render task that returned, the owner of the
    render downloads the clip of a listed candidate under the aspect as it
    was requested ([9:16], [1:1], [4:5]) and gets the URL of the object
    uploaded for the pair; under any other format name the answer is 404. *)
Theorem download_is_keyed_by_aspect (w : World) (render_id : string)
    (params : RenderParams) (d : DB) (ids : list string) (r : Render)
    (files : gmap string (gmap string string)) :
  renders d !! render_id = Some r ->
  candidate_ids params = Some ids ->
  run_result (render_clips_task w render_id params d) = inr files ->
  let d' := run_db (render_clips_task w render_id params d) in
  let u := render_user_id r in
  (forall c a, In c ids -> is_Some (lookup_candidate d c) ->
     In a (set_outputs (settings_of params)) ->
     download_render render_id c a u d'
     = inr ("s3://" +:+ s3_bucket w +:+ "/" +:+ s3_key render_id c a))
  /\ (forall c format, ~ In format (set_outputs (settings_of params)) ->
        download_render render_id c format u d'
        = inl {| Jobs.status_code := 404;
                 Jobs.detail := "File not found for candidate " +:+ c
                                +:+ " in format " +:+ format |}).
Proof.
  intros Hr Hids Hfiles.
  destruct (returned_files w render_id params d ids files (ex_intro _ r Hr) Hids Hfiles)
    as (Hentries & Hurls & r0 & Hr0 & Hrow).
  rewrite Hr in Hr0. injection Hr0 as <-. cbv zeta.
  assert (Hd : forall c format,
             download_render render_id c format (render_user_id r)
               (run_db (render_clips_task w render_id params d))
             = match files !! c ≫= (fun m => m !! format) with
               | Some file_url => inr file_url
               | None => inl {| Jobs.status_code := 404;
                                Jobs.detail := "File not found for candidate " +:+ c
                                               +:+ " in format " +:+ format |}
               end).
  { intros c format. unfold download_render, own_render. rewrite Hrow.
    unfold with_render. cbn [render_user_id render_status render_files].
    rewrite String.eqb_refl. rewrite bool_decide_eq_true_2 by reflexivity. cbn [negb].
    cbn [render_files]. rewrite lookup_fmap. destruct (files !! c) as [m|]; cbn; [|reflexivity].
    destruct (m !! format); reflexivity. }
  split.
  - intros c a Hc Hl Ha. rewrite Hd.
    destruct (proj2 (Hentries c a) (conj Hc (conj Hl Ha))) as (m & url & Hm & Hurl).
    rewrite Hm. cbn. rewrite Hurl. f_equal. eapply Hurls; eassumption.
  - intros c format Hn. rewrite Hd.
    destruct (files !! c) as [m|] eqn:Hm; cbn; [|reflexivity].
    destruct (m !! format) as [url|] eqn:Hurl; [|reflexivity].
    exfalso. apply Hn.
    assert (He : has_entry files c format) by (exists m, url; auto).
    apply Hentries in He. tauto.
Qed.

Lemma download_is_keyed_by_aspect_witness :
  renders Scenario.analysed !! "r1" = Some Cases.pending_render
  /\ candidate_ids Scenario.two_aspects = Some ["c1"]
  /\ run_result (render_clips_task Scenario.calm "r1" Scenario.two_aspects
                   Scenario.analysed) = inr Cases.calm_files
  /\ download_render "r1" "c1" "9x16" "alice"
       (run_db (render_clips_task Scenario.calm "r1" Scenario.two_aspects
                  Scenario.analysed))
     = inl {| Jobs.status_code := 404;
              Jobs.detail := "File not found for candidate c1 in format 9x16" |}.
Proof.
  assert (H1 : renders Scenario.analysed !! "r1" = Some Cases.pending_render)
    by (vm_compute; reflexivity).
  assert (H2 : candidate_ids Scenario.two_aspects = Some ["c1"]) by reflexivity.
  assert (H3 : run_result (render_clips_task Scenario.calm "r1" Scenario.two_aspects
                             Scenario.analysed) = inr Cases.calm_files)
    by (vm_compute; reflexivity).
  assert (H4 : ~ In "9x16" (set_outputs (settings_of Scenario.two_aspects)))
    by (cbn; intros [H|[H|[]]]; discriminate H).
  exact (conj H1 (conj H2 (conj H3
           (proj2 (download_is_keyed_by_aspect Scenario.calm "r1" Scenario.two_aspects
                     Scenario.analysed ["c1"] Cases.pending_render Cases.calm_files
                     H1 H2 H3) "c1" "9x16" H4)))).
Defined.

(** A new or overwritten row adds at most one active render. *)
Lemma active_renders_insert u k r d :
  (active_renders u (set_renders (insert k r) d) <= S (active_renders u d))%nat.
Proof.
  unfold active_renders, set_renders. cbn [renders].
  rewrite map_filter_insert. destruct (decide (active_render u (k, r))).
  - rewrite map_size_insert. destruct (filter _ _ !! k); unfold id; lia.
  - rewrite map_filter_delete.
    pose proof (map_subseteq_size (delete k (filter (active_render u) (renders d)))
                  (filter (active_render u) (renders d)) (delete_subseteq _ _)).
    lia.
Qed.

Lemma create_render_rejected y new_id request u s e :
  fst (create_render y new_id request u s) = inl e ->
  snd (create_render y new_id request u s) = s.
Proof.
  unfold create_render.
  destruct (req_candidate_ids request); [reflexivity|].
  destruct (negb (bool_decide _)); [reflexivity|].
  destruct (negb (forallb _ _)); [reflexivity|].
  destruct (negb (_ =? _)%nat); [reflexivity|].
  destruct (find _ _); [reflexivity|].
  destruct (_ <=? _)%nat; [reflexivity|discriminate].
Qed.

Lemma create_render_grows y new_id request u s :
  (active_renders u (db (snd (create_render y new_id request u s)))
   <= S (active_renders u (db s)))%nat.
Proof.
  destruct (fst (create_render y new_id request u s)) as [e|resp] eqn:E.
  - rewrite (create_render_rejected _ _ _ _ _ _ E). lia.
  - destruct (create_render_accepted _ _ _ _ _ _ E) as (_ & _ & _ & _ & _ & _ & ->).
    cbn [db]. apply active_renders_insert.
Qed.

Lemma batch_loop_grows y uuid4 u requests : forall i s,
  length (fst (batch_loop y uuid4 u i requests s)) = length requests
  /\ (active_renders u (db (snd (batch_loop y uuid4 u i requests s)))
      <= active_renders u (db s) + length requests)%nat.
Proof.
  induction requests as [|r rest IH]; intros i s; cbn [batch_loop].
  - cbn. split; [reflexivity|lia].
  - pose proof (create_render_grows y (uuid4 i) r u s) as H1.
    destruct (create_render y (uuid4 i) r u s) as [res s1]. cbn [snd] in H1.
    destruct (IH (S i) s1) as [L H2].
    destruct (batch_loop y uuid4 u (S i) rest s1) as [results s2].
    cbn [fst snd length] in *. split; [now rewrite L|lia].
Qed.

(** X21.  A render request is accepted only while the user has fewer than
    [MAX_CONCURRENT] active renders, and a batch only if its requests fit
    under the cap together; either way the user has at most [MAX_CONCURRENT]
    active renders afterwards.  A rejected request or batch changes nothing,
    and a batch that is run gives one result per request. *)
Theorem accepted_renders_stay_under_the_cap (y : option (list string))
    (uuid4 : nat -> string) (new_id : string) (request : RenderRequest)
    (requests : list RenderRequest) (u : string) (s : Sys) :
  match fst (create_render y new_id request u s) with
  | inr _ =>
      (active_renders u (db s) < MAX_CONCURRENT)%nat
      /\ (active_renders u (db (snd (create_render y new_id request u s)))
          <= MAX_CONCURRENT)%nat
  | inl _ => snd (create_render y new_id request u s) = s
  end
  /\ match fst (batch_render y uuid4 requests u s) with
     | inr results =>
         length results = length requests
         /\ (active_renders u (db s) + length requests <= MAX_CONCURRENT)%nat
         /\ (active_renders u (db (snd (batch_render y uuid4 requests u s)))
             <= MAX_CONCURRENT)%nat
     | inl _ => snd (batch_render y uuid4 requests u s) = s
     end.
Proof.
  split.
  - destruct (fst (create_render y new_id request u s)) as [e|resp] eqn:E.
    + apply (create_render_rejected _ _ _ _ _ _ E).
    + pose proof (create_render_grows y new_id request u s).
      destruct (create_render_accepted _ _ _ _ _ _ E) as (_ & _ & _ & _ & _ & Ha & _).
      split; [exact Ha|]. unfold MAX_CONCURRENT in *. lia.
  - unfold batch_render.
    destruct (5 <? length requests)%nat eqn:E5; [reflexivity|].
    destruct (MAX_CONCURRENT <? _)%nat eqn:Ec; [reflexivity|].
    destruct (batch_loop_grows y uuid4 u requests 0 s) as [L H].
    destruct (batch_loop y uuid4 u 0 requests s) as [results s'].
    cbn [fst snd] in *. apply Nat.ltb_ge in E5, Ec.
    split; [exact L|]. split; [exact Ec|]. lia.
Qed.

(** X28.  Once its owner has deleted a render, the row is gone and the other
    render rows are as before; the user has no more active renders than
    before.  The render task that was queued for it then raises without
    uploading anything and leaves the database as it is, and a download of
    the deleted render is answered with 404. *)
Theorem deleted_render_is_not_rendered (w : World) (render_id u : string)
    (params : RenderParams) (d : DB) :
  fst (delete_render render_id u d) = inr tt ->
  let d' := snd (delete_render render_id u d) in
  let run := render_clips_task w render_id params d' in
  (exists r, renders d !! render_id = Some r /\ render_user_id r = u)
  /\ renders d' !! render_id = None
  /\ (forall k, k <> render_id -> renders d' !! k = renders d !! k)
  /\ (active_renders u d' <= active_renders u d)%nat
  /\ (run_db run = d' /\ run_uploaded run = [] /\ exists e, run_result run = inl e)
  /\ forall c format, download_render render_id c format u d' = inl not_found.
Proof.
  unfold delete_render, own_render.
  destruct (renders d !! render_id) as [r|] eqn:Hr; [|discriminate].
  destruct (String.eqb (render_user_id r) u) eqn:Hu; [|discriminate].
  intros _. cbv zeta. cbn [snd].
  assert (Hd : renders (set_renders (delete render_id) d) !! render_id = None)
    by apply lookup_delete_eq.
  split; [exists r; split; [reflexivity|apply String.eqb_eq, Hu]|].
  split; [exact Hd|]. split; [|split; [|split]].
  - intros k Hk. apply lookup_delete_ne. congruence.
  - unfold active_renders, set_renders. cbn [renders]. rewrite map_filter_delete.
    apply map_subseteq_size, delete_subseteq.
  - unfold render_clips_task. rewrite Hd. cbn. eauto.
  - intros c format. unfold download_render, own_render. rewrite Hd. reflexivity.
Qed.

Lemma deleted_render_is_not_rendered_witness :
  fst (delete_render "r1" "alice" Scenario.analysed) = inr tt
  /\ renders (snd (delete_render "r1" "alice" Scenario.analysed)) !! "r1" = None.
Proof.
  assert (H : fst (delete_render "r1" "alice" Scenario.analysed) = inr tt)
    by (vm_compute; reflexivity).
  exact (conj H (proj1 (proj2 (deleted_render_is_not_rendered Scenario.calm "r1" "alice"
                                 Scenario.two_aspects Scenario.analysed H)))).
Defined.

End RendersFacts.

(** ** Motion scores *)

Module MotionFacts.
Import Motion MotionInv PyFacts Scoring.

Lemma Qsum_from (l : list Q) : forall a, fold_left Qplus l a == a + Py.Qsum l.
Proof.
  unfold Py.Qsum. induction l as [|x l IH]; intros a; simpl; [lra|].
  rewrite (IH (a + x)), (IH (0 + x)). lra.
Qed.

Lemma Qsum_nonneg (l : list Q) : Forall (fun x => 0 <= x) l -> 0 <= Py.Qsum l.
Proof.
  induction 1 as [|x l Hx _ IH]; [unfold Py.Qsum; simpl; lra|].
  unfold Py.Qsum. simpl. rewrite Qsum_from. lra.
Qed.

Lemma mean_nonneg (l : list Q) : Forall (fun x => 0 <= x) l -> 0 <= mean l.
Proof.
  intros H. unfold mean. destruct l as [|x l].
  - vm_compute. discriminate.
  - apply Qle_shift_div_l.
    + change 0 with (inject_Z 0). rewrite <- Zlt_Qlt. cbn [length]. lia.
    + pose proof (Qsum_nonneg _ H). lra.
Qed.

Lemma max2_ge_r x y : y <= Py.max2 x y.
Proof.
  unfold Py.max2. destruct (Py.Qltb x y) eqn:E; [lra|apply Qltb_ge in E; exact E].
Qed.

(** The maximum is an element, and no element exceeds it. *)
Lemma fold_max_spec (l : list Q) : forall x,
  (fold_left Py.max2 l x = x \/ In (fold_left Py.max2 l x) l)
  /\ x <= fold_left Py.max2 l x
  /\ Forall (fun y => y <= fold_left Py.max2 l x) l.
Proof.
  induction l as [|y l IH]; intros x; simpl.
  - split; [left; reflexivity|]. split; [lra|constructor].
  - destruct (IH (Py.max2 x y)) as (Hin & Hge & Hall).
    pose proof (max2_ge_l x y). pose proof (max2_ge_r x y).
    split; [|split; [lra|constructor; [lra|exact Hall]]].
    destruct Hin as [E|Hin]; [|right; right; exact Hin].
    rewrite E. unfold Py.max2. destruct (Py.Qltb x y); [right; left|left]; reflexivity.
Qed.

Lemma array_max_spec (l : list Q) m :
  array_max l = Some m -> In m l /\ Forall (fun y => y <= m) l.
Proof.
  destruct l as [|x l]; [discriminate|]. cbn. intros E; injection E as <-.
  destruct (fold_max_spec l x) as (Hin & Hge & Hall).
  split; [destruct Hin as [->|Hin]; [left; reflexivity|right; exact Hin]|].
  constructor; assumption.
Qed.

Lemma normalize_unit (scores l : list Q) :
  Forall (fun x => 0 <= x) scores ->
  normalize scores = inr l ->
  l <> [] /\ Forall in_unit l
  /\ (Exists (fun x => 0 < x) l -> Exists (fun x => x == 1) l).
Proof.
  intros Hpos. unfold normalize.
  destruct (array_max scores) as [m|] eqn:Em; [|discriminate].
  destruct (array_max_spec _ _ Em) as [Hin Hall].
  destruct (Py.Qltb 0 m) eqn:E; intros El; injection El as <-.
  - apply Qltb_lt in E. split; [|split].
    + destruct scores; [destruct Hin|discriminate].
    + apply List.Forall_forall. intros y Hy. apply in_map_iff in Hy.
      destruct Hy as (x & <- & Hx).
      rewrite List.Forall_forall in Hpos, Hall. specialize (Hpos x Hx). specialize (Hall x Hx).
      split; [apply Qle_shift_div_l; lra|apply Qle_shift_div_r; lra].
    + intros _. apply List.Exists_exists. exists (m / m).
      split; [apply in_map_iff; exists m; auto|field; lra].
  - apply Qltb_ge in E. split; [|split].
    + destruct scores; [discriminate|discriminate].
    + apply List.Forall_forall. intros x Hx.
      rewrite List.Forall_forall in Hpos, Hall. specialize (Hpos x Hx). specialize (Hall x Hx).
      split; lra.
    + intros Hex. apply List.Exists_exists in Hex. destruct Hex as (x & Hx & Hx0).
      rewrite List.Forall_forall in Hall. specialize (Hall x Hx). lra.
Qed.

Section Frames.
Variable gray : Type.
Variable mean_absdiff : gray -> gray -> Q.
Hypothesis absdiff_nonneg : forall g p, 0 <= mean_absdiff g p.

Lemma motion_frame_nonneg fps s frame :
  nonneg_scores s -> nonneg_scores (fst (motion_frame gray mean_absdiff fps s frame)).
Proof.
  intros [Hm Hd]. unfold motion_frame.
  destruct (_ =? _)%nat; [|split; assumption].
  destruct (prev_gray s); [|split; assumption].
  destruct (Qeq_bool fps 0); [split; assumption|].
  destruct (_ <? _)%Z; split; cbn [fst motion_scores second_diffs]; try assumption.
  - apply Forall_app. split; [exact Hm|]. constructor; [|constructor].
    destruct (second_diffs s) eqn:E; [lra|]. rewrite <- E in *. apply mean_nonneg, Hd.
  - constructor; [apply absdiff_nonneg|constructor].
  - apply Forall_app. split; [exact Hd|]. constructor; [apply absdiff_nonneg|constructor].
Qed.

Lemma final_scores_nonneg (s : MotionLoop gray) :
  nonneg_scores s -> Forall (fun x => 0 <= x) (final_scores s).
Proof.
  intros [Hm Hd]. unfold final_scores.
  destruct (second_diffs s) eqn:E; [exact Hm|]. rewrite <- E in *.
  apply Forall_app. split; [exact Hm|]. constructor; [apply mean_nonneg, Hd|constructor].
Qed.

End Frames.

(** X22.  When frame differences are not negative and the motion analysis
    returns, it returns at least one score, every score lies between 0 and
    1, and unless all scores are 0 one of them is 1. *)
Theorem motion_scores_are_normalised (gray : Type) (mean_absdiff : gray -> gray -> Q)
    (fps : Q) (frames : list gray) (l : list Q) :
  (forall g p, 0 <= mean_absdiff g p) ->
  compute_motion_scores gray mean_absdiff fps frames = inr l ->
  l <> [] /\ Forall in_unit l
  /\ (Exists (fun x => 0 < x) l -> Exists (fun x => x == 1) l).
Proof.
  intros Hpos. unfold compute_motion_scores.
  pose proof (for_each_invariant nonneg_scores (motion_frame gray mean_absdiff fps) frames
                (fun s x _ => motion_frame_nonneg gray mean_absdiff Hpos fps s x)
                motion_init (conj (List.Forall_nil _) (List.Forall_nil _))) as H.
  destruct (Py.for_each _ frames motion_init) as [s [e|]]; [discriminate|].
  cbn [fst] in H. apply normalize_unit, final_scores_nonneg, H.
Qed.

Lemma motion_scores_are_normalised_witness :
  (forall g p, 0 <= Cases.brightness g p)
  /\ compute_motion_scores Q Cases.brightness 1 Cases.flicker = inr Cases.flicker_scores
  /\ Forall in_unit Cases.flicker_scores.
Proof.
  assert (H1 : forall g p, 0 <= Cases.brightness g p)
    by (intros g p; apply Qabs_nonneg).
  assert (H2 : compute_motion_scores Q Cases.brightness 1 Cases.flicker
               = inr Cases.flicker_scores) by (vm_compute; reflexivity).
  exact (conj H1 (conj H2
           (proj1 (proj2 (motion_scores_are_normalised Q Cases.brightness 1
                            Cases.flicker Cases.flicker_scores H1 H2))))).
Defined.

Lemma sampled_index (c : nat) :
  (c mod sample_rate =? 0)%nat = true -> c = 0%nat \/ (5 <= c)%nat.
Proof.
  unfold sample_rate. destruct c as [|[|[|[|[|c]]]]]; cbn; intros H;
    first [left; reflexivity | discriminate | right; lia].
Qed.

Lemma unsampled_index (c : nat) :
  (c mod sample_rate =? 0)%nat = false -> c <> 0%nat /\ c <> 5%nat.
Proof.
  unfold sample_rate. intros H. split; intros ->; cbn in H; discriminate.
Qed.

Section Frames.
Variable gray : Type.
Variable mean_absdiff : gray -> gray -> Q.
Variable fps : Q.

(** Before the sixth frame no frame rate is needed. *)
Lemma motion_frame_early s frame :
  counted s -> (frame_count s < 5)%nat ->
  exists s', motion_frame gray mean_absdiff fps s frame = (s', None)
             /\ counted s' /\ frame_count s' = S (frame_count s).
Proof.
  intros (H0 & H1 & H5 & H6) Hlt. unfold motion_frame.
  destruct (H5 ltac:(lia)) as [Hm Hd].
  destruct (_ =? _)%nat eqn:E.
  - apply sampled_index in E. destruct E as [E|E]; [|lia].
    rewrite (H0 E). eexists. split; [reflexivity|]. split; [|reflexivity].
    unfold counted. cbn [frame_count prev_gray motion_scores second_diffs].
    repeat split; eauto; lia.
  - eexists. split; [reflexivity|]. split; [|reflexivity].
    unfold counted. cbn [frame_count prev_gray motion_scores second_diffs].
    split; [lia|]. split; [intros _; apply H1; apply unsampled_index in E; lia|].
    split; [auto|lia].
Qed.

Lemma motion_loop_early frames : forall s,
  counted s -> (frame_count s + length frames <= 5)%nat ->
  exists s', Py.for_each (motion_frame gray mean_absdiff fps) frames s = (s', None)
             /\ counted s' /\ frame_count s' = (frame_count s + length frames)%nat.
Proof.
  induction frames as [|f frames IH]; intros s Hs Hlen; cbn [Py.for_each length] in *.
  - exists s. split; [reflexivity|]. split; [exact Hs|lia].
  - destruct (motion_frame_early s f Hs ltac:(lia)) as (s1 & E1 & H1 & C1). rewrite E1.
    destruct (IH s1 H1 ltac:(lia)) as (s2 & E2 & H2 & C2).
    exists s2. split; [exact E2|]. split; [exact H2|lia].
Qed.

(** With a frame rate other than zero no turn raises. *)
Lemma motion_frame_counted s frame :
  Qeq_bool fps 0 = false -> counted s ->
  exists s', motion_frame gray mean_absdiff fps s frame = (s', None)
             /\ counted s' /\ frame_count s' = S (frame_count s).
Proof.
  intros Hfps (H0 & H1 & H5 & H6). unfold motion_frame. rewrite Hfps.
  destruct (_ =? _)%nat eqn:E.
  - apply sampled_index in E.
    destruct (prev_gray s) as [p|] eqn:Ep.
    + assert (Hc : (5 <= frame_count s)%nat).
      { destruct E as [E|E]; [|exact E]. specialize (H0 E). congruence. }
      destruct (_ <? _)%Z; eexists; (split; [reflexivity|]); (split; [|reflexivity]);
        unfold counted; cbn [frame_count prev_gray motion_scores second_diffs];
        (split; [lia|]); (split; [eauto|]); (split; [lia|]); intros _.
      * discriminate.
      * destruct (second_diffs s); discriminate.
    + assert (Hc : frame_count s = 0%nat).
      { destruct (Nat.eq_dec (frame_count s) 0%nat) as [Hz|Hz]; [exact Hz|].
        destruct (H1 ltac:(lia)) as [x Hx]. discriminate. }
      eexists. split; [reflexivity|]. split; [|reflexivity].
      unfold counted; cbn [frame_count prev_gray motion_scores second_diffs].
      split; [lia|]. split; [eauto|]. split; [intros _; apply H5; lia|lia].
  - apply unsampled_index in E.
    eexists. split; [reflexivity|]. split; [|reflexivity].
    unfold counted; cbn [frame_count prev_gray motion_scores second_diffs].
    split; [lia|]. split; [intros _; apply H1; lia|].
    split; [intros ?; apply H5; lia|intros ?; apply H6; lia].
Qed.

Lemma motion_loop_counted frames : forall s,
  Qeq_bool fps 0 = false -> counted s ->
  exists s', Py.for_each (motion_frame gray mean_absdiff fps) frames s = (s', None)
             /\ counted s' /\ frame_count s' = (frame_count s + length frames)%nat.
Proof.
  induction frames as [|f frames IH]; intros s Hfps Hs; cbn [Py.for_each length].
  - exists s. split; [reflexivity|]. split; [exact Hs|lia].
  - destruct (motion_frame_counted s f Hfps Hs) as (s1 & E1 & H1 & C1). rewrite E1.
    destruct (IH s1 Hfps H1) as (s2 & E2 & H2 & C2).
    exists s2. split; [exact E2|]. split; [exact H2|lia].
Qed.

Lemma for_each_app {S X} (body : S -> X -> S * option Py.exn) xs ys : forall s,
  Py.for_each body (xs ++ ys) s
  = match Py.for_each body xs s with
    | (s', None) => Py.for_each body ys s'
    | stopped => stopped
    end.
Proof.
  induction xs as [|x xs IH]; intros s; cbn; [reflexivity|].
  destruct (body s x) as [s' [e|]]; [reflexivity|apply IH].
Qed.

End Frames.

Lemma counted_init gray : counted (@motion_init gray).
Proof. unfold counted. cbn. repeat split; auto; lia. Qed.

(** X23.  The motion analysis returns exactly when the video has at least
    six frames and a frame rate other than zero.  With five frames or fewer
    no difference is ever taken and the maximum of the empty array raises;
    with six frames or more and a frame rate of zero the division raises. *)
Theorem motion_analysis_needs_six_frames (gray : Type)
    (mean_absdiff : gray -> gray -> Q) (fps : Q) (frames : list gray) :
  let result := compute_motion_scores gray mean_absdiff fps frames in
  ((exists l, result = inr l) <-> (6 <= length frames)%nat /\ ~ fps == 0)
  /\ ((length frames <= 5)%nat ->
      result = inl "zero-size array to reduction operation maximum which has no identity")
  /\ ((6 <= length frames)%nat -> fps == 0 -> result = inl "float division by zero").
Proof.
  cbv zeta.
  assert (Hshort : (length frames <= 5)%nat ->
            compute_motion_scores gray mean_absdiff fps frames
            = inl "zero-size array to reduction operation maximum which has no identity").
  { intros Hlen. unfold compute_motion_scores.
    destruct (motion_loop_early gray mean_absdiff fps frames motion_init
                (counted_init gray) Hlen) as (s & E & (_ & _ & H5 & _) & C).
    rewrite E. cbn in C. destruct (H5 ltac:(lia)) as [Hm Hd].
    unfold final_scores. rewrite Hd, Hm. reflexivity. }
  assert (Hzero : (6 <= length frames)%nat -> fps == 0 ->
            compute_motion_scores gray mean_absdiff fps frames
            = inl "float division by zero").
  { intros Hlen Hfps. unfold compute_motion_scores.
    rewrite <- (firstn_skipn 5 frames), for_each_app.
    destruct (motion_loop_early gray mean_absdiff fps (firstn 5 frames) motion_init
                (counted_init gray)) as (s & E & (_ & H1 & _ & _) & C).
    { cbn. rewrite length_firstn. lia. }
    rewrite E. cbn in C. rewrite length_firstn, Nat.min_l in C by lia.
    destruct (skipn 5 frames) as [|f rest] eqn:Es.
    { apply (f_equal (@length gray)) in Es. rewrite length_skipn in Es. cbn in Es. lia. }
    cbn [Py.for_each]. unfold motion_frame. rewrite C. cbn [Nat.modulo Nat.eqb].
    change (5 mod sample_rate =? 0)%nat with true. cbv iota.
    destruct (H1 ltac:(lia)) as [p ->].
    apply Qeq_bool_iff in Hfps. rewrite Hfps. reflexivity. }
  split; [|split; [exact Hshort|exact Hzero]].
  split.
  - intros [l Hl].
    destruct (Nat.le_gt_cases 6 (length frames)) as [H6|H5].
    + split; [exact H6|]. intros Hz. rewrite (Hzero H6 Hz) in Hl. discriminate.
    + rewrite Hshort in Hl by lia. discriminate.
  - intros [H6 Hfps]. unfold compute_motion_scores.
    assert (Hf : Qeq_bool fps 0 = false).
    { apply not_true_iff_false. intros H. apply Qeq_bool_iff in H. contradiction. }
    destruct (motion_loop_counted gray mean_absdiff fps frames motion_init Hf
                (counted_init gray)) as (s & E & (_ & _ & _ & Hd) & C).
    rewrite E. cbn in C. unfold final_scores, normalize.
    destruct (second_diffs s) as [|x xs] eqn:Ed; [exfalso; apply Hd; [lia|reflexivity]|].
    destruct (array_max _) as [m|] eqn:Em.
    + destruct (Py.Qltb 0 m); eauto.
    + exfalso. destruct (motion_scores s); discriminate.
Qed.

End MotionFacts.

(** ** The URLs of the store *)

Module StoreFacts.
Import Models Env S3 Videos.

Lemma remove_absent old s : Py.contains old s = false -> remove old s = s.
Proof.
  unfold remove. induction s as [|c s IH]; [reflexivity|].
  cbn [Py.contains remove_from]. intros H. apply orb_false_iff in H.
  destruct H as [Hp Hc]. rewrite Hp, (IH Hc). reflexivity.
Qed.

Lemma split_at_first_slash bucket key :
  Py.contains "/" bucket = false ->
  split_once "/" (bucket +:+ "/" +:+ key) = (bucket, Some key).
Proof.
  change ("/" +:+ key) with (String "/"%char key).
  induction bucket as [|c bucket IH]; [reflexivity|].
  cbn [Py.contains]. intros H.
  apply orb_false_iff in H. destruct H as [Hp Hc].
  destruct (Ascii.eqb c "/") eqn:E.
  - apply Ascii.eqb_eq in E. subst c. cbn in Hp. destruct bucket; discriminate.
  - change (String c bucket +:+ String "/"%char key)
      with (String c (bucket +:+ String "/"%char key)).
    cbn [split_once]. rewrite E, (IH Hc). reflexivity.
Qed.

Lemma parse_s3_scheme b0 bucket key :
  Py.contains "s3://" (bucket +:+ "/" +:+ key) = false ->
  Py.contains "/" bucket = false ->
  parse_s3_url b0 ("s3://" +:+ bucket +:+ "/" +:+ key) = (bucket, key).
Proof.
  intros Hs Hb. unfold parse_s3_url.
  change (String.prefix "s3://" ("s3://" +:+ bucket +:+ "/" +:+ key)) with
    (String.prefix EmptyString (bucket +:+ "/" +:+ key)).
  assert (Hp : String.prefix EmptyString (bucket +:+ "/" +:+ key) = true)
    by (destruct (bucket +:+ "/" +:+ key); reflexivity).
  rewrite Hp.
  assert (Hr : remove "s3://" ("s3://" +:+ bucket +:+ "/" +:+ key)
               = bucket +:+ "/" +:+ key).
  { unfold remove.
    change (remove_from "s3://" 0 ("s3://" +:+ bucket +:+ "/" +:+ key))
      with (if String.prefix EmptyString (bucket +:+ "/" +:+ key)
            then remove_from "s3://" 0 (bucket +:+ "/" +:+ key)
            else String "s" (remove_from "s3://" 0
                               ("3://" +:+ bucket +:+ "/" +:+ key))).
    rewrite Hp. apply remove_absent, Hs. }
  rewrite Hr, split_at_first_slash by exact Hb. reflexivity.
Qed.

(** X24.  The URL [upload_to_s3] returns parses back to the bucket and the
    key of the upload, as long as the bucket name has no slash and [s3://]
    does not occur inside the bucket and key. *)
Theorem uploaded_url_parses_back (w : World) (local_path s3_key url : string) :
  upload_to_s3 w local_path s3_key = inr url ->
  Py.contains "s3://" (s3_bucket w +:+ "/" +:+ s3_key) = false ->
  Py.contains "/" (s3_bucket w) = false ->
  parse_s3_url (s3_bucket w) url = (s3_bucket w, s3_key).
Proof.
  unfold upload_to_s3. destruct (s3_upload_file w local_path s3_key); [discriminate|].
  intros E; injection E as <-. apply parse_s3_scheme.
Qed.

Lemma uploaded_url_parses_back_witness :
  upload_to_s3 Scenario.calm "/tmp/renders/c1_9x16.mp4" "renders/r1/c1_9x16.mp4"
  = inr "s3://anime-clips/renders/r1/c1_9x16.mp4"
  /\ parse_s3_url (s3_bucket Scenario.calm) "s3://anime-clips/renders/r1/c1_9x16.mp4"
     = (s3_bucket Scenario.calm, "renders/r1/c1_9x16.mp4").
Proof.
  assert (H : upload_to_s3 Scenario.calm "/tmp/renders/c1_9x16.mp4"
                "renders/r1/c1_9x16.mp4"
              = inr "s3://anime-clips/renders/r1/c1_9x16.mp4") by reflexivity.
  exact (conj H (uploaded_url_parses_back Scenario.calm _ _ _ H eq_refl eq_refl)).
Defined.

Lemma ext_of_allowed ct :
  In ct allowed_types -> (ext_of ct = "mp4" <-> ct = "video/mp4").
Proof.
  unfold allowed_types. cbn [In].
  intros [<-|[<-|[<-|[<-|[<-|[]]]]]]; vm_compute; split; intros H;
    first [reflexivity | discriminate].
Qed.

Lemma upload_key_ext u id ct ct' :
  upload_key u id ct = upload_key u id ct' <-> ext_of ct = ext_of ct'.
Proof.
  unfold upload_key. split; [|intros ->; reflexivity].
  intros H. repeat apply String.app_inj in H. exact H.
Qed.

(** X25.  After an accepted upload initialisation, the source URL that
    [create_video] records for the upload parses to the bucket [anime-clips]
    and the key with the extension [mp4]; this is the key the upload URL was
    signed for exactly when the content type is [video/mp4]. *)
Theorem recorded_source_is_the_mp4_key (presign : string -> string -> Py.exn + string)
    (new_id video_id u : string) (upload_data : UploadInit)
    (resp : UploadInitResponse) (d : DB) (S3_BUCKET : string) :
  initialize_upload presign new_id upload_data u = inr resp ->
  Py.contains "s3://" ("anime-clips" +:+ "/" +:+ upload_key u new_id "video/mp4") = false ->
  let signed := upload_key u new_id (content_type upload_data) in
  upload_id resp = new_id
  /\ presign signed (content_type upload_data) = inr (upload_url resp)
  /\ (exists v, videos (create_video video_id (upload_id resp) u d) !! video_id = Some v
                /\ video_user_id v = u
                /\ parse_s3_url S3_BUCKET (video_src_url v)
                   = ("anime-clips", upload_key u new_id "video/mp4"))
  /\ (signed = upload_key u new_id "video/mp4" <-> content_type upload_data = "video/mp4").
Proof.
  unfold initialize_upload.
  destruct (_ <? _)%Z; [discriminate|].
  destruct (negb (bool_decide _)) eqn:Ea; [discriminate|].
  destruct (presign _ _) as [e|signed_url] eqn:Ep; [discriminate|].
  intros E; injection E as <-. intros Hs. cbv zeta. cbn [upload_id upload_url].
  split; [reflexivity|]. split; [reflexivity|]. split.
  - eexists. unfold create_video, set_videos. cbn [videos]. rewrite lookup_insert_eq.
    split; [reflexivity|]. cbn [video_user_id video_src_url]. split; [reflexivity|].
    change (source_url u new_id)
      with ("s3://" +:+ "anime-clips" +:+ "/" +:+ upload_key u new_id "video/mp4").
    apply parse_s3_scheme; [exact Hs|reflexivity].
  - rewrite upload_key_ext. apply negb_false_iff, bool_decide_eq_true in Ea.
    change (ext_of "video/mp4") with "mp4".
    apply ext_of_allowed, list_elem_of_In, Ea.
Qed.

Lemma recorded_source_is_the_mp4_key_witness :
  initialize_upload Cases.presign "u1" Cases.matroska "alice"
  = inr Cases.matroska_response
  /\ Py.contains "s3://" ("anime-clips" +:+ "/" +:+ upload_key "alice" "u1" "video/mp4")
     = false
  /\ (upload_key "alice" "u1" (content_type Cases.matroska)
      = upload_key "alice" "u1" "video/mp4"
      <-> content_type Cases.matroska = "video/mp4").
Proof.
  assert (H1 : initialize_upload Cases.presign "u1" Cases.matroska "alice"
               = inr Cases.matroska_response) by (vm_compute; reflexivity).
  assert (H2 : Py.contains "s3://"
                 ("anime-clips" +:+ "/" +:+ upload_key "alice" "u1" "video/mp4") = false)
    by (vm_compute; reflexivity).
  exact (conj H1 (conj H2
           (proj2 (proj2 (proj2 (recorded_source_is_the_mp4_key Cases.presign "u1" "v9"
                                   "alice" Cases.matroska Cases.matroska_response
                                   Scenario.uploaded "anime-clips" H1 H2)))))).
Defined.

End StoreFacts.

(** ** The ffmpeg command *)

Module TemplateFacts.
Import Models Env Template Captions.

Lemma escape_cons c s :
  escape (String c s)
  = if Ascii.eqb c "'" then String "\" (String "'" (escape s))
    else if Ascii.eqb c ":" then String "\" (String ":" (escape s))
    else String c (escape s).
Proof.
  unfold escape. cbn [replace_char].
  destruct (Ascii.eqb c "'") eqn:E1.
  - reflexivity.
  - cbn [replace_char]. destruct (Ascii.eqb c ":"); reflexivity.
Qed.

Lemma escape_guarded_from s : forall b, guarded_from b (escape s) = true.
Proof.
  induction s as [|c s IH]; intros b; [reflexivity|].
  rewrite escape_cons.
  destruct (Ascii.eqb c "'") eqn:E1; [cbn; apply IH|].
  destruct (Ascii.eqb c ":") eqn:E2; [cbn; apply IH|].
  cbn [guarded_from]. unfold special. rewrite E1, E2. cbn. apply IH.
Qed.

(** X27.  In the escaped caption text every quote and every colon comes
    right after a backslash, and a text without quotes and colons is left as
    it is. *)
Theorem caption_text_is_escaped (text : string) :
  guarded (escape text) = true
  /\ (forallb (fun c => negb (special c)) (list_ascii_of_string text) = true ->
      escape text = text).
Proof.
  split; [apply escape_guarded_from|].
  induction text as [|c s IH]; [reflexivity|].
  cbn [list_ascii_of_string forallb]. intros H. apply andb_true_iff in H.
  destruct H as [Hc Hs]. rewrite escape_cons.
  unfold special in Hc. apply negb_true_iff, orb_false_iff in Hc.
  destruct Hc as [-> ->]. rewrite (IH Hs). reflexivity.
Qed.

Lemma scale_filter_known aspect :
  is_Some (scale_filter aspect) <-> In aspect Renderer.known_aspects.
Proof.
  unfold scale_filter, Renderer.known_aspects. cbn [In].
  destruct (String.eqb aspect "9:16") eqn:E1;
    [apply String.eqb_eq in E1; subst; split; eauto|].
  destruct (String.eqb aspect "1:1") eqn:E2;
    [apply String.eqb_eq in E2; subst; split; eauto|].
  destruct (String.eqb aspect "4:5") eqn:E3;
    [apply String.eqb_eq in E3; subst; split; eauto|].
  apply String.eqb_neq in E1, E2, E3.
  split; [intros [x Hx]; discriminate|]. intros [H|[H|[H|[]]]]; congruence.
Qed.

Lemma caption_parts_unknown str_float caps template y start :
  ~ In template templates -> caption_parts str_float caps template y start = None.
Proof.
  unfold templates, caption_parts. cbn [In]. intros H.
  destruct (String.eqb template "clean") eqn:E1;
    [apply String.eqb_eq in E1; subst; exfalso; apply H; auto 6|].
  destruct (String.eqb template "manga") eqn:E2;
    [apply String.eqb_eq in E2; subst; exfalso; apply H; auto 6|].
  destruct (String.eqb template "impact") eqn:E3;
    [apply String.eqb_eq in E3; subst; exfalso; apply H; auto 6|].
  destruct (String.eqb template "karaoke") eqn:E4;
    [apply String.eqb_eq in E4; subst; exfalso; apply H; auto 6|].
  reflexivity.
Qed.

(** X26.  The ffmpeg command is built exactly for the aspects [9:16],
    [1:1] and [4:5]; for any other aspect the builder raises [IndexError],
    as the model of the render call does.  With a template the builder does
    not know, the command is the one built without captions. *)
Theorem command_needs_a_known_aspect (str_float : Q -> string)
    (watermark loudness video_path output_path : string) (start_s end_s : Q)
    (captions : list Word) (template aspect : string) :
  let build caps :=
    build_ffmpeg_command str_float watermark loudness video_path output_path
      start_s end_s caps template aspect in
  ((exists cmd, build captions = inr cmd) <-> In aspect Renderer.known_aspects)
  /\ (~ In aspect Renderer.known_aspects ->
      build captions = inl "list index out of range"
      /\ forall w call, call_aspect call = aspect ->
           Renderer.render w call = Some "list index out of range")
  /\ (~ In template templates -> build captions = build []).
Proof.
  cbv zeta. unfold build_ffmpeg_command.
  pose proof (scale_filter_known aspect) as Hk.
  split; [|split].
  - destruct (scale_filter aspect) as [scaled|].
    + split; [intros _; apply Hk; eauto|eauto].
    + split; [intros [cmd H]; discriminate|].
      intros H. apply Hk in H. destruct H as [x Hx]. discriminate.
  - intros Hn. destruct (scale_filter aspect) as [scaled|];
      [exfalso; apply Hn, Hk; eauto|].
    split; [reflexivity|]. intros w call Hc. unfold Renderer.render.
    rewrite bool_decide_eq_false_2; [reflexivity|].
    rewrite Hc. intros Hin. apply Hn, list_elem_of_In, Hin.
  - intros Ht. destruct (scale_filter aspect) as [scaled|]; [|reflexivity].
    unfold video_filter, build_caption_filter.
    rewrite (caption_parts_unknown _ _ _ _ _ Ht).
    destruct captions; reflexivity.
Qed.

End TemplateFacts.
